(** * Session Desktop: outgoing message queue and libsession wrapper glue

    A shallow embedding of

    - the libsession utilities exported as [LibSessionUtil]
      (module [LibSessionUtil] below), and
    - [ts/session/sending/MessageQueue.ts] (module [MessageQueue] below).

    Both files are asynchronous glue code around collaborators that live
    elsewhere (the libsession worker, the database, the snode transport, the
    sent-message handlers).  An [async] function is embedded as a state and
    error passing function: it takes the current world, and gives back either
    the value its promise resolves to or the error it rejects with, together
    with the world it leaves behind.  The world always holds the {e trace}:
    the chronological list of calls made to collaborators.  A collaborator is
    an oracle that maps the trace so far (and its arguments) to an outcome, so
    that its answers may depend on everything that happened before. *)

From Stdlib Require Import ZArith List String Bool Lia.
From Stdlib.Strings Require Import Byte.
From stdpp Require Import base option list strings gmap pretty.

Open Scope Z_scope.

(** ** Errors, results and the async monad *)

(** What a [throw] throws or a promise rejects with.  JavaScript lets it
    be any value, and the code looks at such a value in two ways only: it
    reads its [message], and it tests it for truthiness
    ([e || new Error(...)]).  So a thrown value is here an [Error] object
    (or any other object with a message) with that message, [undefined],
    [null], or any other value, of which only the truthiness shows. *)
Inductive Error : Type :=
| mkError (errMessage : string)
| thrownUndefined
| thrownNull
| thrownOther (truthy : bool).

Inductive Result (A : Type) : Type :=
| Ok (a : A)
| Throw (e : Error).
Arguments Ok {A} a.
Arguments Throw {A} e.

Definition isOk {A} (r : Result A) : bool :=
  match r with Ok _ => true | Throw _ => false end.

(** The value of a result, or [d] when it is an error. *)
Definition okOr {A} (d : A) (r : Result A) : A :=
  match r with Ok a => a | Throw _ => d end.

Abbreviation bytes := (list byte).

(** Truthiness of a thrown value, as [e || ...] tests it. *)
Definition isTruthy (e : Error) : bool :=
  match e with
  | mkError _ => true
  | thrownUndefined | thrownNull => false
  | thrownOther truthy => truthy
  end.

(** The [TypeError] with which V8 refuses to read [message] of [undefined]
    or of [null]. *)
Definition cannotReadMessage (what : string) : Error :=
  mkError ("Cannot read properties of " +:+ what +:+ " (reading 'message')").

(** Reading [e.message], as a template literal prints it: the message of
    an [Error], the text [undefined] for a value without one, and a
    [TypeError] for [undefined] and [null]. *)
Definition messageOf (e : Error) : Result string :=
  match e with
  | mkError errMessage => Ok errMessage
  | thrownUndefined => Throw (cannotReadMessage "undefined")
  | thrownNull => Throw (cannotReadMessage "null")
  | thrownOther _ => Ok "undefined"
  end.

Section Async.
Context {S : Type}.

(** The promise of an [async] function over a world of type [S]. *)
Definition Async (A : Type) : Type := S → Result A * S.

Definition ret {A} (a : A) : Async A := λ s, (Ok a, s).

Definition throw {A} (e : Error) : Async A := λ s, (Throw e, s).

(** [await m; k]. *)
Definition bind {A B} (m : Async A) (k : A → Async B) : Async B :=
  λ s, match m s with
       | (Ok a, s') => k a s'
       | (Throw e, s') => (Throw e, s')
       end.

(** [try { body } catch (e) { handler e }]. *)
Definition try_catch {A} (body : Async A) (handler : Error → Async A) : Async A :=
  λ s, match body s with
       | (Ok a, s') => (Ok a, s')
       | (Throw e, s') => handler e s'
       end.

(** [try { body } finally { fin }]: [fin] runs on both exits; the outcome
    of [body] is kept unless [fin] itself throws. *)
Definition try_finally {A} (body : Async A) (fin : Async unit) : Async A :=
  λ s, match body s with
       | (r, s') =>
           match fin s' with
           | (Ok _, s'') => (r, s'')
           | (Throw e, s'') => (Throw e, s'')
           end
       end.

(** [void m]: the promise is started and dropped; a rejection is never
    observed by the caller. *)
Definition void {A} (m : Async A) : Async unit :=
  λ s, match m s with (_, s') => (Ok tt, s') end.

(** Lift a synchronous outcome. *)
Definition liftR {A} (r : Result A) : Async A := λ s, (r, s).
End Async.

Arguments Async S A : clear implicits.

Declare Scope async_scope.
Delimit Scope async_scope with async.
Notation "'let*' x ':=' m 'in' k" := (bind m (λ x, k))
  (at level 10, x pattern, m at level 100, k at level 200) : async_scope.
Notation "m ';;' k" := (bind m (λ _, k))
  (at level 100, k at level 200, right associativity) : async_scope.
Open Scope async_scope.

(** The double quote character, for messages that quote a value. *)
Definition dquote : string := String (Ascii.ascii_of_nat 34) EmptyString.

(** JavaScript truthiness of an optional string ([undefined] and the empty
    string are falsy). *)
Definition truthy_string (o : option string) : bool :=
  match o with
  | Some s => negb (String.eqb s EmptyString)
  | None => false
  end.

(** * LibSessionUtil *)

Module LibSessionUtil.

(** ** Data model *)

(** [ConfigWrapperUser]: the four user wrappers. *)
Inductive ConfigWrapperUser : Type :=
| UserConfig
| ContactsConfig
| UserGroupsConfig
| ConvoInfoVolatileConfig.

#[global] Instance ConfigWrapperUser_eq_dec : EqDecision ConfigWrapperUser.
Proof. solve_decision. Defined.

(** [ConfigWrapperObjectTypes = ConfigWrapperUser | ConfigWrapperGroup]; the
    group arm is the template type [`MetaGroupConfig-${GroupPubkeyType}`],
    kept here with the group public key it embeds.  The declaration lives in
    [libsession_worker_functions], which is not among the sources. *)
Inductive ConfigWrapperObjectTypes : Type :=
| UserVariant (v : ConfigWrapperUser)
| MetaGroupConfig (groupPk : string).

#[global] Instance ConfigWrapperObjectTypes_eq_dec : EqDecision ConfigWrapperObjectTypes.
Proof. solve_decision. Defined.

(** The type guards [isUserConfigWrapperType] and [isMetaWrapperType], and
    [getGroupPubkeyFromWrapperType].  A guard narrows the type of the variant
    in the branch it opens, so [isUserConfigWrapperType] gives back the user
    variant it has recognised, and [getGroupPubkeyFromWrapperType], which
    only takes group variants, answers exactly where [isMetaWrapperType]
    holds. *)
Definition isUserConfigWrapperType (variant : ConfigWrapperObjectTypes)
  : option ConfigWrapperUser :=
  match variant with
  | UserVariant v => Some v
  | MetaGroupConfig _ => None
  end.

Definition isMetaWrapperType (variant : ConfigWrapperObjectTypes) : bool :=
  match variant with
  | UserVariant _ => false
  | MetaGroupConfig _ => true
  end.

Definition getGroupPubkeyFromWrapperType (variant : ConfigWrapperObjectTypes)
  : option string :=
  match variant with
  | UserVariant _ => None
  | MetaGroupConfig groupPk => Some groupPk
  end.

Definition variantName (variant : ConfigWrapperObjectTypes) : string :=
  match variant with
  | UserVariant UserConfig => "UserConfig"
  | UserVariant ContactsConfig => "ContactsConfig"
  | UserVariant UserGroupsConfig => "UserGroupsConfig"
  | UserVariant ConvoInfoVolatileConfig => "ConvoInfoVolatileConfig"
  | MetaGroupConfig groupPk => "MetaGroupConfig-" +:+ groupPk
  end.

(** [SignalService.SharedConfigMessage.Kind]: the protobuf enum.  The four
    kinds the switch statements name, and [KIND_OTHER] for any other wire
    tag a value of the enum type may hold at run time. *)
Inductive Kind : Type :=
| USER_PROFILE
| CONTACTS
| USER_GROUPS
| CONVO_INFO_VOLATILE
| KIND_OTHER (tag : Z).

#[global] Instance Kind_eq_dec : EqDecision Kind.
Proof. solve_decision. Defined.

Definition kindName (kind : Kind) : string :=
  match kind with
  | USER_PROFILE => "USER_PROFILE"
  | CONTACTS => "CONTACTS"
  | USER_GROUPS => "USER_GROUPS"
  | CONVO_INFO_VOLATILE => "CONVO_INFO_VOLATILE"
  | KIND_OTHER tag => pretty tag
  end.

Definition requiredUserVariants : list ConfigWrapperUser :=
  [UserConfig; ContactsConfig; UserGroupsConfig; ConvoInfoVolatileConfig].

(** The four wire kinds of the required user variants. *)
Definition userKinds : list Kind :=
  [USER_PROFILE; CONTACTS; USER_GROUPS; CONVO_INFO_VOLATILE].

(** Modelled from the spec: [assertUnreachable] ([types/sqlSharedTypes]) is
    not among the sources; reaching it is an invariant violation that is
    raised immediately with the given message. *)
Definition assertUnreachable {A} (msg : string) : Result A :=
  Throw (mkError msg).

Definition kindToVariant (kind : Kind) : Result ConfigWrapperObjectTypes :=
  match kind with
  | USER_PROFILE => Ok (UserVariant UserConfig)
  | CONTACTS => Ok (UserVariant ContactsConfig)
  | USER_GROUPS => Ok (UserVariant UserGroupsConfig)
  | CONVO_INFO_VOLATILE => Ok (UserVariant ConvoInfoVolatileConfig)
  | KIND_OTHER _ =>
      assertUnreachable
        ("kindToVariant: Unsupported variant: " +:+ dquote +:+ kindName kind +:+ dquote)
  end.

Definition variantToKind (variant : ConfigWrapperObjectTypes) : Result Kind :=
  match variant with
  | UserVariant UserConfig => Ok USER_PROFILE
  | UserVariant ContactsConfig => Ok CONTACTS
  | UserVariant UserGroupsConfig => Ok USER_GROUPS
  | UserVariant ConvoInfoVolatileConfig => Ok CONVO_INFO_VOLATILE
  | MetaGroupConfig _ =>
      assertUnreachable
        ("variantToKind: Unsupported kind: " +:+ dquote +:+ variantName variant +:+ dquote)
  end.

(** ** Collaborators and the trace *)

(** A row of the config dump table, with and without its payload. *)
Record ConfigDumpRow : Type := mkDump {
  variant : ConfigWrapperObjectTypes;
  publicKey : string;
  data : bytes;
}.

Record ConfigDumpRowWithoutData : Type := mkDumpMeta {
  meta_variant : ConfigWrapperObjectTypes;
  meta_publicKey : string;
}.

(** The ed25519 key pair as stored; [privKeyBytes] may be missing. *)
Record KeyPairBytes : Type := mkKeyPair {
  pubKeyBytes : bytes;
  privKeyBytes : option bytes;
}.

(** A JavaScript [number]: [NaN], an infinity, or the finite value
    [m * 2 ^ e] (every finite double is of this form). *)
Inductive JsNumber : Type :=
| NaN
| Infinity (negative : bool)
| Finite (m e : Z).

(** The number that is the integer [n]. *)
Definition integer (n : Z) : JsNumber := Finite n 0.

(** What [GenericWrapperActions.push] resolves to. *)
Record PushResult : Type := mkPush {
  push_data : bytes;
  push_seqno : JsNumber;
  push_hashes : list string;
}.

(** What [UserGroupsWrapperActions.getGroup] finds. *)
Record UserGroupsGet : Type := mkGroupGet {
  secretKey : option bytes;
}.

(** The argument of [MetaGroupWrapperActions.init]. *)
Record GroupWrapperConstructor : Type := mkGroupInit {
  groupEd25519Pubkey : bytes;
  groupEd25519Secretkey : option bytes;
  userEd25519Secretkey : bytes;
  metaDumped : bytes;
}.

(** A [Long] of the [long] package: a signed 64-bit integer, by its
    value. *)
Record Long : Type := mkLong { longValue : Z }.

Definition Long_MIN_VALUE : Long := mkLong (- 2 ^ 63).
Definition Long_MAX_VALUE : Long := mkLong (2 ^ 63 - 1).

(** The finite number [m * 2 ^ e] without its fraction (rounded towards
    zero). *)
Definition truncated (m e : Z) : Z :=
  if 0 <=? e then m * 2 ^ e else Z.quot m (2 ^ (- e)).

(** [Long.fromNumber] for a signed [Long]: [NaN] gives zero, a value at or
    beyond the ends of the signed 64-bit range gives the end, and any other
    value loses its fraction. *)
Definition Long_fromNumber (value : JsNumber) : Long :=
  match value with
  | NaN => mkLong 0
  | Infinity true => Long_MIN_VALUE
  | Infinity false => Long_MAX_VALUE
  | Finite m e =>
      let whole := truncated m e in
      if whole <=? - 2 ^ 63 then Long_MIN_VALUE
      else if 2 ^ 63 - 1 <=? whole then Long_MAX_VALUE
      else mkLong whole
  end.

Record SharedConfigMessage : Type := mkSharedConfigMessage {
  msg_data : bytes;
  msg_kind : Kind;
  msg_seqno : Long;
  msg_timestamp : Z;
}.

Record OutgoingConfResult : Type := mkOutgoing {
  message : SharedConfigMessage;
  namespace : Z;
  oldMessageHashes : list string;
}.

Inductive LogLevel : Type := LogDebug | LogInfo | LogWarn.

(** One entry per call to a collaborator, in program order.  The calls
    whose answers the properties below speak about record the answer as
    well. *)
Inductive Event : Type :=
| EvGetKeyPair
| EvGetAllDumpsWithData
| EvGetAllDumpsWithoutData
| EvLog (level : LogLevel) (text : string)
| EvGenericInit (v : ConfigWrapperUser) (dump : option bytes) (answer : Result unit)
| EvGenericDump (v : ConfigWrapperUser)
| EvSaveConfigDump (row : ConfigDumpRow)
| EvGetGroup (groupPk : string) (answer : Result (option UserGroupsGet))
| EvMetaGroupInit (groupPk : string) (args : GroupWrapperConstructor)
    (answer : Result unit)
| EvNeedsPush (v : ConfigWrapperUser) (answer : Result bool)
| EvPush (v : ConfigWrapperUser) (answer : Result PushResult)
| EvStorageNamespace (v : ConfigWrapperUser)
| EvConfirmPushed (v : ConfigWrapperUser) (seqno : Z) (hash : string)
| EvNeedsDump (v : ConfigWrapperUser).

Abbreviation Trace := (list Event).

(** Everything the module imports and calls.  Each asynchronous call is an
    oracle over the trace so far; the synchronous, pure helpers are plain
    functions. *)
Record Collaborators : Type := mkCollaborators {
  (* UserUtils *)
  getUserED25519KeyPairBytes : Trace → Result (option KeyPairBytes);
  getOurPubKeyStrFromCache : string;
  (* ConfigDumpData *)
  getAllDumpsWithData : Trace → Result (list ConfigDumpRow);
  getAllDumpsWithoutData : Trace → Result (list ConfigDumpRowWithoutData);
  saveConfigDump : Trace → ConfigDumpRow → Result unit;
  (* GenericWrapperActions *)
  generic_init : Trace → ConfigWrapperUser → bytes → option bytes → Result unit;
  generic_dump : Trace → ConfigWrapperUser → Result bytes;
  generic_needsPush : Trace → ConfigWrapperUser → Result bool;
  generic_push : Trace → ConfigWrapperUser → Result PushResult;
  generic_storageNamespace : Trace → ConfigWrapperUser → Result Z;
  generic_confirmPushed : Trace → ConfigWrapperUser → Z → string → Result unit;
  generic_needsDump : Trace → ConfigWrapperUser → Result bool;
  (* UserGroupsWrapperActions and MetaGroupWrapperActions *)
  userGroups_getGroup : Trace → string → Result (option UserGroupsGet);
  metaGroup_init : Trace → string → GroupWrapperConstructor → Result unit;
  (* HexString, sqlSharedTypes, GetNetworkTime *)
  fromHexString : string → bytes;
  toFixedUint8ArrayOfLength : bytes → nat → Result bytes;
  getNowWithNetworkOffset : Trace → Z;
}.

(** Call a collaborator: its answer is taken on the trace so far and the
    call is appended to the trace. *)
Definition perform {A} (oracle : Trace → Result A) (ev : Result A → Event)
  : Async Trace A :=
  λ tr, let r := oracle tr in (r, tr ++ [ev r]).

Definition log (level : LogLevel) (text : string) : Async Trace unit :=
  λ tr, (Ok tt, tr ++ [EvLog level text]).

(** [String.prototype.substring(2)]. *)
Definition substring2 (s : string) : string :=
  String.substring 2 (String.length s - 2) s.

(** ** Reading the trace *)

(** The groups whose load was attempted, in order. *)
Definition groupsAttempted (evs : Trace) : list string :=
  omap (λ ev, match ev with EvGetGroup groupPk _ => Some groupPk | _ => None end) evs.



Definition isFailedGroupLoad (ev : Event) : bool :=
  match ev with
  | EvGetGroup _ (Throw _) | EvMetaGroupInit _ _ (Throw _) => true
  | _ => false
  end.

Definition isGroupEvent (ev : Event) : bool :=
  match ev with
  | EvGetGroup _ _ | EvMetaGroupInit _ _ _ => true
  | _ => false
  end.

(** The user variants whose dirty state was queried, the ones reported
    dirty, and the pushes that were answered, each in order. *)
Definition queried (evs : Trace) : list ConfigWrapperUser :=
  omap (λ ev, match ev with EvNeedsPush v _ => Some v | _ => None end) evs.

Definition reportedDirty (evs : Trace) : list ConfigWrapperUser :=
  omap (λ ev, match ev with EvNeedsPush v (Ok true) => Some v | _ => None end) evs.

Definition pushed (evs : Trace) : list (ConfigWrapperUser * PushResult) :=
  omap (λ ev, match ev with EvPush v (Ok p) => Some (v, p) | _ => None end) evs.

(** How often [v] occurs in a list of variants. *)
Definition occurrences (v : ConfigWrapperUser) (l : list ConfigWrapperUser) : nat :=
  length (List.filter (λ v', bool_decide (v' = v)) l).

(** The user variants among the rows that are examined, in order. *)
Definition userVariantsOf (dumps : list ConfigDumpRowWithoutData)
  : list ConfigWrapperUser :=
  omap (λ dump, isUserConfigWrapperType (meta_variant dump)) dumps.

(** The dump table as it is filled: its rows are keyed by owner and
    variant, and the rows of the user variants are stored under our own
    public key. *)
Definition keyedByOwnerAndVariant (dumps : list ConfigDumpRowWithoutData) : Prop :=
  NoDup ((λ dump, (meta_publicKey dump, meta_variant dump)) <$> dumps).

Definition userRowsAreOurs (us : string) (dumps : list ConfigDumpRowWithoutData)
  : Prop :=
  ∀ dump v, dump ∈ dumps → meta_variant dump = UserVariant v →
            meta_publicKey dump = us.

(** An [OutgoingConfResult] that carries what a push of [v] returned; the
    sequence number as [Long.fromNumber] boxes it. *)
Definition carries (r : OutgoingConfResult) (vp : ConfigWrapperUser * PushResult)
  : Prop :=
  variantToKind (UserVariant (fst vp)) = Ok (msg_kind (message r))
  ∧ msg_data (message r) = push_data (snd vp)
  ∧ msg_seqno (message r) = Long_fromNumber (push_seqno (snd vp))
  ∧ oldMessageHashes r = push_hashes (snd vp).

(** The results that are for variant [v]. *)
Definition resultsFor (v : ConfigWrapperUser) (results : list OutgoingConfResult)
  : list OutgoingConfResult :=
  List.filter (λ r, match kindToVariant (msg_kind (message r)) with
                    | Ok variant => bool_decide (variant = UserVariant v)
                    | Throw _ => false
                    end)
              results.

(** The user wrappers whose init was answered, in order, and the rows
    that were handed to [saveConfigDump]. *)
Definition initialised (evs : Trace) : list ConfigWrapperUser :=
  omap (λ ev, match ev with EvGenericInit v _ (Ok _) => Some v | _ => None end) evs.

Definition savedRows (evs : Trace) : list ConfigDumpRow :=
  omap (λ ev, match ev with EvSaveConfigDump row => Some row | _ => None end) evs.

(** The user variants that have a dump among the rows, in order. *)
Definition dumpUserVariants (dumps : list ConfigDumpRow) : list ConfigWrapperUser :=
  omap (λ dump, isUserConfigWrapperType (variant dump)) dumps.

(** The error a rejected [needsPush] or [push] call threw. *)
Definition thrownBy (ev : Event) : option Error :=
  match ev with
  | EvNeedsPush _ (Throw e) | EvPush _ (Throw e) => Some e
  | _ => None
  end.

(** Whether the rows hold one of [us] for the user variant [v]. *)
Definition hasRowOf (us : string) (dumps : list ConfigDumpRowWithoutData)
    (v : ConfigWrapperUser) : bool :=
  existsb (λ m, String.eqb (meta_publicKey m) us
                && bool_decide (meta_variant m = UserVariant v))
          dumps.









(** A promise that only ever extends the trace, and only with events
    that satisfy [P]. *)
Definition emitsOnly {A} (P : Event → Prop) (m : Async Trace A) : Prop :=
  ∀ tr, ∃ evs, (m tr).2 = tr ++ evs ∧ Forall P evs.

(** No user wrapper is handed an empty dump: it gets [null] instead. *)
Definition handsNoEmptyDump (ev : Event) : Prop :=
  match ev with
  | EvGenericInit _ d _ => d ≠ Some []
  | _ => True
  end.

(** A group wrapper is built from a stored row of that group: the payload
    of the row, and the public key read off the name of the group. *)
Definition groupInitFromDump (W : Collaborators) (dumps : list ConfigDumpRow)
    (ev : Event) : Prop :=
  match ev with
  | EvMetaGroupInit groupPk args _ =>
      ∃ dump,
        dump ∈ dumps
        ∧ variant dump = MetaGroupConfig groupPk
        ∧ metaDumped args = data dump
        ∧ toFixedUint8ArrayOfLength W (fromHexString W (substring2 groupPk)) 32
          = Ok (groupEd25519Pubkey args)
  | _ => True
  end.

(** ** The functions *)

Section Functions.
Context (W : Collaborators).

(** [Set.prototype.add] on the insertion-ordered set of variants. *)
Definition set_add (v : ConfigWrapperUser) (s : list ConfigWrapperUser)
  : list ConfigWrapperUser :=
  if decide (v ∈ s) then s else s ++ [v].

(** [keypair?.privKeyBytes], absent when either is. *)
Definition privKeyOf (keypair : option KeyPairBytes) : option bytes :=
  match keypair with
  | Some kp => privKeyBytes kp
  | None => None
  end.

(** First loop of [initializeLibSessionUtilWrappers]: load every
    user-scoped dump into its wrapper.  A failing init is logged and
    re-thrown under a new message; the message of what was caught is read
    for the log text first. *)
Fixpoint loadUserDumps (privateKeyEd25519 : bytes) (dumps : list ConfigDumpRow)
    (userVariantsBuildWithoutErrors : list ConfigWrapperUser)
  : Async Trace (list ConfigWrapperUser) :=
  match dumps with
  | [] => ret userVariantsBuildWithoutErrors
  | dump :: rest =>
      match isUserConfigWrapperType (variant dump) with
      | None => loadUserDumps privateKeyEd25519 rest userVariantsBuildWithoutErrors
      | Some v =>
          log LogDebug "initializeLibSessionUtilWrappers initing from dump" ;;
          let dumpData := if bool_decide (data dump = []) then None else Some (data dump) in
          let* built :=
            try_catch
              (perform (λ tr, generic_init W tr v privateKeyEd25519 dumpData)
                       (EvGenericInit v dumpData) ;;
               ret (set_add v userVariantsBuildWithoutErrors))
              (λ e,
                 let* failure := liftR (messageOf e) in
                 log LogWarn ("init of UserConfig failed with " +:+ failure +:+ " ") ;;
                 throw (mkError ("initializeLibSessionUtilWrappers failed with " +:+ failure)))
          in
          loadUserDumps privateKeyEd25519 rest built
      end
  end.

(** Second loop: create, dump and persist every required variant that
    was not built from a dump.  No [try] surrounds these calls. *)
Fixpoint createMissingVariants (privateKeyEd25519 : bytes)
    (missingRequiredVariants : list ConfigWrapperUser) : Async Trace unit :=
  match missingRequiredVariants with
  | [] => ret tt
  | missingVariant :: rest =>
      log LogWarn ("initializeLibSessionUtilWrappers: missingRequiredVariants "
                   +:+ dquote +:+ variantName (UserVariant missingVariant) +:+ dquote) ;;
      perform (λ tr, generic_init W tr missingVariant privateKeyEd25519 None)
              (EvGenericInit missingVariant None) ;;
      let* dump := perform (λ tr, generic_dump W tr missingVariant)
                           (λ _, EvGenericDump missingVariant) in
      let row := {| data := dump;
                    publicKey := getOurPubKeyStrFromCache W;
                    variant := UserVariant missingVariant |} in
      perform (λ tr, saveConfigDump W tr row) (λ _, EvSaveConfigDump row) ;;
      log LogDebug ("initializeLibSessionUtilWrappers: missingRequiredVariants "
                    +:+ dquote +:+ variantName (UserVariant missingVariant) +:+ dquote
                    +:+ " created") ;;
      createMissingVariants privateKeyEd25519 rest
  end.

(** Third loop: load every group dump.  Whatever is thrown inside the
    [try] is logged with its message and dropped. *)
Fixpoint loadGroupDumps (userPrivKeyBytes : bytes) (dumps : list ConfigDumpRow)
  : Async Trace unit :=
  match dumps with
  | [] => ret tt
  | dump :: rest =>
      match getGroupPubkeyFromWrapperType (variant dump) with
      | None => loadGroupDumps userPrivKeyBytes rest
      | Some groupPk =>
          let groupPkNoPrefix := substring2 groupPk in
          let groupEd25519Pubkey := fromHexString W groupPkNoPrefix in
          try_catch
            (let* foundInUserGroups :=
               perform (λ tr, userGroups_getGroup W tr groupPk)
                       (EvGetGroup groupPk) in
             log LogDebug "initializeLibSessionUtilWrappers initing from dump" ;;
             let* pk32 := liftR (toFixedUint8ArrayOfLength W groupEd25519Pubkey 32) in
             let* sk64 := liftR (toFixedUint8ArrayOfLength W userPrivKeyBytes 64) in
             let args := {| groupEd25519Pubkey := pk32;
                            groupEd25519Secretkey :=
                              match foundInUserGroups with
                              | Some g => secretKey g
                              | None => None
                              end;
                            userEd25519Secretkey := sk64;
                            metaDumped := data dump |} in
             perform (λ tr, metaGroup_init W tr groupPk args)
                     (EvMetaGroupInit groupPk args))
            (λ e,
               let* failure := liftR (messageOf e) in
               log LogWarn ("initGroup of Group wrapper of variant "
                            +:+ variantName (variant dump)
                            +:+ " failed with " +:+ failure +:+ " ")) ;;
          loadGroupDumps userPrivKeyBytes rest
      end
  end.

(** [initializeLibSessionUtilWrappers].  The [setTimeout] of the source
    schedules a callback that only reads a property and calls nothing, so
    it leaves no mark here. *)
Definition initializeLibSessionUtilWrappers : Async Trace unit :=
  let* keypair := perform (getUserED25519KeyPairBytes W) (λ _, EvGetKeyPair) in
  match privKeyOf keypair with
  | None => throw (mkError "edkeypair not found for current user")
  | Some privateKeyEd25519 =>
      let* dumps := perform (getAllDumpsWithData W) (λ _, EvGetAllDumpsWithData) in
      log LogInfo "initializeLibSessionUtilWrappers alldumpsInDB already: " ;;
      let* userVariantsBuildWithoutErrors :=
        loadUserDumps privateKeyEd25519 dumps [] in
      let missingRequiredVariants :=
        list_difference requiredUserVariants userVariantsBuildWithoutErrors in
      createMissingVariants privateKeyEd25519 missingRequiredVariants ;;
      let* ed25519KeyPairBytes :=
        perform (getUserED25519KeyPairBytes W) (λ _, EvGetKeyPair) in
      match privKeyOf ed25519KeyPairBytes with
      | None => throw (mkError "user has no ed25519KeyPairBytes.")
      | Some userPrivKeyBytes => loadGroupDumps userPrivKeyBytes dumps
      end
  end.

(** The [forEach] over [requiredUserVariants] that pushes a placeholder
    row for every required variant without a dump of ours. *)
Definition addPlaceholder (us : string) (dumps : list ConfigDumpRowWithoutData)
    (requiredVariant : ConfigWrapperUser) : list ConfigDumpRowWithoutData :=
  if existsb (λ m, String.eqb (meta_publicKey m) us
                   && bool_decide (meta_variant m = UserVariant requiredVariant))
             dumps
  then dumps
  else dumps ++ [ {| meta_publicKey := us;
                     meta_variant := UserVariant requiredVariant |} ].

Definition withPlaceholders (pubkey us : string)
    (dumps : list ConfigDumpRowWithoutData) : list ConfigDumpRowWithoutData :=
  if String.eqb pubkey us
  then fold_left (addPlaceholder us) requiredUserVariants dumps
  else dumps.

(** The main loop of [pendingChangesForPubkey]. *)
Fixpoint collectPendingChanges (dumps : list ConfigDumpRowWithoutData)
    (results : list OutgoingConfResult)
    (variantsNeedingPush : list ConfigWrapperUser)
  : Async Trace (list OutgoingConfResult * list ConfigWrapperUser) :=
  match dumps with
  | [] => ret (results, variantsNeedingPush)
  | dump :: rest =>
      match isUserConfigWrapperType (meta_variant dump) with
      | None =>
          log LogInfo "// TODO Audric" ;;
          collectPendingChanges rest results variantsNeedingPush
      | Some v =>
          let* needsPush := perform (λ tr, generic_needsPush W tr v) (EvNeedsPush v) in
          if negb needsPush
          then collectPendingChanges rest results variantsNeedingPush
          else
            let* pushed := perform (λ tr, generic_push W tr v) (EvPush v) in
            let* kind := liftR (variantToKind (UserVariant v)) in
            let* ns := perform (λ tr, generic_storageNamespace W tr v)
                               (λ _, EvStorageNamespace v) in
            let* now := (λ tr, (Ok (getNowWithNetworkOffset W tr), tr)) in
            let result :=
              {| message := {| msg_data := push_data pushed;
                               msg_kind := kind;
                               msg_seqno := Long_fromNumber (push_seqno pushed);
                               msg_timestamp := now |};
                 oldMessageHashes := push_hashes pushed;
                 namespace := ns |} in
            collectPendingChanges rest (results ++ [result])
                                  (set_add v variantsNeedingPush)
      end
  end.

Definition joinVariants (vs : list ConfigWrapperUser) : string :=
  String.concat "," (map (λ v, variantName (UserVariant v)) vs).

Definition pendingChangesForPubkey (pubkey : string)
  : Async Trace (list OutgoingConfResult) :=
  let* dumps := perform (getAllDumpsWithoutData W) (λ _, EvGetAllDumpsWithoutData) in
  let us := getOurPubKeyStrFromCache W in
  let dumps := withPlaceholders pubkey us dumps in
  let* (results, variantsNeedingPush) := collectPendingChanges dumps [] [] in
  log LogInfo ("those variants needs push: " +:+ dquote
               +:+ joinVariants variantsNeedingPush +:+ dquote) ;;
  ret results.

(** [markAsPushed]: true when the config needs to be dumped afterwards. *)
Definition markAsPushed (v : ConfigWrapperUser) (pubkey : string) (seqno : Z)
    (hash : string) : Async Trace bool :=
  if negb (String.eqb pubkey (getOurPubKeyStrFromCache W))
  then throw (mkError "FIXME, generic case is to be done")
  else
    perform (λ tr, generic_confirmPushed W tr v seqno hash)
            (λ _, EvConfirmPushed v seqno hash) ;;
    perform (λ tr, generic_needsDump W tr v) (λ _, EvNeedsDump v).

End Functions.

(** ** A concrete set of collaborators

    An account ["05us"] whose key pair is present, whose wrappers are all
    dirty and always answer, and whose database holds the given rows.
    [initFails] and [groupFails] choose the user wrappers and the groups
    whose init rejects. *)
Definition exampleWorker (dumps : list ConfigDumpRow)
    (metas : list ConfigDumpRowWithoutData)
    (initFails : ConfigWrapperUser → bool) (groupFails : string → bool)
  : Collaborators :=
  {| getUserED25519KeyPairBytes := λ _, Ok (Some (mkKeyPair [x01] (Some [x02])));
     getOurPubKeyStrFromCache := "05us";
     getAllDumpsWithData := λ _, Ok dumps;
     getAllDumpsWithoutData := λ _, Ok metas;
     saveConfigDump := λ _ _, Ok tt;
     generic_init := λ _ v _ _,
       if initFails v then Throw (mkError "bad dump") else Ok tt;
     generic_dump := λ _ _, Ok [];
     generic_needsPush := λ _ _, Ok true;
     generic_push := λ _ v, Ok (mkPush [x03] (integer 7) ["hash1"; "hash2"]);
     generic_storageNamespace := λ _ _, Ok 2;
     generic_confirmPushed := λ _ _ _ _, Ok tt;
     generic_needsDump := λ _ _, Ok true;
     userGroups_getGroup := λ _ _, Ok None;
     metaGroup_init := λ _ groupPk _,
       if groupFails groupPk then Throw (mkError "bad group dump") else Ok tt;
     fromHexString := λ _, [];
     toFixedUint8ArrayOfLength := λ b _, Ok b;
     getNowWithNetworkOffset := λ _, 1000 |}.

(** A database with dumps of two user wrappers and of two groups. *)
Definition exampleDumps : list ConfigDumpRow :=
  [ mkDump (UserVariant UserConfig) "05us" [x0a];
    mkDump (MetaGroupConfig "03aa") "03aa" [x0b];
    mkDump (UserVariant ContactsConfig) "05us" [x0c];
    mkDump (MetaGroupConfig "03bb") "03bb" [x0d] ].

(** Every call answers, except the init of group ["03aa"]. *)
Definition workerWithBadGroup : Collaborators :=
  exampleWorker exampleDumps [] (λ _, false) (λ groupPk, String.eqb groupPk "03aa").

(** As [workerWithBadGroup], but the init of group ["03aa"] rejects with
    [undefined]. *)
Definition workerWithUndefinedRejection : Collaborators :=
  {| getUserED25519KeyPairBytes := getUserED25519KeyPairBytes workerWithBadGroup;
     getOurPubKeyStrFromCache := getOurPubKeyStrFromCache workerWithBadGroup;
     getAllDumpsWithData := getAllDumpsWithData workerWithBadGroup;
     getAllDumpsWithoutData := getAllDumpsWithoutData workerWithBadGroup;
     saveConfigDump := saveConfigDump workerWithBadGroup;
     generic_init := generic_init workerWithBadGroup;
     generic_dump := generic_dump workerWithBadGroup;
     generic_needsPush := generic_needsPush workerWithBadGroup;
     generic_push := generic_push workerWithBadGroup;
     generic_storageNamespace := generic_storageNamespace workerWithBadGroup;
     generic_confirmPushed := generic_confirmPushed workerWithBadGroup;
     generic_needsDump := generic_needsDump workerWithBadGroup;
     userGroups_getGroup := userGroups_getGroup workerWithBadGroup;
     metaGroup_init := λ _ groupPk _,
       if String.eqb groupPk "03aa" then Throw thrownUndefined else Ok tt;
     fromHexString := fromHexString workerWithBadGroup;
     toFixedUint8ArrayOfLength := toFixedUint8ArrayOfLength workerWithBadGroup;
     getNowWithNetworkOffset := getNowWithNetworkOffset workerWithBadGroup |}.


(** The database holds one row, for our [ContactsConfig]. *)
Definition workerWithOneDump : Collaborators :=
  exampleWorker [] [ mkDumpMeta (UserVariant ContactsConfig) "05us" ]
                (λ _, false) (λ _, false).

(** What [exampleWorker] makes of a push of the variant of kind [kind]. *)
Definition exampleResult (kind : Kind) : OutgoingConfResult :=
  {| message := {| msg_data := [x03];
                   msg_kind := kind;
                   msg_seqno := mkLong 7;
                   msg_timestamp := 1000 |};
     namespace := 2;
     oldMessageHashes := ["hash1"; "hash2"] |}.

(** Two of the four user wrappers have a dump, and so has one group. *)
Definition workerWithTwoDumps : Collaborators :=
  exampleWorker exampleDumps [] (λ _, false) (λ _, false).

(** As [workerWithOneDump], but the push of [UserGroupsConfig] rejects. *)
Definition workerWithBadPush : Collaborators :=
  {| getUserED25519KeyPairBytes := getUserED25519KeyPairBytes workerWithOneDump;
     getOurPubKeyStrFromCache := getOurPubKeyStrFromCache workerWithOneDump;
     getAllDumpsWithData := getAllDumpsWithData workerWithOneDump;
     getAllDumpsWithoutData := getAllDumpsWithoutData workerWithOneDump;
     saveConfigDump := saveConfigDump workerWithOneDump;
     generic_init := generic_init workerWithOneDump;
     generic_dump := generic_dump workerWithOneDump;
     generic_needsPush := generic_needsPush workerWithOneDump;
     generic_push := λ tr v,
       if bool_decide (v = UserGroupsConfig) then Throw (mkError "push refused")
       else generic_push workerWithOneDump tr v;
     generic_storageNamespace := generic_storageNamespace workerWithOneDump;
     generic_confirmPushed := generic_confirmPushed workerWithOneDump;
     generic_needsDump := generic_needsDump workerWithOneDump;
     userGroups_getGroup := userGroups_getGroup workerWithOneDump;
     metaGroup_init := metaGroup_init workerWithOneDump;
     fromHexString := fromHexString workerWithOneDump;
     toFixedUint8ArrayOfLength := toFixedUint8ArrayOfLength workerWithOneDump;
     getNowWithNetworkOffset := getNowWithNetworkOffset workerWithOneDump |}.

(** The dump table holds [UserConfig] under a second public key. *)
Definition workerWithTwoAccounts : Collaborators :=
  exampleWorker []
                [ mkDumpMeta (UserVariant UserConfig) "05old";
                  mkDumpMeta (UserVariant UserConfig) "05us" ]
                (λ _, false) (λ _, false).

End LibSessionUtil.

(** * MessageQueue *)

Module MessageQueue.

(** ** Data model *)

(** [PubKey]: a session id wrapped in an object; [PubKey.cast] builds one
    from a string and [isEqual] compares the keys. *)
Record PubKey : Type := mkPubKey { key : string }.

Definition PubKey_cast (s : string) : PubKey := mkPubKey s.

Definition isEqual (a b : PubKey) : bool := String.eqb (key a) (key b).

(** What the queue looks at in a [ContentMessage]: its identifier, whether
    it is an [instanceof UnsendMessage], and the [syncTarget] property that
    sync messages carry. *)
Record ContentMessage : Type := mkContentMessage {
  msg_identifier : string;
  instanceofUnsendMessage : bool;
  syncTarget : option string;
}.

Record Reaction : Type := mkReaction {
  reaction_id : Z;
  emoji : string;
}.

Record OpenGroupVisibleMessage : Type := mkOpenGroupVisibleMessage {
  og_identifier : string;
  reaction : option Reaction;
}.

Record OpenGroupRequestCommonType : Type := mkRoom {
  serverUrl : string;
  roomId : string;
}.

Record OutgoingRawMessage : Type := mkRaw {
  identifier : string;
  device : string;
  namespace : Z;
}.

(** What [MessageSender.send] resolves to. *)
Record SendResult : Type := mkSendResult {
  wrappedEnvelope : bytes;
  effectiveTimestamp : Z;
}.

(** What [MessageSender.sendToOpenGroupV2] resolves to, read as an
    [OpenGroupMessageV2]; both fields are optional there. *)
Record OpenGroupMessageV2 : Type := mkOpenGroupMessageV2 {
  serverId : option Z;
  sentTimestamp : option Z;
}.

(** What [MessageSender.sendToOpenGroupV2BlindedRequest] resolves to.  The
    caller tests [serverId] for absence, so it is optional here as well. *)
Record BlindedRequestResult : Type := mkBlindedRequestResult {
  blinded_serverId : option Z;
  serverTimestamp : Z;
}.

(** A [sentCb] closure, known by a handle; running it is up to the
    collaborators below. *)
Definition Callback : Type := nat.

(** A queued job.  The closure built in [processPending] captures exactly
    the message and the [isSyncMessage] flag; [runJob] below is its body. *)
Record Job : Type := mkJob {
  job_message : OutgoingRawMessage;
  job_isSyncMessage : bool;
}.

Inductive LogLevel : Type := LogInfo | LogWarn.

(** One entry per call that leaves the queue, in program order. *)
Inductive Event : Type :=
| EvLog (level : LogLevel) (text : string)
| EvToRawMessage (destination : PubKey) (msgId : string)
| EvSend (m : OutgoingRawMessage) (isSyncMessage : bool)
| EvSendToOpenGroupV2 (msgId : string) (room : OpenGroupRequestCommonType)
    (blinded : bool) (filesToLink : list Z)
| EvSendToOpenGroupV2BlindedRequest (room : OpenGroupRequestCommonType)
    (recipientBlindedId : string)
| EvSendSogsReaction (room : OpenGroupRequestCommonType) (r : Reaction) (blinded : bool)
| EvSentSuccess (m : OutgoingRawMessage) (effectiveTimestamp : Z)
| EvPublicSentSuccess (msgId : string) (serverId : option Z)
    (serverTimestamp : option Z)
| EvSentFailure (msgId : string) (e : Error)
| EvCallback (cb : Callback) (m : OutgoingRawMessage)
| EvCacheAdd (m : OutgoingRawMessage)
| EvCacheRemove (msgId : string).

Abbreviation Trace := (list Event).

Definition isSend (ev : Event) : bool :=
  match ev with EvSend _ _ => true | _ => false end.

Definition isTransport (ev : Event) : bool :=
  match ev with
  | EvSend _ _ | EvSendToOpenGroupV2 _ _ _ _
  | EvSendToOpenGroupV2BlindedRequest _ _ | EvSendSogsReaction _ _ _ => true
  | _ => false
  end.

Definition isSuccessHandler (ev : Event) : bool :=
  match ev with
  | EvSentSuccess _ _ | EvPublicSentSuccess _ _ _ => true
  | _ => false
  end.

Definition isFailureHandler (ev : Event) : bool :=
  match ev with EvSentFailure _ _ => true | _ => false end.


(** The state of one [MessageQueue] with its [PendingMessageCache]: the
    cached messages in insertion order, the side table of callbacks, one
    job queue per destination key, and the trace. *)
Record World : Type := mkWorld {
  pendingMessageCache : list OutgoingRawMessage;
  callbacks : gmap string Callback;
  jobQueues : gmap string (list (string * Job));
  trace : Trace;
}.

Definition set_cache (c : list OutgoingRawMessage) (w : World) : World :=
  mkWorld c (callbacks w) (jobQueues w) (trace w).
Definition set_callbacks (c : gmap string Callback) (w : World) : World :=
  mkWorld (pendingMessageCache w) c (jobQueues w) (trace w).
Definition set_jobQueues (q : gmap string (list (string * Job))) (w : World) : World :=
  mkWorld (pendingMessageCache w) (callbacks w) q (trace w).
Definition emit (evs : Trace) (w : World) : World :=
  mkWorld (pendingMessageCache w) (callbacks w) (jobQueues w) (trace w ++ evs).

(** Everything the class imports and calls. *)
Record Collaborators : Type := mkCollaborators {
  (* UserUtils, PubKey *)
  getOurPubKeyFromCache : option PubKey;
  getOurPubKeyStrFromCache : string;
  isBlinded : string → bool;
  (* MessageUtils *)
  toRawMessage : Trace → PubKey → ContentMessage → Z → Result OutgoingRawMessage;
  (* MessageSender *)
  isSyncMessage : ContentMessage → bool;
  send : Trace → OutgoingRawMessage → bool → Result SendResult;
  sendToOpenGroupV2_transport :
    Trace → OpenGroupVisibleMessage → OpenGroupRequestCommonType → bool → list Z
    → Result OpenGroupMessageV2;
  sendToOpenGroupV2BlindedRequest_transport :
    Trace → bytes → OpenGroupRequestCommonType → string → Result BlindedRequestResult;
  sendSogsReactionOnionV4 :
    Trace → string → string → Reaction → bool → Result bool;
  (* MessageSentHandler *)
  handleMessageSentSuccess : Trace → OutgoingRawMessage → Z → bytes → Result unit;
  handlePublicMessageSentSuccess :
    Trace → string → option Z → option Z → Result unit;
  handleMessageSentFailure : Trace → string → Error → Result unit;
  (* the callbacks handed to the queue, and the cache's database *)
  runCallback : Trace → Callback → OutgoingRawMessage → Result unit;
  saveToDB : Trace → Result unit;
}.

Definition perform {A} (oracle : Trace → Result A) (ev : Event) : Async World A :=
  λ w, (oracle (trace w), emit [ev] w).

Definition log (level : LogLevel) (text : string) : Async World unit :=
  λ w, (Ok tt, emit [EvLog level text] w).

(** [`${serverId}`] in a template literal. *)
Definition showServerId (serverId : option Z) : string :=
  match serverId with
  | Some n => pretty n
  | None => "undefined"
  end.

(** [!serverId || serverId === -1]: absent, zero, or the sentinel. *)
Definition invalidServerId (serverId : option Z) : bool :=
  match serverId with
  | None => true
  | Some n => (n =? 0) || (n =? -1)
  end.

(** ** The pending message cache and the job queue *)

Section Functions.
Context (W : Collaborators).

(** Modelled from the spec: [PendingMessageCache.add] is not among the
    sources.  It appends the message to the destination's sequence,
    registers the callback if one is given and persists the cache; a
    persistence error propagates to the caller. *)
Definition cache_add (destination : PubKey) (message : ContentMessage) (ns : Z)
    (sentCb : option Callback) (isGroup : bool) : Async World unit :=
  λ w,
    let raw := {| identifier := msg_identifier message;
                  device := key destination;
                  namespace := ns |} in
    let cbs := match sentCb with
               | Some cb => <[identifier raw := cb]> (callbacks w)
               | None => callbacks w
               end in
    (saveToDB W (trace w),
     emit [EvCacheAdd raw]
          (set_callbacks cbs (set_cache (pendingMessageCache w ++ [raw]) w))).

(** Modelled from the spec: [PendingMessageCache.getForDevice], the
    pending sequence of one destination in insertion order. *)
Definition getForDevice (dev : PubKey) (w : World) : list OutgoingRawMessage :=
  List.filter (λ m, String.eqb (device m) (key dev)) (pendingMessageCache w).

(** Modelled from the spec: [PendingMessageCache.remove], removal by
    identifier; removing an absent identifier changes nothing. *)
Definition cache_remove (message : OutgoingRawMessage) : Async World unit :=
  λ w,
    (saveToDB W (trace w),
     emit [EvCacheRemove (identifier message)]
          (set_cache
             (List.filter (λ m, negb (String.eqb (identifier m) (identifier message)))
                          (pendingMessageCache w))
             w)).

(** Modelled from the spec: [JobQueue.has] and [JobQueue.addWithId]; a
    job is enqueued unless its identifier is already present, and jobs
    keep their enqueue order. *)
Definition jobQueue_has (id : string) (q : list (string * Job)) : bool :=
  existsb (λ j, String.eqb (fst j) id) q.

Definition addWithId (id : string) (job : Job) (q : list (string * Job))
  : list (string * Job) :=
  if jobQueue_has id q then q else q ++ [(id, job)].

(** The jobs queued under one identifier. *)
Definition jobsFor (id : string) (q : list (string * Job)) : list (string * Job) :=
  List.filter (λ j, String.eqb (fst j) id) q.

(** [getJobQueue]: the queue of a destination, created on first use. *)
Definition getJobQueue (dev : PubKey) : Async World (list (string * Job)) :=
  λ w, match jobQueues w !! key dev with
       | Some queue => (Ok queue, w)
       | None => (Ok [], set_jobQueues (<[key dev := []]> (jobQueues w)) w)
       end.

(** ** The functions *)

(** The job built in [processPending]. *)
Definition runJob (job : Job) : Async World unit :=
  let message := job_message job in
  try_finally
    (try_catch
       (let* r := perform (λ tr, send W tr message (job_isSyncMessage job))
                          (EvSend message (job_isSyncMessage job)) in
        perform (λ tr, handleMessageSentSuccess W tr message
                         (effectiveTimestamp r) (wrappedEnvelope r))
                (EvSentSuccess message (effectiveTimestamp r)) ;;
        let* cb := (λ w, (Ok (callbacks w !! identifier message), w)) in
        match cb with
        | Some c => perform (λ tr, runCallback W tr c message) (EvCallback c message)
        | None => ret tt
        end ;;
        (λ w, (Ok tt, set_callbacks (delete (identifier message) (callbacks w)) w)))
       (λ error,
          void (perform (λ tr, handleMessageSentFailure W tr (identifier message) error)
                        (EvSentFailure (identifier message) error))))
    (void (cache_remove message)).

(** The body of the [forEach] in [processPending], up to the point where
    [addWithId] has taken the job. *)
Definition enqueueMessage (isSyncMessage : bool) (q : list (string * Job))
    (message : OutgoingRawMessage) : list (string * Job) :=
  let messageId := identifier message in
  if negb (jobQueue_has messageId q)
  then addWithId messageId (mkJob message isSyncMessage) q
  else q.

Definition processPending (dev : PubKey) (isSyncMessage : bool) : Async World unit :=
  let* messages := (λ w, (Ok (getForDevice dev w), w)) in
  let* jobQueue := getJobQueue dev in
  λ w, (Ok tt,
        set_jobQueues
          (<[key dev := fold_left (enqueueMessage isSyncMessage) messages jobQueue]>
             (jobQueues w))
          w).

(** The queue at work: the jobs of one destination run one at a time in
    enqueue order, and an identifier leaves the queue when its job has
    settled. *)
Definition settle (devKey id : string) : Async World unit :=
  λ w, (Ok tt,
        set_jobQueues
          (alter (List.filter (λ j, negb (String.eqb (fst j) id))) devKey (jobQueues w))
          w).

Fixpoint runJobs (devKey : string) (jobs : list (string * Job)) : Async World unit :=
  match jobs with
  | [] => ret tt
  | (id, job) :: rest =>
      void (runJob job) ;; settle devKey id ;; runJobs devKey rest
  end.

Definition drain (dev : PubKey) : Async World unit :=
  λ w, runJobs (key dev) (default [] (jobQueues w !! key dev)) w.

(** [process]; only reached through [sendToPubKey] and [sendSyncMessage].
    The first step settles the local [isSyncMessage] flag, or returns
    early ([None]) when the message is dropped. *)
Definition process (destinationPk : PubKey) (message : ContentMessage) (ns : Z)
    (sentCb : option Callback) (isGroup : bool) : Async World unit :=
  let us := getOurPubKeyFromCache W in
  let* flag :=
    if match us with Some us => isEqual destinationPk us | None => false end
    then
      if isSyncMessage W message
      then log LogInfo "OutgoingMessageQueue: Processing sync message" ;;
           ret (Some true)
      else log LogWarn "Dropping message in process() to be sent to ourself" ;;
           ret None
    else ret (Some false)
  in
  match flag with
  | None => ret tt
  | Some isSyncMessage =>
      cache_add destinationPk message ns sentCb isGroup ;;
      void (processPending destinationPk isSyncMessage)
  end.

Definition sendToPubKey (destinationPubKey : PubKey) (message : ContentMessage)
    (ns : Z) (sentCb : option Callback) (isGroup : bool) : Async World unit :=
  if truthy_string (syncTarget message)
  then throw (mkError "SyncMessage needs to be sent with sendSyncMessage")
  else process destinationPubKey message ns sentCb isGroup.

Definition sendSyncMessage (ns : Z) (message : option ContentMessage)
    (sentCb : option Callback) : Async World unit :=
  match message with
  | None => ret tt
  | Some message =>
      if negb (instanceofUnsendMessage message)
         && negb (truthy_string (syncTarget message))
      then throw (mkError "Invalid message given to sendSyncMessage")
      else
        let ourPubKey := getOurPubKeyStrFromCache W in
        process (PubKey_cast ourPubKey) message ns sentCb false
  end.

(** [e || new Error('Failed to send message to open group.')]. *)
Definition reportedError (e : Error) : Error :=
  if isTruthy e then e else mkError "Failed to send message to open group.".

(** The [catch] of the two open group sends: a warning, then the failure
    handler with what was caught, or with a new error when that is falsy. *)
Definition openGroupFailure (roomInfos : OpenGroupRequestCommonType)
    (message : OpenGroupVisibleMessage) (e : Error) : Async World unit :=
  log LogWarn ("Failed to send message to open group: "
               +:+ serverUrl roomInfos +:+ ":" +:+ roomId roomInfos +:+ ":") ;;
  perform (λ tr, handleMessageSentFailure W tr (og_identifier message)
                   (reportedError e))
          (EvSentFailure (og_identifier message) (reportedError e)).

(** The [catch] of the blinded request passes [e.message] to the warning,
    so that it first reads the message of what was caught. *)
Definition blindedRequestFailure (roomInfos : OpenGroupRequestCommonType)
    (message : OpenGroupVisibleMessage) (e : Error) : Async World unit :=
  liftR (messageOf e) ;;
  openGroupFailure roomInfos message e.

Definition sendToOpenGroupV2 (blinded : bool) (filesToLink : list Z)
    (message : OpenGroupVisibleMessage) (roomInfos : OpenGroupRequestCommonType)
  : Async World unit :=
  try_catch
    (match reaction message with
     | Some r =>
         perform (λ tr, sendSogsReactionOnionV4 W tr (serverUrl roomInfos)
                          (roomId roomInfos) r blinded)
                 (EvSendSogsReaction roomInfos r blinded) ;;
         ret tt
     | None =>
         let* result :=
           perform (λ tr, sendToOpenGroupV2_transport W tr message roomInfos
                            blinded filesToLink)
                   (EvSendToOpenGroupV2 (og_identifier message) roomInfos
                      blinded filesToLink) in
         if invalidServerId (serverId result)
         then throw (mkError ("Invalid serverId returned by server: "
                              +:+ showServerId (serverId result)))
         else
           perform (λ tr, handlePublicMessageSentSuccess W tr (og_identifier message)
                            (serverId result) (sentTimestamp result))
                   (EvPublicSentSuccess (og_identifier message)
                      (serverId result) (sentTimestamp result))
     end)
    (openGroupFailure roomInfos message).

Definition sendToOpenGroupV2BlindedRequest (encryptedContent : bytes)
    (message : OpenGroupVisibleMessage) (recipientBlindedId : string)
    (roomInfos : OpenGroupRequestCommonType) : Async World unit :=
  try_catch
    (if negb (isBlinded W recipientBlindedId)
     then throw (mkError "sendToOpenGroupV2BlindedRequest needs a blindedId")
     else
       let* result :=
         perform (λ tr, sendToOpenGroupV2BlindedRequest_transport W tr
                          encryptedContent roomInfos recipientBlindedId)
                 (EvSendToOpenGroupV2BlindedRequest roomInfos recipientBlindedId) in
       if invalidServerId (blinded_serverId result)
       then throw (mkError ("Invalid serverId returned by server: "
                            +:+ showServerId (blinded_serverId result)))
       else
         perform (λ tr, handlePublicMessageSentSuccess W tr (og_identifier message)
                          (blinded_serverId result) (Some (serverTimestamp result)))
                 (EvPublicSentSuccess (og_identifier message)
                    (blinded_serverId result) (Some (serverTimestamp result))))
    (blindedRequestFailure roomInfos message).

(** [sendToPubKeyNonDurably]: the timestamp of the send, or [null].  The
    source has one [try] around everything and a [catch] that looks at
    the local [rawMessage]: it is still unset when [toRawMessage] is what
    threw, and it holds the raw message when anything later throws. *)
Definition sendToPubKeyNonDurably (message : ContentMessage) (ns : Z)
    (pubkey : PubKey) : Async World (option Z) :=
  λ w,
    match perform (λ tr, toRawMessage W tr pubkey message ns)
                  (EvToRawMessage pubkey (msg_identifier message)) w with
    | (Throw error, w1) => (Ok None, w1)
    | (Ok rawMessage, w1) =>
        try_catch
          (let* r := perform (λ tr, send W tr rawMessage false)
                             (EvSend rawMessage false) in
           perform (λ tr, handleMessageSentSuccess W tr rawMessage
                            (effectiveTimestamp r) (wrappedEnvelope r))
                   (EvSentSuccess rawMessage (effectiveTimestamp r)) ;;
           ret (Some (effectiveTimestamp r)))
          (λ error,
             perform (λ tr, handleMessageSentFailure W tr (identifier rawMessage) error)
                     (EvSentFailure (identifier rawMessage) error) ;;
             ret None)
          w1
    end.

(** [us && destinationPk.isEqual(us)], the test [process] makes. *)
Definition addressedToUs (destinationPk : PubKey) : bool :=
  match getOurPubKeyFromCache W with
  | Some us => isEqual destinationPk us
  | None => false
  end.

(** The cache entry [process] makes of a message. *)
Definition cachedAs (destinationPk : PubKey) (message : ContentMessage) (ns : Z)
  : OutgoingRawMessage :=
  mkRaw (msg_identifier message) (key destinationPk) ns.

(** The queue of one destination, empty when there is none yet. *)
Definition queueOf (devKey : string) (w : World) : list (string * Job) :=
  default [] (jobQueues w !! devKey).

(** The sends a list of jobs stands for, in order. *)
Definition sendsOf (jobs : list (string * Job)) : Trace :=
  map (λ j, EvSend (job_message (snd j)) (job_isSyncMessage (snd j))) jobs.

(** Every job is queued under the identifier of its message, as
    [processPending] does it. *)
Definition wellKeyed (q : list (string * Job)) : Prop :=
  Forall (λ j, fst j = identifier (job_message (snd j))) q.

(** ** The group entry points and the restart path *)

(** What [sendToGroup] looks at in a [ClosedGroupMessageType]: the content
    message it is, whether it is an [instanceof ExpirationTimerUpdateMessage]
    or an [instanceof ClosedGroupMessage], and the [groupId] those two
    classes carry. *)
Record ClosedGroupMessageType : Type := mkGroupMessage {
  group_content : ContentMessage;
  instanceofGroupOrTimerUpdate : bool;
  groupId : option PubKey;
}.

(** What [sendToGroupV2] looks at: the content message, its [destination]
    (a group public key string) and its [namespace]. *)
Record GroupV2Message : Type := mkGroupV2Message {
  v2_content : ContentMessage;
  destination : option string;
  v2_namespace : Z;
}.

(** The destination [sendToGroup] settles on: [groupPubKey || message.groupId]
    for the two classes that have a group id, [groupPubKey] otherwise. *)
Definition groupDestination (message : ClosedGroupMessageType)
    (groupPubKey : option PubKey) : option PubKey :=
  if instanceofGroupOrTimerUpdate message
  then match groupPubKey with
       | Some k => Some k
       | None => groupId message
       end
  else groupPubKey.

(** [sendToGroup]; [PubKey.cast] of a [PubKey] is that [PubKey]. *)
Definition sendToGroup (message : ClosedGroupMessageType) (ns : Z)
    (sentCb : option Callback) (groupPubKey : option PubKey) : Async World unit :=
  match groupDestination message groupPubKey with
  | None => throw (mkError "Invalid group message passed in sendToGroup.")
  | Some destinationPubKey =>
      sendToPubKey destinationPubKey (group_content message) ns sentCb true
  end.

Definition sendToGroupV2 (message : GroupV2Message) (sentCb : option Callback)
  : Async World unit :=
  if negb (truthy_string (destination message))
  then throw (mkError "Invalid group message passed in sendToGroupV2.")
  else
    sendToPubKey (PubKey_cast (default EmptyString (destination message)))
                 (v2_content message) (v2_namespace message) sentCb true.

(** Modelled from the spec: [PendingMessageCache.getDevices], the set of
    destinations with at least one pending message. *)
Definition getDevices (w : World) : list PubKey :=
  map PubKey_cast (remove_dups (map device (pendingMessageCache w))).

(** [processAllPending]: [processPending] for every device of the cache;
    the promises gathered by [Promise.all] are started in list order. *)
Fixpoint processPendingEach (devices : list PubKey) : Async World (list unit) :=
  match devices with
  | [] => ret []
  | dev :: rest =>
      let* r := processPending dev false in
      let* rs := processPendingEach rest in
      ret (r :: rs)
  end.

Definition processAllPending : Async World (list unit) :=
  let* devices := (λ w, (Ok (getDevices w), w)) in
  processPendingEach devices.

(** The warning the two open group sends log in their [catch]; the trace
    keeps its text, not the value that is logged along with it. *)
Definition openGroupWarning (roomInfos : OpenGroupRequestCommonType) : Event :=
  EvLog LogWarn ("Failed to send message to open group: "
                 +:+ serverUrl roomInfos +:+ ":" +:+ roomId roomInfos +:+ ":").

(** A send that settles through the failure handler: it only adds to the
    trace, and either it resolves without having called the failure
    handler, or the call to the failure handler for [id] is the one and
    last thing it does and decides its outcome. *)
Definition settlesThroughFailureHandler (id : string) (m : Async World unit)
    (w : World) : Prop :=
  ∃ evs,
    (m w).2 = emit evs w
    ∧ (((m w).1 = Ok tt ∧ existsb isFailureHandler evs = false)
       ∨ ∃ evs0 e0,
           evs = evs0 ++ [EvSentFailure id e0]
           ∧ existsb isFailureHandler evs0 = false
           ∧ (m w).1 = handleMessageSentFailure W (trace w ++ evs0) id e0).


(** The messages a list of jobs removes from the cache, and the
    identifiers it takes out of its queue. *)
Definition removedBy (jobs : list (string * Job)) (c : OutgoingRawMessage) : bool :=
  existsb (λ j, String.eqb (identifier c) (identifier (job_message (snd j)))) jobs.

Definition settledBy (jobs : list (string * Job)) (j : string * Job) : bool :=
  existsb (λ j', String.eqb (fst j) (fst j')) jobs.

End Functions.

(** ** A concrete set of collaborators

    The account ["05us"]; blinded ids start with ["15"]; the open group
    servers answer with [serverIdAnswer]; the flags choose which of the
    conversion, the snode send and the reaction endpoint reject.  A message
    counts as a sync message when it is an [UnsendMessage] or has a sync
    target. *)
Definition exampleSender (serverIdAnswer : option Z)
    (toRawFails sendFails reactionFails : bool) : Collaborators :=
  {| getOurPubKeyFromCache := Some (mkPubKey "05us");
     getOurPubKeyStrFromCache := "05us";
     isBlinded := String.prefix "15";
     toRawMessage := λ _ pk m ns,
       if toRawFails then Throw (mkError "cannot encode")
       else Ok (mkRaw (msg_identifier m) (key pk) ns);
     isSyncMessage := λ m,
       instanceofUnsendMessage m || truthy_string (syncTarget m);
     send := λ _ _ _,
       if sendFails then Throw (mkError "network down")
       else Ok (mkSendResult [x01] 1000);
     sendToOpenGroupV2_transport := λ _ _ _ _ _,
       Ok (mkOpenGroupMessageV2 serverIdAnswer (Some 1000));
     sendToOpenGroupV2BlindedRequest_transport := λ _ _ _ _,
       Ok (mkBlindedRequestResult serverIdAnswer 1000);
     sendSogsReactionOnionV4 := λ _ _ _ _ _,
       if reactionFails then Throw (mkError "reaction refused") else Ok true;
     handleMessageSentSuccess := λ _ _ _ _, Ok tt;
     handlePublicMessageSentSuccess := λ _ _ _ _, Ok tt;
     handleMessageSentFailure := λ _ _ _, Ok tt;
     runCallback := λ _ _ _, Ok tt;
     saveToDB := λ _, Ok tt |}.

(** As [exampleSender], but both open group transports reject, with
    [rejection]. *)
Definition senderWithRoomDown (rejection : Error) : Collaborators :=
  let W := exampleSender None false false false in
  {| getOurPubKeyFromCache := getOurPubKeyFromCache W;
     getOurPubKeyStrFromCache := getOurPubKeyStrFromCache W;
     isBlinded := isBlinded W;
     toRawMessage := toRawMessage W;
     isSyncMessage := isSyncMessage W;
     send := send W;
     sendToOpenGroupV2_transport := λ _ _ _ _ _, Throw rejection;
     sendToOpenGroupV2BlindedRequest_transport := λ _ _ _ _, Throw rejection;
     sendSogsReactionOnionV4 := sendSogsReactionOnionV4 W;
     handleMessageSentSuccess := handleMessageSentSuccess W;
     handlePublicMessageSentSuccess := handlePublicMessageSentSuccess W;
     handleMessageSentFailure := handleMessageSentFailure W;
     runCallback := runCallback W;
     saveToDB := saveToDB W |}.

Definition emptyWorld : World := mkWorld [] ∅ ∅ [].

(** One message for ["05friend"] waits in the cache, with callback [7]
    registered for it. *)
Definition pendingRaw : OutgoingRawMessage := mkRaw "msg-1" "05friend" 0.

Definition worldWithPending : World :=
  mkWorld [pendingRaw] {[ "msg-1" := 7%nat ]} ∅ [].

Definition exampleRoom : OpenGroupRequestCommonType :=
  mkRoom "https://open.getsession.org" "session".

Definition plainPost : OpenGroupVisibleMessage :=
  mkOpenGroupVisibleMessage "post-1" None.

Definition reactionPost : OpenGroupVisibleMessage :=
  mkOpenGroupVisibleMessage "post-2" (Some (mkReaction 41 "+1")).

(** A message without a sync target, and one that has one. *)
Definition plainMessage : ContentMessage := mkContentMessage "msg-1" false None.
Definition syncedMessage : ContentMessage :=
  mkContentMessage "msg-2" false (Some "05friend").

End MessageQueue.

(** * Properties of LibSessionUtil *)

Module LibSessionUtilFacts.
Import LibSessionUtil.

(** ** Kinds and variants *)

(** C8: [kindToVariant] and [variantToKind] are inverse bijections between
    the four required user variants and the four wire kinds, and any other
    value given to either of them ends in [assertUnreachable]. *)
Theorem kind_variant_bijection :
  Forall (λ v, ∃ k, k ∈ userKinds
                    ∧ variantToKind (UserVariant v) = Ok k
                    ∧ kindToVariant k = Ok (UserVariant v))
         requiredUserVariants
  ∧ Forall (λ k, ∃ v, v ∈ requiredUserVariants
                      ∧ kindToVariant k = Ok (UserVariant v)
                      ∧ variantToKind (UserVariant v) = Ok k)
           userKinds
  ∧ (∀ v : ConfigWrapperUser, v ∈ requiredUserVariants)
  ∧ (∀ groupPk,
       variantToKind (MetaGroupConfig groupPk)
       = assertUnreachable
           ("variantToKind: Unsupported kind: " +:+ dquote
            +:+ variantName (MetaGroupConfig groupPk) +:+ dquote))
  ∧ (∀ tag,
       kindToVariant (KIND_OTHER tag)
       = assertUnreachable
           ("kindToVariant: Unsupported variant: " +:+ dquote
            +:+ kindName (KIND_OTHER tag) +:+ dquote)).
Proof.
  repeat split.
  - repeat constructor; eexists; (split; [|split; reflexivity]);
      unfold userKinds; set_solver.
  - repeat constructor; eexists; (split; [|split; reflexivity]);
      unfold requiredUserVariants; set_solver.
  - intros []; unfold requiredUserVariants; set_solver.
Qed.

(** ** markAsPushed *)

(** C6: for an identity that is not ours [markAsPushed] throws and calls
    nothing; for ours it calls [confirmPushed] once, with the sequence number
    and hash it was given, and then returns the answer of [needsDump] as it
    is. *)
Theorem markAsPushed_local_only (W : Collaborators) (v : ConfigWrapperUser)
    (pubkey : string) (seqno : Z) (hash : string) (tr : Trace) :
  (pubkey ≠ getOurPubKeyStrFromCache W →
     markAsPushed W v pubkey seqno hash tr
     = (Throw (mkError "FIXME, generic case is to be done"), tr))
  ∧ (pubkey = getOurPubKeyStrFromCache W →
     match generic_confirmPushed W tr v seqno hash with
     | Ok _ =>
         markAsPushed W v pubkey seqno hash tr
         = (generic_needsDump W (tr ++ [EvConfirmPushed v seqno hash]) v,
            tr ++ [EvConfirmPushed v seqno hash; EvNeedsDump v])
     | Throw e =>
         markAsPushed W v pubkey seqno hash tr
         = (Throw e, tr ++ [EvConfirmPushed v seqno hash])
     end).
Proof.
  unfold markAsPushed, perform, bind, throw. split.
  - intros Hne. apply String.eqb_neq in Hne. now rewrite Hne.
  - intros ->. rewrite String.eqb_refl. cbn.
    destruct (generic_confirmPushed W tr v seqno hash); [|reflexivity].
    now rewrite <- app_assoc.
Qed.

Lemma markAsPushed_local_only_witness :
  markAsPushed (exampleWorker [] [] (λ _, false) (λ _, false))
               ContactsConfig "05them" 7 "hash9" []
  = (Throw (mkError "FIXME, generic case is to be done"), [])
  ∧ markAsPushed (exampleWorker [] [] (λ _, false) (λ _, false))
                 ContactsConfig "05us" 7 "hash9" []
    = (Ok true, [EvConfirmPushed ContactsConfig 7 "hash9"; EvNeedsDump ContactsConfig]).
Proof.
  split.
  - apply (markAsPushed_local_only
             (exampleWorker [] [] (λ _, false) (λ _, false))
             ContactsConfig "05them" 7 "hash9" []).
    discriminate.
  - apply (markAsPushed_local_only
             (exampleWorker [] [] (λ _, false) (λ _, false))
             ContactsConfig "05us" 7 "hash9" []).
    reflexivity.
Defined.

(** ** pendingChangesForPubkey *)

Section PendingChanges.
Context (W : Collaborators).

Lemma variantToKind_user v :
  ∃ kind, variantToKind (UserVariant v) = Ok kind
          ∧ kindToVariant kind = Ok (UserVariant v).
Proof. destruct v; eexists; split; reflexivity. Qed.

Lemma carries_resultsFor r vp v :
  carries r vp →
  match kindToVariant (msg_kind (message r)) with
  | Ok variant => bool_decide (variant = UserVariant v)
  | Throw _ => false
  end = bool_decide (fst vp = v).
Proof.
  intros (Hkind & _).
  destruct (variantToKind_user (fst vp)) as (kind & Hk & Hback).
  rewrite Hk in Hkind. injection Hkind as <-. rewrite Hback.
  apply bool_decide_ext. naive_solver.
Qed.

(** The results for [v] are the ones made from the pushes of [v]. *)
Lemma resultsFor_pushed v results ps :
  Forall2 carries results ps →
  Forall2 carries (resultsFor v results)
          (List.filter (λ vp, bool_decide (fst vp = v)) ps).
Proof.
  induction 1 as [|r vp results ps Hc _ IH]; [constructor|].
  unfold resultsFor in *. cbn. rewrite (carries_resultsFor r vp v Hc).
  destruct (bool_decide (fst vp = v)); [by constructor|done].
Qed.

Lemma userVariantsOf_cons dump rest :
  userVariantsOf (dump :: rest)
  = match isUserConfigWrapperType (meta_variant dump) with
    | Some v => v :: userVariantsOf rest
    | None => userVariantsOf rest
    end.
Proof. reflexivity. Qed.

(** The loop, when it completes: it queries the user variants of the rows
    in order, pushes exactly the ones reported dirty, and appends one result
    per push. *)
Lemma collectPendingChanges_spec dumps :
  ∀ results vs tr results' vs' tr',
    collectPendingChanges W dumps results vs tr = (Ok (results', vs'), tr') →
    ∃ evs new,
      tr' = tr ++ evs
      ∧ results' = results ++ new
      ∧ queried evs = userVariantsOf dumps
      ∧ map fst (pushed evs) = reportedDirty evs
      ∧ Forall2 carries new (pushed evs).
Proof.
  induction dumps as [|dump rest IH]; intros results vs tr results' vs' tr'.
  - intros [= <- <- <-]. exists [], []. rewrite !app_nil_r. by repeat split.
  - cbn [collectPendingChanges]. rewrite userVariantsOf_cons.
    destruct (isUserConfigWrapperType (meta_variant dump)) as [v|].
    + cbv beta delta [bind perform liftR]. cbn zeta.
      destruct (generic_needsPush W tr v) as [[|]|e] eqn:Edirty; cbn [negb];
        [| |discriminate].
      * destruct (generic_push W _ v) as [p|e] eqn:Epush; [|discriminate].
        destruct (variantToKind_user v) as (kind & Hkind & _). rewrite Hkind.
        destruct (generic_storageNamespace W _ v) as [ns|e]; [|discriminate].
        intros (evs & new & -> & -> & Hq & Hp & Hc)%IH.
        eexists (_ :: _ :: _ :: evs), (_ :: new).
        split; [by rewrite <- !app_assoc|]. split; [by rewrite <- app_assoc|].
        unfold queried, reportedDirty, pushed in *.
        cbn. rewrite Hq, Hp. repeat split; try done.
        constructor; [|done]. by repeat split.
      * intros (evs & new & -> & -> & Hq & Hp & Hc)%IH.
        exists (EvNeedsPush v (Ok false) :: evs), new.
        split; [by rewrite <- !app_assoc|].
        unfold queried, reportedDirty, pushed in *. cbn. by rewrite Hq, Hp.
    + cbv beta delta [bind log]. cbn zeta.
      intros (evs & new & -> & -> & Hq & Hp & Hc)%IH.
      exists (EvLog LogInfo "// TODO Audric" :: evs), new.
      split; [by rewrite <- !app_assoc|]. done.
Qed.

Lemma addPlaceholder_keeps us dumps v v' :
  v' ∈ userVariantsOf dumps → v' ∈ userVariantsOf (addPlaceholder us dumps v).
Proof.
  unfold addPlaceholder. case_match; [done|].
  unfold userVariantsOf. rewrite omap_app. set_solver.
Qed.

Lemma addPlaceholder_adds us dumps v :
  v ∈ userVariantsOf (addPlaceholder us dumps v).
Proof.
  unfold addPlaceholder. case_match eqn:E.
  - apply existsb_exists in E as (m & Hin & [_ Hv%bool_decide_eq_true]%andb_true_iff).
    unfold userVariantsOf. apply list_elem_of_omap. exists m.
    rewrite Hv. split; [by apply list_elem_of_In|done].
  - unfold userVariantsOf. rewrite omap_app. cbn. set_solver.
Qed.

(** For our own public key every required variant ends up among the rows
    that are examined. *)
Lemma withPlaceholders_all us dumps (v : ConfigWrapperUser) :
  v ∈ userVariantsOf (withPlaceholders us us dumps).
Proof.
  unfold withPlaceholders. rewrite String.eqb_refl. cbn [fold_left requiredUserVariants].
  destruct v; repeat first [apply addPlaceholder_adds | apply addPlaceholder_keeps].
Qed.

Lemma reportedDirty_le_queried v evs :
  (occurrences v (reportedDirty evs) ≤ occurrences v (queried evs))%nat.
Proof.
  unfold occurrences, reportedDirty, queried.
  induction evs as [|ev evs IH]; [done|].
  destruct ev as [| | | | | | | | |v' [[|]|]| | | |]; cbn; try done;
    destruct (bool_decide (v' = v)); cbn; lia.
Qed.

Lemma occurrences_pos v l : v ∈ l → (1 ≤ occurrences v l)%nat.
Proof.
  unfold occurrences. induction 1 as [v l|v v' l _ IH]; cbn.
  - rewrite bool_decide_eq_true_2 by done. cbn. lia.
  - destruct (bool_decide (v' = v)); cbn; lia.
Qed.

Lemma occurrences_map_fst v (ps : list (ConfigWrapperUser * PushResult)) :
  length (List.filter (λ vp, bool_decide (fst vp = v)) ps)
  = occurrences v (map fst ps).
Proof.
  unfold occurrences. induction ps as [|vp ps IH]; [done|]. cbn.
  destruct (bool_decide (fst vp = v)); cbn; by rewrite IH.
Qed.

(** When [pendingChangesForPubkey] returns, it has queried the user
    variant of every examined row in order (the stored rows, then for our
    own key the placeholders of the required variants that have no row of
    ours), and its result holds one [OutgoingConfResult] per query answered
    dirty, in order, with the kind of the variant and the data, sequence
    number and hashes the push returned. *)
Lemma pendingChangesForPubkey_done (pubkey : string) (tr : Trace)
    (results : list OutgoingConfResult) (tr' : Trace) :
  pendingChangesForPubkey W pubkey tr = (Ok results, tr') →
  ∃ dumps evs,
    getAllDumpsWithoutData W tr = Ok dumps
    ∧ tr' = tr ++ evs
    ∧ queried evs
      = userVariantsOf (withPlaceholders pubkey (getOurPubKeyStrFromCache W) dumps)
    ∧ map fst (pushed evs) = reportedDirty evs
    ∧ Forall2 carries results (pushed evs)
    ∧ (pubkey = getOurPubKeyStrFromCache W → ∀ v, v ∈ queried evs)
    ∧ (∀ v, occurrences v (queried evs) = 1%nat →
            v ∈ reportedDirty evs →
            ∃ r p, resultsFor v results = [r]
                   ∧ List.filter (λ vp, bool_decide (fst vp = v)) (pushed evs)
                     = [(v, p)]
                   ∧ carries r (v, p))
    ∧ (∀ v, v ∉ reportedDirty evs → resultsFor v results = []).
Proof.
  unfold pendingChangesForPubkey.
  cbv beta delta [bind perform log ret]. cbn zeta.
  destruct (getAllDumpsWithoutData W tr) as [dumps|e] eqn:Edumps; [|discriminate].
  match goal with |- context [collectPendingChanges W ?d [] [] ?t] =>
    pose proof (collectPendingChanges_spec d [] [] t) as Hloop;
    destruct (collectPendingChanges W d [] [] t) as [[[results0 vs]|e] tr1];
    [|discriminate]
  end.
  destruct (Hloop _ _ _ eq_refl) as (evs & new & -> & -> & Hq & Hp & Hc).
  intros [= <- <-]. cbn [app] in Hc.
  set (final := EvLog LogInfo ("those variants needs push: " +:+ dquote
                               +:+ joinVariants vs +:+ dquote)).
  exists dumps, (EvGetAllDumpsWithoutData :: evs ++ [final]).
  assert (Hq' : queried (EvGetAllDumpsWithoutData :: evs ++ [final]) = queried evs).
  { unfold queried. cbn. rewrite omap_app. cbn. by rewrite app_nil_r. }
  assert (Hd' : reportedDirty (EvGetAllDumpsWithoutData :: evs ++ [final])
                = reportedDirty evs).
  { unfold reportedDirty. cbn. rewrite omap_app. cbn. by rewrite app_nil_r. }
  assert (Hp' : pushed (EvGetAllDumpsWithoutData :: evs ++ [final]) = pushed evs).
  { unfold pushed. cbn. rewrite omap_app. cbn. by rewrite app_nil_r. }
  rewrite Hq', Hd', Hp'.
  split; [done|]. split; [by rewrite <- !app_assoc|].
  split; [done|]. split; [done|]. split; [done|]. split; [|split].
  - intros -> v. rewrite Hq. apply withPlaceholders_all.
  - intros v Hone Hdirty.
    pose proof (reportedDirty_le_queried v evs) as Hle.
    pose proof (occurrences_pos v _ Hdirty) as Hpos.
    pose proof (resultsFor_pushed v _ _ Hc) as Hfor.
    pose proof (occurrences_map_fst v (pushed evs)) as Hlen.
    rewrite Hp in Hlen.
    destruct (List.filter (λ vp, bool_decide (fst vp = v)) (pushed evs))
      as [|[v' p] [|vp2 ps]] eqn:Efilter; cbn in Hlen; try lia.
    assert (Hin : In (v', p) (List.filter (λ vp, bool_decide (fst vp = v)) (pushed evs))).
    { rewrite Efilter. by left. }
    apply filter_In in Hin as [Hin Hv%bool_decide_eq_true]. cbn in Hv. subst v'.
    inversion Hfor as [|r ? rs ? Hr Hrs Er]; subst. inversion Hrs; subst.
    exists r, p. done.
  - intros v Hclean.
    pose proof (resultsFor_pushed v _ _ Hc) as Hfor.
    assert (Hnone : List.filter (λ vp, bool_decide (fst vp = v)) (pushed evs) = []).
    { apply elem_of_nil_inv. intros [v' p] Hin.
      apply list_elem_of_In, filter_In in Hin as [Hin Hv%bool_decide_eq_true].
      cbn in Hv. subst v'. apply Hclean. rewrite <- Hp.
      apply list_elem_of_fmap. exists (v, p). split; [done|]. by apply list_elem_of_In. }
    rewrite Hnone in Hfor. by inversion Hfor.
Qed.

End PendingChanges.

(** With one stored row, for [ContactsConfig], all four required variants
    are examined and each dirty one gets its single result. *)
Example pendingChanges_first_run :
  (pendingChangesForPubkey workerWithOneDump "05us" []).1
  = Ok [ exampleResult CONTACTS; exampleResult USER_PROFILE;
         exampleResult USER_GROUPS; exampleResult CONVO_INFO_VOLATILE ].
Proof. vm_compute. reflexivity. Qed.

(** A table that breaks the invariant: with [UserConfig] stored under a
    second public key the variant is examined twice, reported dirty twice,
    and the result holds two entries for it. *)
Example foreign_user_row_is_pushed_again :
  getAllDumpsWithoutData workerWithTwoAccounts []
  = Ok [ mkDumpMeta (UserVariant UserConfig) "05old";
         mkDumpMeta (UserVariant UserConfig) "05us" ]
  ∧ (pendingChangesForPubkey workerWithTwoAccounts "05us" []).1
    = Ok [ exampleResult USER_PROFILE; exampleResult USER_PROFILE;
           exampleResult CONTACTS; exampleResult USER_GROUPS;
           exampleResult CONVO_INFO_VOLATILE ]
  ∧ resultsFor UserConfig
      (okOr [] (pendingChangesForPubkey workerWithTwoAccounts "05us" []).1)
    = [ exampleResult USER_PROFILE; exampleResult USER_PROFILE ]
  ∧ reportedDirty (pendingChangesForPubkey workerWithTwoAccounts "05us" []).2
    = [ UserConfig; UserConfig; ContactsConfig; UserGroupsConfig;
        ConvoInfoVolatileConfig ].
Proof. repeat split; vm_compute; reflexivity. Qed.

(** ** What a successful initialization has done *)

Section InitializationDone.
Context (W : Collaborators).

Lemma initialised_app evs1 evs2 :
  initialised (evs1 ++ evs2) = initialised evs1 ++ initialised evs2.
Proof. apply omap_app. Qed.

Lemma savedRows_app evs1 evs2 :
  savedRows (evs1 ++ evs2) = savedRows evs1 ++ savedRows evs2.
Proof. apply omap_app. Qed.

Lemma dumpUserVariants_cons dump rest :
  dumpUserVariants (dump :: rest)
  = match isUserConfigWrapperType (variant dump) with
    | Some v => v :: dumpUserVariants rest
    | None => dumpUserVariants rest
    end.
Proof. reflexivity. Qed.

Lemma set_add_elem v v' s : v' ∈ set_add v s ↔ v' = v ∨ v' ∈ s.
Proof. unfold set_add. case_decide; set_solver. Qed.

(** The first loop, when it completes: every user dump was loaded, in row
    order, nothing was saved, and the set it returns holds the variants it
    started with and the ones that have a dump. *)
Lemma loadUserDumps_done priv dumps : ∀ built tr built' tr',
  loadUserDumps W priv dumps built tr = (Ok built', tr') →
  ∃ evs,
    tr' = tr ++ evs
    ∧ initialised evs = dumpUserVariants dumps
    ∧ savedRows evs = []
    ∧ (∀ v, v ∈ built' ↔ v ∈ built ∨ v ∈ dumpUserVariants dumps).
Proof.
  induction dumps as [|dump rest IH]; intros built tr built' tr'.
  - intros [= <- <-]. exists []. rewrite app_nil_r. set_solver.
  - cbn [loadUserDumps]. rewrite dumpUserVariants_cons.
    destruct (isUserConfigWrapperType (variant dump)) as [v|]; [|apply IH].
    cbv beta iota zeta delta [bind try_catch perform log throw ret liftR].
    match goal with |- context [generic_init W ?t v priv ?d] =>
      destruct (generic_init W t v priv d) as [[]|e];
        [|by destruct (messageOf e)]
    end.
    intros (evs & -> & Hinit & Hsaved & Hbuilt)%IH.
    eexists (_ :: _ :: evs). split; [by rewrite <- !app_assoc|].
    unfold initialised, savedRows in *. cbn. rewrite Hinit, Hsaved.
    split; [done|]. split; [done|].
    intros v'. rewrite Hbuilt, set_add_elem. set_solver.
Qed.

(** The second loop, when it completes: every missing variant was created
    without a dump, in order, and one row was saved for each under our
    public key. *)
Lemma createMissingVariants_done priv missing : ∀ tr tr',
  createMissingVariants W priv missing tr = (Ok tt, tr') →
  ∃ evs,
    tr' = tr ++ evs
    ∧ initialised evs = missing
    ∧ variant <$> savedRows evs = UserVariant <$> missing
    ∧ Forall (λ row, publicKey row = getOurPubKeyStrFromCache W) (savedRows evs).
Proof.
  induction missing as [|v rest IH]; intros tr tr'.
  - intros [= <-]. exists []. by rewrite app_nil_r.
  - cbn [createMissingVariants].
    cbv beta iota zeta delta [bind perform log ret].
    match goal with |- context [generic_init W ?t v priv None] =>
      destruct (generic_init W t v priv None) as [[]|e]; [|discriminate]
    end.
    match goal with |- context [generic_dump W ?t v] =>
      destruct (generic_dump W t v) as [dump|e]; [|discriminate]
    end.
    match goal with |- context [saveConfigDump W ?t ?row] =>
      destruct (saveConfigDump W t row) as [[]|e]; [|discriminate]
    end.
    intros (evs & -> & Hinit & Hsaved & Hus)%IH.
    eexists (_ :: _ :: _ :: _ :: _ :: evs). split; [by rewrite <- !app_assoc|].
    unfold initialised, savedRows in *. cbn. rewrite Hinit, Hsaved.
    split; [done|]. split; [done|]. by constructor.
Qed.

(** The third loop neither loads a user wrapper nor saves a row. *)
Lemma loadGroupDumps_user_free priv dumps : ∀ tr,
  ∃ evs,
    (loadGroupDumps W priv dumps tr).2 = tr ++ evs
    ∧ initialised evs = []
    ∧ savedRows evs = [].
Proof.
  induction dumps as [|dump rest IH]; intros tr.
  - exists []. by rewrite app_nil_r.
  - cbn [loadGroupDumps].
    destruct (getGroupPubkeyFromWrapperType (variant dump)) as [groupPk|]; [|apply IH].
    unfold bind at 1.
    match goal with |- context [try_catch ?b ?h tr] =>
      assert (∃ evs, (try_catch b h tr).2 = tr ++ evs
                     ∧ initialised evs = [] ∧ savedRows evs = [])
        as (evs & Htr & Hinit & Hsaved)
    end.
    { cbv beta iota zeta delta [bind try_catch perform log liftR].
      destruct (userGroups_getGroup W tr groupPk) as [found|e]; cbn.
      - destruct (toFixedUint8ArrayOfLength W _ 32) as [pk32|e]; cbn.
        + destruct (toFixedUint8ArrayOfLength W priv 64) as [sk64|e]; cbn.
          * match goal with |- context [metaGroup_init W ?t ?g ?a] =>
              destruct (metaGroup_init W t g a) as [[]|e] end; cbn;
              try destruct (messageOf e); cbn;
              (eexists; split; [by rewrite <- ?app_assoc|]; done).
          * destruct (messageOf e); cbn;
              (eexists; split; [by rewrite <- ?app_assoc|]; done).
        + destruct (messageOf e); cbn;
            (eexists; split; [by rewrite <- ?app_assoc|]; done).
      - destruct (messageOf e); cbn;
          (eexists; split; [by rewrite <- ?app_assoc|]; done). }
    destruct (try_catch _ _ tr) as [[[]|typeError] tr1]; cbn [snd] in Htr; subst tr1.
    + destruct (IH (tr ++ evs)) as (evs' & -> & Hinit' & Hsaved').
      exists (evs ++ evs'). rewrite app_assoc, initialised_app, savedRows_app.
      by rewrite Hinit, Hinit', Hsaved, Hsaved'.
    + by exists evs.
Qed.

Lemma list_difference_ext (l k1 k2 : list ConfigWrapperUser) :
  (∀ v, v ∈ k1 ↔ v ∈ k2) → list_difference l k1 = list_difference l k2.
Proof.
  intros Hk. induction l as [|v l IH]; [done|]. cbn.
  rewrite IH. repeat case_decide; naive_solver.
Qed.

(** A successful run has loaded the user dumps in row order, then created
    the required variants that have no dump, and has saved a row for each of
    these and for nothing else. *)
Lemma initialize_done (tr tr' : Trace) :
  initializeLibSessionUtilWrappers W tr = (Ok tt, tr') →
  ∃ dumps evs,
    getAllDumpsWithData W (tr ++ [EvGetKeyPair]) = Ok dumps
    ∧ tr' = tr ++ evs
    ∧ initialised evs
      = dumpUserVariants dumps
        ++ list_difference requiredUserVariants (dumpUserVariants dumps)
    ∧ variant <$> savedRows evs
      = UserVariant <$> list_difference requiredUserVariants (dumpUserVariants dumps)
    ∧ Forall (λ row, publicKey row = getOurPubKeyStrFromCache W) (savedRows evs).
Proof.
  unfold initializeLibSessionUtilWrappers.
  cbv beta iota zeta delta [bind perform log throw].
  destruct (getUserED25519KeyPairBytes W tr) as [keypair|e]; [|discriminate].
  destruct (privKeyOf keypair) as [priv|]; [|discriminate].
  destruct (getAllDumpsWithData W (tr ++ [EvGetKeyPair])) as [dumps|e]; [|discriminate].
  match goal with |- context [loadUserDumps W priv dumps [] ?t] =>
    pose proof (loadUserDumps_done priv dumps [] t) as H1;
    destruct (loadUserDumps W priv dumps [] t) as [[built|e] tr1]; [|discriminate]
  end.
  destruct (H1 _ _ eq_refl) as (evs1 & -> & Hinit1 & Hsaved1 & Hbuilt). clear H1.
  match goal with |- context [createMissingVariants W priv ?m ?t] =>
    pose proof (createMissingVariants_done priv m t) as H2;
    destruct (createMissingVariants W priv m t) as [[[]|e] tr2]; [|discriminate]
  end.
  destruct (H2 _ eq_refl) as (evs2 & -> & Hinit2 & Hsaved2 & Hus2). clear H2.
  match goal with |- context [getUserED25519KeyPairBytes W ?t] =>
    destruct (getUserED25519KeyPairBytes W t) as [keypair2|e]; [|discriminate]
  end.
  destruct (privKeyOf keypair2) as [priv2|]; [|discriminate].
  match goal with |- context [loadGroupDumps W priv2 dumps ?t] =>
    destruct (loadGroupDumps_user_free priv2 dumps t) as (evs3 & H3 & Hinit3 & Hsaved3);
    destruct (loadGroupDumps W priv2 dumps t) as [r3 tr3]
  end.
  cbn in H3. subst tr3. intros [= -> <-].
  assert (Hdiff : list_difference requiredUserVariants built
                  = list_difference requiredUserVariants (dumpUserVariants dumps)).
  { apply list_difference_ext. intros v. rewrite Hbuilt. set_solver. }
  rewrite Hdiff in *.
  exists dumps. eexists. split; [done|]. split; [by rewrite <- !app_assoc|].
  cbn [app].
  change (initialised (EvGetKeyPair :: EvGetAllDumpsWithData :: ?l))
    with (initialised l).
  change (savedRows (EvGetKeyPair :: EvGetAllDumpsWithData :: ?l))
    with (savedRows l).
  change (initialised (EvLog ?a ?b :: ?l)) with (initialised l).
  change (savedRows (EvLog ?a ?b :: ?l)) with (savedRows l).
  rewrite !initialised_app, !savedRows_app.
  change (initialised (EvGetKeyPair :: ?l)) with (initialised l).
  change (savedRows (EvGetKeyPair :: ?l)) with (savedRows l).
  rewrite Hinit1, Hinit2, Hinit3, Hsaved1, Hsaved3, !app_nil_r. cbn [app].
  by rewrite Hsaved2.
Qed.

(** X1: when [initializeLibSessionUtilWrappers] succeeds, each of the
    four required user wrappers has been initialised, from its dump or
    fresh. *)
Theorem initialize_leaves_every_required_variant (tr tr' : Trace) :
  initializeLibSessionUtilWrappers W tr = (Ok tt, tr') →
  ∃ evs, tr' = tr ++ evs ∧ ∀ v : ConfigWrapperUser, v ∈ initialised evs.
Proof.
  intros (dumps & evs & _ & -> & Hinit & _)%initialize_done.
  exists evs. split; [done|]. intros v. rewrite Hinit.
  apply elem_of_app.
  destruct (decide (v ∈ dumpUserVariants dumps)) as [Hin|Hout]; [by left|].
  right. apply list_elem_of_difference. split; [|done].
  destruct v; unfold requiredUserVariants; set_solver.
Qed.

(** X2: when [initializeLibSessionUtilWrappers] succeeds, it has saved a
    dump row for exactly the required variants that had no dump, in the order
    of [requiredUserVariants], each under our own public key; variants that
    had a dump are not saved again. *)
Theorem initialize_saves_missing_variants_only (tr tr' : Trace) :
  initializeLibSessionUtilWrappers W tr = (Ok tt, tr') →
  ∃ dumps evs,
    getAllDumpsWithData W (tr ++ [EvGetKeyPair]) = Ok dumps
    ∧ tr' = tr ++ evs
    ∧ variant <$> savedRows evs
      = UserVariant <$> list_difference requiredUserVariants (dumpUserVariants dumps)
    ∧ Forall (λ row, publicKey row = getOurPubKeyStrFromCache W) (savedRows evs)
    ∧ ((∀ v, v ∈ dumpUserVariants dumps) → savedRows evs = []).
Proof.
  intros (dumps & evs & Hdumps & -> & _ & Hsaved & Hus)%initialize_done.
  exists dumps, evs. repeat split; try done.
  intros Hall.
  assert (Hnone : list_difference requiredUserVariants (dumpUserVariants dumps) = []).
  { apply elem_of_nil_inv. intros v [_ Hout]%list_elem_of_difference.
    by apply Hout. }
  rewrite Hnone in Hsaved. by apply fmap_nil_inv in Hsaved.
Qed.

End InitializationDone.

Lemma initialize_leaves_every_required_variant_witness :
  Forall (λ v, v ∈ initialised (initializeLibSessionUtilWrappers workerWithTwoDumps []).2)
         requiredUserVariants.
Proof.
  destruct (initialize_leaves_every_required_variant workerWithTwoDumps []
              (initializeLibSessionUtilWrappers workerWithTwoDumps []).2)
    as (evs & Heq & Hall).
  - vm_compute. reflexivity.
  - cbn [app] in Heq. subst evs. apply Forall_forall. intros v _. apply Hall.
Defined.

Lemma initialize_saves_missing_variants_only_witness :
  variant <$> savedRows (initializeLibSessionUtilWrappers workerWithTwoDumps []).2
  = [UserVariant UserGroupsConfig; UserVariant ConvoInfoVolatileConfig].
Proof.
  destruct (initialize_saves_missing_variants_only workerWithTwoDumps []
              (initializeLibSessionUtilWrappers workerWithTwoDumps []).2)
    as (dumps & evs & Hdumps & Heq & Hsaved & _).
  - vm_compute. reflexivity.
  - cbn [app] in Heq. subst evs. injection Hdumps as <-. exact Hsaved.
Defined.

(** ** initializeLibSessionUtilWrappers *)

Section Initialization.
Context (W : Collaborators).



Lemma no_group_event_none_attempted evs :
  existsb isGroupEvent evs = false → groupsAttempted evs = [].
Proof.
  induction evs as [|ev evs IH]; [done|]. intros H. cbn in H.
  apply orb_false_iff in H as [Hev Hevs].
  destruct ev; try discriminate Hev; exact (IH Hevs).
Qed.



(** ** What follows each event of a trace *)








End Initialization.


(** A run in which the init of group ["03aa"] is rejected: the operation
    succeeds all the same and group ["03bb"] is loaded after it. *)
Example initialize_with_bad_group :
  (initializeLibSessionUtilWrappers workerWithBadGroup []).1 = Ok tt
  ∧ existsb isFailedGroupLoad
      (initializeLibSessionUtilWrappers workerWithBadGroup []).2 = true
  ∧ groupsAttempted (initializeLibSessionUtilWrappers workerWithBadGroup []).2
    = ["03aa"; "03bb"].
Proof. vm_compute. done. Qed.

(** A run in which the init of group ["03aa"] rejects with [undefined]:
    the [catch] of the group loop throws while it reads the message, the
    operation rejects with that [TypeError], and group ["03bb"] is not
    loaded. *)
Example undefined_group_rejection_is_not_isolated :
  (initializeLibSessionUtilWrappers workerWithUndefinedRejection []).1
  = Throw (cannotReadMessage "undefined")
  ∧ groupsAttempted (initializeLibSessionUtilWrappers workerWithUndefinedRejection []).2
    = ["03aa"].
Proof. vm_compute. done. Qed.


(** ** More on pendingChangesForPubkey *)

Section PendingChangesMore.
Context (W : Collaborators).

Lemma hasRowOf_app us dumps1 dumps2 v :
  hasRowOf us (dumps1 ++ dumps2) v = hasRowOf us dumps1 v || hasRowOf us dumps2 v.
Proof. apply existsb_app. Qed.

Lemma hasRowOf_placeholder us v1 v2 :
  v1 ≠ v2 → hasRowOf us [mkDumpMeta (UserVariant v1) us] v2 = false.
Proof.
  intros Hne. unfold hasRowOf. cbn. rewrite String.eqb_refl, orb_false_r. cbn.
  apply bool_decide_eq_false_2. naive_solver.
Qed.

Lemma addPlaceholder_hasRowOf us dumps v :
  addPlaceholder us dumps v
  = if hasRowOf us dumps v then dumps
    else dumps ++ [mkDumpMeta (UserVariant v) us].
Proof. reflexivity. Qed.

(** X3: for our own key, the rows [pendingChangesForPubkey] examines are
    the stored rows, unchanged and in place, followed by one placeholder
    under our key for each required variant that has no row of ours, in the
    order of [requiredUserVariants]; for any other key they are the stored
    rows alone.  Adding placeholders twice adds nothing more. *)
Theorem withPlaceholders_appends_missing (us : string)
    (dumps : list ConfigDumpRowWithoutData) :
  withPlaceholders us us dumps
  = dumps ++ ((λ v, mkDumpMeta (UserVariant v) us)
              <$> List.filter (λ v, negb (hasRowOf us dumps v)) requiredUserVariants)
  ∧ (∀ pubkey, pubkey ≠ us → withPlaceholders pubkey us dumps = dumps)
  ∧ withPlaceholders us us (withPlaceholders us us dumps)
    = withPlaceholders us us dumps.
Proof.
  assert (Hform : ∀ dumps,
    withPlaceholders us us dumps
    = dumps ++ ((λ v, mkDumpMeta (UserVariant v) us)
                <$> List.filter (λ v, negb (hasRowOf us dumps v)) requiredUserVariants)).
  { clear dumps. intros dumps. unfold withPlaceholders. rewrite String.eqb_refl.
    cbn [fold_left requiredUserVariants List.filter].
    rewrite !addPlaceholder_hasRowOf.
    destruct (hasRowOf us dumps UserConfig) eqn:H1;
      destruct (hasRowOf us dumps ContactsConfig) eqn:H2;
      destruct (hasRowOf us dumps UserGroupsConfig) eqn:H3;
      destruct (hasRowOf us dumps ConvoInfoVolatileConfig) eqn:H4;
      repeat (rewrite ?hasRowOf_app, ?H1, ?H2, ?H3, ?H4;
              rewrite ?hasRowOf_placeholder by discriminate;
              cbn -[hasRowOf]);
      by rewrite <- ?app_assoc, ?app_nil_r. }
  split; [apply Hform|]. split.
  - intros pubkey Hne. unfold withPlaceholders.
    apply String.eqb_neq in Hne. by rewrite Hne.
  - rewrite (Hform (withPlaceholders us us dumps)).
    assert (Hall : ∀ v, hasRowOf us (withPlaceholders us us dumps) v = true).
    { intros v. rewrite Hform, hasRowOf_app.
      destruct (hasRowOf us dumps v) eqn:Hv; [done|]. cbn [orb].
      unfold hasRowOf at 1. apply existsb_exists.
      exists (mkDumpMeta (UserVariant v) us). split.
      - apply list_elem_of_In, list_elem_of_fmap. exists v. split; [done|].
        apply list_elem_of_In, filter_In. split; [|by rewrite Hv].
        unfold requiredUserVariants. destruct v; cbn; tauto.
      - cbn. rewrite String.eqb_refl. by rewrite bool_decide_eq_true_2. }
    cbn [requiredUserVariants List.filter]. rewrite !Hall. cbn.
    by rewrite app_nil_r.
Qed.

(** The loop stops at the first wrapper call that rejects, with the error
    of that call. *)
Lemma collectPendingChanges_rejects dumps : ∀ results vs tr,
  ∃ evs,
    (collectPendingChanges W dumps results vs tr).2 = tr ++ evs
    ∧ ∀ ev e, ev ∈ evs → thrownBy ev = Some e →
              (collectPendingChanges W dumps results vs tr).1 = Throw e.
Proof.
  induction dumps as [|dump rest IH]; intros results vs tr.
  - exists []. split; [by rewrite app_nil_r|]. by intros ?? ?%elem_of_nil.
  - cbn [collectPendingChanges].
    destruct (isUserConfigWrapperType (meta_variant dump)) as [v|].
    + cbv beta iota zeta delta [bind perform liftR].
      destruct (generic_needsPush W tr v) as [[|]|e] eqn:Edirty; cbn [negb].
      * destruct (generic_push W _ v) as [p|e] eqn:Epush.
        -- destruct (variantToKind_user v) as (kind & Hkind & _). rewrite Hkind.
           destruct (generic_storageNamespace W _ v) as [ns|e].
           ++ match goal with |- context [collectPendingChanges W rest ?r ?s ?t] =>
                destruct (IH r s t) as (evs & Htr & Hthrown)
              end.
              eexists (_ :: _ :: _ :: evs). split; [by rewrite Htr, <- !app_assoc|].
              intros ev e Hin Hev. repeat apply elem_of_cons in Hin as [->|Hin];
                try discriminate. by eapply Hthrown.
           ++ eexists [_; _; _]. split; [by rewrite <- !app_assoc|].
              intros ev e' Hin Hev. repeat apply elem_of_cons in Hin as [->|Hin];
                try discriminate. by apply elem_of_nil in Hin.
        -- eexists [_; _]. split; [by rewrite <- !app_assoc|].
           intros ev e' Hin Hev. repeat apply elem_of_cons in Hin as [->|Hin];
             try discriminate; [|by apply elem_of_nil in Hin].
           cbn in Hev. by injection Hev as <-.
      * match goal with |- context [collectPendingChanges W rest ?r ?s ?t] =>
          destruct (IH r s t) as (evs & Htr & Hthrown)
        end.
        eexists (_ :: evs). split; [by rewrite Htr, <- !app_assoc|].
        intros ev e Hin Hev. apply elem_of_cons in Hin as [->|Hin];
          [discriminate|]. by eapply Hthrown.
      * eexists [_]. split; [done|].
        intros ev e' Hin Hev. apply elem_of_cons in Hin as [->|Hin];
          [|by apply elem_of_nil in Hin].
        cbn in Hev. by injection Hev as <-.
    + cbv beta iota zeta delta [bind log].
      match goal with |- context [collectPendingChanges W rest ?r ?s ?t] =>
        destruct (IH r s t) as (evs & Htr & Hthrown)
      end.
      eexists (_ :: evs). split; [by rewrite Htr, <- !app_assoc|].
      intros ev e Hin Hev. apply elem_of_cons in Hin as [->|Hin];
        [discriminate|]. by eapply Hthrown.
Qed.

(** X4: [pendingChangesForPubkey] has no partial result: as soon as a
    [needsPush] or a [push] of some wrapper rejects, the whole call rejects
    with that error, whatever was collected before. *)
Theorem pendingChanges_rejects_with_wrapper (pubkey : string) (tr : Trace) :
  ∃ evs,
    (pendingChangesForPubkey W pubkey tr).2 = tr ++ evs
    ∧ ∀ ev e, ev ∈ evs → thrownBy ev = Some e →
              (pendingChangesForPubkey W pubkey tr).1 = Throw e.
Proof.
  unfold pendingChangesForPubkey.
  cbv beta iota zeta delta [bind perform log ret].
  destruct (getAllDumpsWithoutData W tr) as [dumps|e0].
  2: { eexists [_]. split; [done|]. intros ev e Hin Hev.
       apply elem_of_cons in Hin as [->|Hin]; [discriminate|].
       by apply elem_of_nil in Hin. }
  match goal with |- context [collectPendingChanges W ?d [] [] ?t] =>
    destruct (collectPendingChanges_rejects d [] [] t) as (evs & Htr & Hthrown);
    destruct (collectPendingChanges W d [] [] t) as [[[results vs]|e1] tr1]
  end; cbn in Htr, Hthrown; subst tr1.
  - eexists (_ :: evs ++ [_]). split; [by rewrite <- !app_assoc|].
    intros ev e Hin Hev. apply elem_of_cons in Hin as [->|Hin]; [discriminate|].
    apply elem_of_app in Hin as [Hin|Hin]; [by specialize (Hthrown _ _ Hin Hev)|].
    apply elem_of_cons in Hin as [->|Hin]; [discriminate|].
    by apply elem_of_nil in Hin.
  - eexists (_ :: evs). split; [by rewrite <- !app_assoc|].
    intros ev e Hin Hev. apply elem_of_cons in Hin as [->|Hin]; [discriminate|].
    cbn. by injection (Hthrown ev e Hin Hev) as ->.
Qed.

End PendingChangesMore.

Lemma withPlaceholders_appends_missing_witness :
  withPlaceholders "05them" "05us" [mkDumpMeta (UserVariant ContactsConfig) "05us"]
  = [mkDumpMeta (UserVariant ContactsConfig) "05us"].
Proof.
  destruct (withPlaceholders_appends_missing "05us"
              [mkDumpMeta (UserVariant ContactsConfig) "05us"]) as (_ & H & _).
  apply H. discriminate.
Defined.

Lemma pendingChanges_rejects_with_wrapper_witness :
  (pendingChangesForPubkey workerWithBadPush "05us" []).1
  = Throw (mkError "push refused").
Proof.
  destruct (pendingChanges_rejects_with_wrapper workerWithBadPush "05us" [])
    as (evs & Heq & Hthrown).
  cbn [app] in Heq. subst evs.
  apply (Hthrown (EvPush UserGroupsConfig (Throw (mkError "push refused")))).
  - vm_compute. do 8 right. left.
  - reflexivity.
Defined.

(** ** One result per dirty variant *)

Section PendingChangesConfirmed.
Context (W : Collaborators).

Lemma Long_fromNumber_exact (n : Z) :
  - 2 ^ 63 < n < 2 ^ 63 - 1 → Long_fromNumber (integer n) = mkLong n.
Proof.
  intros Hrange. unfold Long_fromNumber, integer, truncated. cbn [Z.leb].
  change (0 <=? 0) with true. cbv iota. rewrite Z.pow_0_r, Z.mul_1_r.
  destruct (Z.leb_spec n (- 2 ^ 63)); [lia|].
  destruct (Z.leb_spec (2 ^ 63 - 1) n); [lia|]. done.
Qed.

Lemma withPlaceholders_closed us dumps :
  withPlaceholders us us dumps
  = dumps ++ ((λ v, mkDumpMeta (UserVariant v) us)
              <$> List.filter (λ v, negb (hasRowOf us dumps v)) requiredUserVariants).
Proof.
  unfold withPlaceholders. rewrite String.eqb_refl.
  cbn [fold_left requiredUserVariants List.filter].
  rewrite !addPlaceholder_hasRowOf.
  destruct (hasRowOf us dumps UserConfig) eqn:H1;
    destruct (hasRowOf us dumps ContactsConfig) eqn:H2;
    destruct (hasRowOf us dumps UserGroupsConfig) eqn:H3;
    destruct (hasRowOf us dumps ConvoInfoVolatileConfig) eqn:H4;
    repeat (rewrite ?hasRowOf_app, ?H1, ?H2, ?H3, ?H4;
            rewrite ?hasRowOf_placeholder by discriminate;
            cbn -[hasRowOf]);
    by rewrite <- ?app_assoc, ?app_nil_r.
Qed.

Lemma userVariantsOf_placeholders us (vs : list ConfigWrapperUser) :
  userVariantsOf ((λ v, mkDumpMeta (UserVariant v) us) <$> vs) = vs.
Proof. induction vs as [|v vs IH]; [done|]. cbn. by f_equal. Qed.

Lemma userVariantsOf_row dumps v :
  v ∈ userVariantsOf dumps ↔ ∃ dump, dump ∈ dumps ∧ meta_variant dump = UserVariant v.
Proof.
  unfold userVariantsOf. rewrite list_elem_of_omap. split.
  - intros (dump & Hin & Hv). exists dump. split; [done|].
    destruct (meta_variant dump); cbn in Hv; congruence.
  - intros (dump & Hin & Hv). exists dump. split; [done|]. by rewrite Hv.
Qed.

Lemma hasRowOf_ours us dumps v :
  userRowsAreOurs us dumps → v ∈ userVariantsOf dumps → hasRowOf us dumps v = true.
Proof.
  intros Hours (dump & Hin & Hv)%userVariantsOf_row.
  unfold hasRowOf. apply existsb_exists. exists dump.
  split; [by apply list_elem_of_In|].
  rewrite (Hours dump v Hin Hv), String.eqb_refl, Hv. cbn.
  by apply bool_decide_eq_true_2.
Qed.

(** On a table keyed by owner and variant whose user rows are ours, no
    user variant is stored twice. *)
Lemma stored_user_variants_NoDup us dumps :
  keyedByOwnerAndVariant dumps → userRowsAreOurs us dumps →
  NoDup (userVariantsOf dumps).
Proof.
  unfold keyedByOwnerAndVariant. induction dumps as [|dump rest IH]; intros Hkeyed Hours.
  - constructor.
  - rewrite fmap_cons in Hkeyed. apply NoDup_cons in Hkeyed as [Hfresh Hkeyed].
    assert (Hrest : userRowsAreOurs us rest).
    { intros d v Hin. apply Hours. by right. }
    rewrite userVariantsOf_cons.
    destruct (isUserConfigWrapperType (meta_variant dump)) as [v|] eqn:Hv;
      [|by apply IH].
    assert (Hvariant : meta_variant dump = UserVariant v).
    { destruct (meta_variant dump); cbn in Hv; congruence. }
    apply NoDup_cons. split; [|by apply IH].
    intros (dump' & Hin & Hv')%userVariantsOf_row. apply Hfresh.
    apply list_elem_of_fmap. exists dump'. split; [|done].
    rewrite (Hours dump v), (Hours dump' v), Hvariant, Hv'; try done.
    + by right.
    + by left.
Qed.

(** Nor is a user variant examined twice, placeholders included. *)
Lemma examined_user_variants_NoDup pubkey us dumps :
  keyedByOwnerAndVariant dumps → userRowsAreOurs us dumps →
  NoDup (userVariantsOf (withPlaceholders pubkey us dumps)).
Proof.
  intros Hkeyed Hours.
  pose proof (stored_user_variants_NoDup us dumps Hkeyed Hours) as Hstored.
  unfold withPlaceholders at 1.
  destruct (String.eqb_spec pubkey us) as [->|_]; [|done].
  fold (withPlaceholders us us dumps).
  assert (Hunfold : fold_left (addPlaceholder us) requiredUserVariants dumps
                    = withPlaceholders us us dumps).
  { unfold withPlaceholders. by rewrite String.eqb_refl. }
  rewrite Hunfold, withPlaceholders_closed.
  unfold userVariantsOf at 1. rewrite omap_app.
  fold (userVariantsOf dumps).
  fold (userVariantsOf ((λ v, mkDumpMeta (UserVariant v) us)
                        <$> List.filter (λ v, negb (hasRowOf us dumps v))
                              requiredUserVariants)).
  rewrite userVariantsOf_placeholders.
  apply NoDup_app. split; [done|]. split.
  - intros v Hin Hmissing%list_elem_of_In%filter_In.
    destruct Hmissing as [_ Hmissing].
    by rewrite (hasRowOf_ours us dumps v Hours Hin) in Hmissing.
  - apply NoDup_ListNoDup, List.NoDup_filter, NoDup_ListNoDup.
    unfold requiredUserVariants. repeat constructor; set_solver.
Qed.

Lemma occurrences_NoDup v l : NoDup l → v ∈ l → occurrences v l = 1%nat.
Proof.
  unfold occurrences. induction 1 as [|x l Hfresh Hnodup IH]; intros Hin.
  - by apply elem_of_nil in Hin.
  - cbn. case_bool_decide as Hx.
    + subst x. cbn. f_equal.
      assert (Hnone : List.filter (λ v', bool_decide (v' = v)) l = []);
        [|by rewrite Hnone].
      apply elem_of_nil_inv. intros y Hy.
      apply list_elem_of_In, filter_In in Hy as [Hy Hv%bool_decide_eq_true].
      subst y. by apply Hfresh, list_elem_of_In.
    + apply IH. by apply elem_of_cons in Hin as [->|Hin].
Qed.

Lemma reportedDirty_queried v evs : v ∈ reportedDirty evs → v ∈ queried evs.
Proof.
  unfold reportedDirty, queried. rewrite !list_elem_of_omap.
  intros (ev & Hin & Hv). exists ev. split; [done|].
  destruct ev as [| | | | | | | | |v' [[|]|]| | | |]; cbn in *; congruence.
Qed.

(** C5: on a dump table that is keyed by owner and variant and holds the
    user variants under our own public key, a call of
    [pendingChangesForPubkey] that returns has examined every user variant
    at most once, and its result holds exactly one [OutgoingConfResult] for
    every user variant that was reported dirty and none for any other: the
    results are, in order, what the pushes of the dirty variants returned.
    The one result of a dirty variant has the kind of the variant and the
    data and the hashes of the one push of that variant, and its sequence
    number is [Long.fromNumber] of the one the push returned, which is that
    very number when it is an integer within the signed 64-bit range.  For
    our own public key all four required variants are examined, those
    without a stored row through their placeholders. *)
Theorem pendingChanges_one_result_per_dirty_variant (pubkey : string) (tr : Trace)
    (dumps : list ConfigDumpRowWithoutData) (results : list OutgoingConfResult)
    (tr' : Trace) :
  getAllDumpsWithoutData W tr = Ok dumps →
  keyedByOwnerAndVariant dumps →
  userRowsAreOurs (getOurPubKeyStrFromCache W) dumps →
  pendingChangesForPubkey W pubkey tr = (Ok results, tr') →
  ∃ evs,
    tr' = tr ++ evs
    ∧ NoDup (queried evs)
    ∧ map fst (pushed evs) = reportedDirty evs
    ∧ Forall2 carries results (pushed evs)
    ∧ (∀ v, v ∈ reportedDirty evs →
            ∃ r p,
              resultsFor v results = [r]
              ∧ List.filter (λ vp, bool_decide (fst vp = v)) (pushed evs) = [(v, p)]
              ∧ carries r (v, p)
              ∧ ∀ n, push_seqno p = integer n → - 2 ^ 63 < n < 2 ^ 63 - 1 →
                     msg_seqno (message r) = mkLong n)
    ∧ (∀ v, v ∉ reportedDirty evs → resultsFor v results = [])
    ∧ (pubkey = getOurPubKeyStrFromCache W →
       (∀ v, v ∈ queried evs)
       ∧ queried evs
         = userVariantsOf dumps
           ++ List.filter (λ v, negb (hasRowOf (getOurPubKeyStrFromCache W) dumps v))
                requiredUserVariants).
Proof.
  intros Hdumps Hkeyed Hours Hrun.
  destruct (pendingChangesForPubkey_done W pubkey tr results tr' Hrun)
    as (dumps' & evs & Hdumps' & -> & Hq & Hp & Hc & Hall & Hone & Hnone).
  assert (dumps' = dumps) as -> by congruence.
  assert (Hnodup : NoDup (queried evs)).
  { rewrite Hq. by apply examined_user_variants_NoDup. }
  exists evs. split; [done|]. split; [done|]. split; [done|]. split; [done|].
  split; [|split; [done|]].
  - intros v Hdirty.
    destruct (Hone v) as (r & p & Hr & Hpush & Hcarries); [|done|].
    { apply occurrences_NoDup; [done|]. by apply reportedDirty_queried. }
    exists r, p. split; [done|]. split; [done|]. split; [done|].
    intros n Hn Hrange. destruct Hcarries as (_ & _ & -> & _). cbn [snd].
    rewrite Hn. by apply Long_fromNumber_exact.
  - intros ->. split; [by apply Hall|].
    rewrite Hq, withPlaceholders_closed. unfold userVariantsOf at 1.
    rewrite omap_app. f_equal. apply userVariantsOf_placeholders.
Qed.

End PendingChangesConfirmed.

Lemma pendingChanges_one_result_per_dirty_variant_witness :
  ∃ r p,
    resultsFor UserGroupsConfig
      (okOr [] (pendingChangesForPubkey workerWithOneDump "05us" []).1)
    = [r]
    ∧ carries r (UserGroupsConfig, p)
    ∧ msg_seqno (message r) = mkLong 7.
Proof.
  destruct (pendingChanges_one_result_per_dirty_variant workerWithOneDump "05us" []
              [mkDumpMeta (UserVariant ContactsConfig) "05us"]
              (okOr [] (pendingChangesForPubkey workerWithOneDump "05us" []).1)
              (pendingChangesForPubkey workerWithOneDump "05us" []).2)
    as (evs & Heq & _ & _ & _ & Hone & _).
  - reflexivity.
  - unfold keyedByOwnerAndVariant. cbn. apply NoDup_singleton.
  - intros dump v Hin%list_elem_of_singleton _. by subst dump.
  - vm_compute. reflexivity.
  - cbn [app] in Heq. subst evs.
    destruct (Hone UserGroupsConfig) as (r & p & Hr & Hpush & Hcarries & Hseqno).
    + vm_compute. do 2 right. left.
    + exists r, p. split; [exact Hr|]. split; [exact Hcarries|].
      apply Hseqno; [|lia].
      vm_compute in Hpush. by injection Hpush as <-.
Defined.

(** ** What initialization hands to the wrappers *)

Section InitializationArguments.
Context (W : Collaborators).

Lemma emitsOnly_ret {A} P (a : A) : emitsOnly P (ret a).
Proof. intros tr. exists []. by rewrite app_nil_r. Qed.

Lemma emitsOnly_throw {A} P e : emitsOnly P (throw (A := A) e).
Proof. intros tr. exists []. by rewrite app_nil_r. Qed.

Lemma emitsOnly_log P level text : P (EvLog level text) → emitsOnly P (log level text).
Proof. intros HP tr. exists [EvLog level text]. split; [done|]. by constructor. Qed.

Lemma emitsOnly_perform {A} P (oracle : Trace → Result A) ev :
  (∀ r, P (ev r)) → emitsOnly P (perform oracle ev).
Proof. intros HP tr. exists [ev (oracle tr)]. split; [done|]. by constructor. Qed.

Lemma emitsOnly_bind {A B} P (m : Async Trace A) (k : A → Async Trace B) :
  emitsOnly P m → (∀ a, emitsOnly P (k a)) → emitsOnly P (bind m k).
Proof.
  intros Hm Hk tr. destruct (Hm tr) as (evs & Htr & HP).
  unfold bind. destruct (m tr) as [[a|e] tr1]; cbn in Htr; subst tr1.
  - destruct (Hk a (tr ++ evs)) as (evs' & -> & HP').
    exists (evs ++ evs'). split; [by rewrite app_assoc|]. by apply Forall_app.
  - by exists evs.
Qed.

Lemma emitsOnly_bind_liftR {A B} P (r : Result A) (k : A → Async Trace B) :
  (∀ a, r = Ok a → emitsOnly P (k a)) → emitsOnly P (bind (liftR r) k).
Proof.
  intros Hk tr. unfold bind, liftR. destruct r as [a|e].
  - by apply Hk.
  - exists []. by rewrite app_nil_r.
Qed.

Lemma emitsOnly_try_catch {A} P (body : Async Trace A) handler :
  emitsOnly P body → (∀ e, emitsOnly P (handler e)) → emitsOnly P (try_catch body handler).
Proof.
  intros Hbody Hhandler tr. destruct (Hbody tr) as (evs & Htr & HP).
  unfold try_catch. destruct (body tr) as [[a|e] tr1]; cbn in Htr; subst tr1.
  - by exists evs.
  - destruct (Hhandler e (tr ++ evs)) as (evs' & -> & HP').
    exists (evs ++ evs'). split; [by rewrite app_assoc|]. by apply Forall_app.
Qed.

Lemma loadUserDumps_emitsOnly P priv dumps :
  (∀ level text, P (EvLog level text)) →
  (∀ v d answer, d ≠ Some [] → P (EvGenericInit v d answer)) →
  ∀ built, emitsOnly P (loadUserDumps W priv dumps built).
Proof.
  intros Hlog Hinit. induction dumps as [|dump rest IH]; intros built.
  - apply emitsOnly_ret.
  - cbn [loadUserDumps].
    destruct (isUserConfigWrapperType (variant dump)) as [v|]; [|apply IH].
    apply emitsOnly_bind; [by apply emitsOnly_log|]. intros _.
    apply emitsOnly_bind; [|intros built'; apply IH].
    apply emitsOnly_try_catch.
    + apply emitsOnly_bind; [|intros _; apply emitsOnly_ret].
      apply emitsOnly_perform. intros answer. apply Hinit.
      case_bool_decide as Hdata; [done|]. by intros [= ?].
    + intros e. apply emitsOnly_bind_liftR. intros failure _.
      apply emitsOnly_bind; [by apply emitsOnly_log|].
      intros _. apply emitsOnly_throw.
Qed.

Lemma createMissingVariants_emitsOnly P priv missing :
  (∀ level text, P (EvLog level text)) →
  (∀ v answer, P (EvGenericInit v None answer)) →
  (∀ v, P (EvGenericDump v)) →
  (∀ row, P (EvSaveConfigDump row)) →
  emitsOnly P (createMissingVariants W priv missing).
Proof.
  intros Hlog Hinit Hdump Hsave. induction missing as [|v rest IH].
  - apply emitsOnly_ret.
  - cbn [createMissingVariants].
    repeat (apply emitsOnly_bind; [|intros ?]);
      try (by apply emitsOnly_log); try (by apply emitsOnly_perform); done.
Qed.

Lemma loadGroupDumps_emitsOnly P priv all :
  (∀ level text, P (EvLog level text)) →
  (∀ groupPk answer, P (EvGetGroup groupPk answer)) →
  (∀ groupPk args answer, groupInitFromDump W all (EvMetaGroupInit groupPk args answer) →
                          P (EvMetaGroupInit groupPk args answer)) →
  ∀ dumps, dumps ⊆ all → emitsOnly P (loadGroupDumps W priv dumps).
Proof.
  intros Hlog Hget Hinit. induction dumps as [|dump rest IH]; intros Hsub.
  - apply emitsOnly_ret.
  - assert (Hrest : rest ⊆ all) by set_solver.
    assert (Hdump : dump ∈ all) by set_solver.
    cbn [loadGroupDumps].
    destruct (getGroupPubkeyFromWrapperType (variant dump)) as [groupPk|] eqn:Hgroup;
      [|by apply IH].
    assert (Hvariant : variant dump = MetaGroupConfig groupPk).
    { destruct (variant dump); [done|]. cbn in Hgroup. congruence. }
    apply emitsOnly_bind; [|intros _; by apply IH].
    apply emitsOnly_try_catch.
    2: { intros e. apply emitsOnly_bind_liftR. intros failure _.
         by apply emitsOnly_log. }
    apply emitsOnly_bind; [by apply emitsOnly_perform|]. intros found.
    apply emitsOnly_bind; [by apply emitsOnly_log|]. intros _.
    apply emitsOnly_bind_liftR. intros pk32 Hpk32.
    apply emitsOnly_bind_liftR. intros sk64 Hsk64.
    apply emitsOnly_perform. intros answer. apply Hinit.
    exists dump. done.
Qed.

(** [initializeLibSessionUtilWrappers] as a whole: what holds of the
    events of its loops holds of the events of a run. *)
Lemma initialize_emitsOnly P (tr : Trace) :
  P EvGetKeyPair →
  P EvGetAllDumpsWithData →
  (∀ level text, P (EvLog level text)) →
  (∀ v d answer, d ≠ Some [] → P (EvGenericInit v d answer)) →
  (∀ v, P (EvGenericDump v)) →
  (∀ row, P (EvSaveConfigDump row)) →
  (∀ groupPk answer, P (EvGetGroup groupPk answer)) →
  (∀ dumps groupPk args answer,
     getAllDumpsWithData W (tr ++ [EvGetKeyPair]) = Ok dumps →
     groupInitFromDump W dumps (EvMetaGroupInit groupPk args answer) →
     P (EvMetaGroupInit groupPk args answer)) →
  ∃ evs, (initializeLibSessionUtilWrappers W tr).2 = tr ++ evs ∧ Forall P evs.
Proof.
  intros Hkey Hall Hlog Hinit Hdump Hsave Hget Hgroup.
  unfold initializeLibSessionUtilWrappers.
  cbv beta iota zeta delta [bind perform log throw].
  destruct (getUserED25519KeyPairBytes W tr) as [keypair|e].
  2: { exists [EvGetKeyPair]. split; [done|]. by constructor. }
  destruct (privKeyOf keypair) as [priv|].
  2: { exists [EvGetKeyPair]. split; [done|]. by constructor. }
  destruct (getAllDumpsWithData W (tr ++ [EvGetKeyPair])) as [dumps|e] eqn:Hdumps.
  2: { exists [EvGetKeyPair; EvGetAllDumpsWithData].
       split; [by rewrite <- app_assoc|]. by repeat constructor. }
  match goal with |- context [loadUserDumps W priv dumps [] ?t] =>
    destruct (loadUserDumps_emitsOnly P priv dumps Hlog Hinit [] t) as (evs1 & H1 & HP1);
    destruct (loadUserDumps W priv dumps [] t) as [[built|e] tr1]
  end; cbn in H1; subst tr1.
  2: { eexists (_ :: _ :: _ :: evs1). split; [by rewrite <- !app_assoc|].
       by repeat constructor. }
  match goal with |- context [createMissingVariants W priv ?m ?t] =>
    destruct (createMissingVariants_emitsOnly P priv m Hlog
                (λ v answer, Hinit v None answer ltac:(done)) Hdump Hsave t)
      as (evs2 & H2 & HP2);
    destruct (createMissingVariants W priv m t) as [[[]|e] tr2]
  end; cbn in H2; subst tr2.
  2: { eexists (_ :: _ :: _ :: evs1 ++ evs2). split; [by rewrite <- !app_assoc|].
       repeat constructor; try done. by apply Forall_app. }
  match goal with |- context [getUserED25519KeyPairBytes W ?t] =>
    destruct (getUserED25519KeyPairBytes W t) as [keypair2|e]
  end.
  2: { eexists (_ :: _ :: _ :: evs1 ++ evs2 ++ [_]).
       split; [by rewrite <- !app_assoc|].
       repeat constructor; try done. rewrite !Forall_app. by repeat constructor. }
  destruct (privKeyOf keypair2) as [priv2|].
  2: { eexists (_ :: _ :: _ :: evs1 ++ evs2 ++ [_]).
       split; [by rewrite <- !app_assoc|].
       repeat constructor; try done. rewrite !Forall_app. by repeat constructor. }
  match goal with |- context [loadGroupDumps W priv2 dumps ?t] =>
    destruct (loadGroupDumps_emitsOnly P priv2 dumps Hlog Hget
                (λ g args answer, Hgroup dumps g args answer eq_refl) dumps
                ltac:(done) t)
      as (evs3 & -> & HP3)
  end.
  eexists (_ :: _ :: _ :: evs1 ++ evs2 ++ [_] ++ evs3).
  split; [by rewrite <- !app_assoc|].
  repeat constructor; try done. rewrite !Forall_app. by repeat constructor.
Qed.

(** X21: [initializeLibSessionUtilWrappers] never hands an empty dump to
    a user wrapper: a stored row without payload is loaded as [null], like a
    variant that has no row at all.  This holds of every run, also of one
    that throws. *)
Theorem initialize_never_hands_over_an_empty_dump (tr : Trace) :
  ∃ evs,
    (initializeLibSessionUtilWrappers W tr).2 = tr ++ evs
    ∧ Forall handsNoEmptyDump evs.
Proof. by apply initialize_emitsOnly. Qed.

(** X22: every group wrapper that [initializeLibSessionUtilWrappers]
    builds is built from a row that was read from the database at the start:
    a row of that very group, whose payload is passed on unchanged, with the
    public key read off the name of the group. *)
Theorem initialize_loads_groups_from_their_dumps (tr : Trace)
    (dumps : list ConfigDumpRow) :
  getAllDumpsWithData W (tr ++ [EvGetKeyPair]) = Ok dumps →
  ∃ evs,
    (initializeLibSessionUtilWrappers W tr).2 = tr ++ evs
    ∧ Forall (groupInitFromDump W dumps) evs.
Proof.
  intros Hdumps. apply initialize_emitsOnly; try done.
  intros dumps' groupPk args answer Hdumps'. congruence.
Qed.

End InitializationArguments.

Lemma initialize_loads_groups_from_their_dumps_witness :
  Forall (groupInitFromDump workerWithTwoDumps exampleDumps)
         (initializeLibSessionUtilWrappers workerWithTwoDumps []).2.
Proof.
  destruct (initialize_loads_groups_from_their_dumps workerWithTwoDumps []
              exampleDumps eq_refl) as (evs & Heq & Hall).
  cbn [app] in Heq. subst evs. exact Hall.
Defined.

End LibSessionUtilFacts.

(** * Properties of MessageQueue *)

Module MessageQueueFacts.
Import MessageQueue.

Lemma emit_emit evs1 evs2 w : emit evs2 (emit evs1 w) = emit (evs1 ++ evs2) w.
Proof. unfold emit. cbn. by rewrite app_assoc. Qed.

Lemma emit_inj evs1 evs2 w : emit evs1 w = emit evs2 w → evs1 = evs2.
Proof. unfold emit. intros [= H]. by apply app_inv_head in H. Qed.

(** ** The job queue *)

Lemma jobsFor_none id q : jobQueue_has id q = false → jobsFor id q = [].
Proof.
  unfold jobQueue_has, jobsFor. induction q as [|j q IH]; [done|]. cbn.
  intros [Hj Hq]%orb_false_iff. rewrite Hj. by apply IH.
Qed.

Lemma jobQueue_has_enqueue f id q m :
  jobQueue_has id (enqueueMessage f q m)
  = jobQueue_has id q || String.eqb (identifier m) id.
Proof.
  unfold enqueueMessage, addWithId.
  destruct (jobQueue_has (identifier m) q) eqn:Hhas; cbn.
  - destruct (String.eqb_spec (identifier m) id) as [<-|_].
    + by rewrite Hhas.
    + by rewrite orb_false_r.
  - unfold jobQueue_has. rewrite existsb_app. cbn. by rewrite orb_false_r.
Qed.

Lemma jobQueue_has_fold f id msgs : ∀ q,
  jobQueue_has id (fold_left (enqueueMessage f) msgs q)
  = jobQueue_has id q || existsb (λ m, String.eqb (identifier m) id) msgs.
Proof.
  induction msgs as [|m msgs IH]; intros q; cbn [fold_left existsb].
  - by rewrite orb_false_r.
  - by rewrite IH, jobQueue_has_enqueue, orb_assoc.
Qed.

Lemma jobsFor_enqueue_queued f id q m :
  jobQueue_has id q = true → jobsFor id (enqueueMessage f q m) = jobsFor id q.
Proof.
  intros Hhas. unfold enqueueMessage, addWithId.
  destruct (jobQueue_has (identifier m) q) eqn:Hm; cbn; [done|].
  unfold jobsFor. rewrite List.filter_app. cbn.
  destruct (String.eqb_spec (identifier m) id) as [<-|_]; [congruence|].
  by rewrite app_nil_r.
Qed.

Lemma jobsFor_fold_queued f id msgs : ∀ q,
  jobQueue_has id q = true →
  jobsFor id (fold_left (enqueueMessage f) msgs q) = jobsFor id q.
Proof.
  induction msgs as [|m msgs IH]; intros q Hhas; [done|]. cbn [fold_left].
  rewrite IH; [by apply jobsFor_enqueue_queued|].
  by rewrite jobQueue_has_enqueue, Hhas.
Qed.

(** A message whose identifier is not queued yet gets exactly one job. *)
Lemma jobsFor_fold_fresh f msgs : ∀ q m,
  In m msgs →
  jobQueue_has (identifier m) q = false →
  ∃ job,
    jobsFor (identifier m) (fold_left (enqueueMessage f) msgs q)
    = [(identifier m, job)]
    ∧ job_isSyncMessage job = f
    ∧ In (job_message job) msgs
    ∧ identifier (job_message job) = identifier m.
Proof.
  induction msgs as [|m0 msgs IH]; intros q m Hin Hfresh; [done|]. cbn [fold_left].
  destruct (String.eqb_spec (identifier m0) (identifier m)) as [Heq|Hne].
  - exists (mkJob m0 f).
    rewrite jobsFor_fold_queued.
    + unfold enqueueMessage, addWithId. rewrite Heq, Hfresh. cbn.
      unfold jobsFor. rewrite List.filter_app. cbn.
      rewrite String.eqb_refl. fold (jobsFor (identifier m) q).
      rewrite (jobsFor_none _ _ Hfresh). cbn. rewrite <- Heq.
      repeat split; by left.
    + rewrite jobQueue_has_enqueue, Hfresh. cbn. by apply String.eqb_eq.
  - destruct Hin as [->|Hin]; [done|].
    destruct (IH (enqueueMessage f q m0) m Hin) as (job & Hjobs & Hf & Hmsg & Hid).
    + rewrite jobQueue_has_enqueue, Hfresh. cbn. by apply String.eqb_neq.
    + exists job. repeat split; try done. by right.
Qed.

Lemma processPending_unfold dev isSyncMessage w :
  processPending dev isSyncMessage w
  = (Ok tt,
     set_jobQueues
       (<[key dev := fold_left (enqueueMessage isSyncMessage) (getForDevice dev w)
                       (default [] (jobQueues w !! key dev))]> (jobQueues w))
       w).
Proof.
  unfold processPending, getJobQueue, bind.
  destruct (jobQueues w !! key dev) as [queue|] eqn:Hq; cbn; [done|].
  unfold set_jobQueues. cbn. by rewrite insert_insert_eq.
Qed.

Section OpenGroups.
Context (W : Collaborators).

Local Ltac run :=
  cbv beta delta [bind try_catch perform log throw ret openGroupFailure]; cbn zeta.

(** ** Open group sends *)

(** C2 (amended): when the open group transport answers with no server
    id, with [0] or with [-1], both [sendToOpenGroupV2] and
    [sendToOpenGroupV2BlindedRequest] hand the message to the failure
    handler with an invalid-server-id error and never call the success
    handler. *)
Theorem invalid_server_id_is_failure (w : World) (message : OpenGroupVisibleMessage)
    (roomInfos : OpenGroupRequestCommonType) (id : option Z) :
  invalidServerId id = true →
  let e := mkError ("Invalid serverId returned by server: " +:+ showServerId id) in
  let warn := EvLog LogWarn ("Failed to send message to open group: "
                             +:+ serverUrl roomInfos +:+ ":" +:+ roomId roomInfos
                             +:+ ":") in
  (∀ blinded filesToLink result,
     reaction message = None →
     sendToOpenGroupV2_transport W (trace w) message roomInfos blinded filesToLink
     = Ok result →
     serverId result = id →
     ∃ evs,
       (sendToOpenGroupV2 W blinded filesToLink message roomInfos w).2 = emit evs w
       ∧ evs = [ EvSendToOpenGroupV2 (og_identifier message) roomInfos blinded
                   filesToLink;
                 warn;
                 EvSentFailure (og_identifier message) e ]
       ∧ existsb isSuccessHandler evs = false)
  ∧ (∀ encryptedContent recipientBlindedId result,
       isBlinded W recipientBlindedId = true →
       sendToOpenGroupV2BlindedRequest_transport W (trace w) encryptedContent
         roomInfos recipientBlindedId = Ok result →
       blinded_serverId result = id →
       ∃ evs,
         (sendToOpenGroupV2BlindedRequest W encryptedContent message
            recipientBlindedId roomInfos w).2 = emit evs w
         ∧ evs = [ EvSendToOpenGroupV2BlindedRequest roomInfos recipientBlindedId;
                   warn;
                   EvSentFailure (og_identifier message) e ]
         ∧ existsb isSuccessHandler evs = false).
Proof.
  intros Hinvalid e warn. split.
  - intros blinded filesToLink result Hreaction Hsend Hid.
    unfold sendToOpenGroupV2. rewrite Hreaction. run.
    rewrite Hsend, Hid, Hinvalid. cbn.
    eexists. split; [by rewrite !emit_emit|]. done.
  - intros encryptedContent recipientBlindedId result Hblinded Hsend Hid.
    unfold sendToOpenGroupV2BlindedRequest. rewrite Hblinded. cbn [negb]. run.
    rewrite Hsend, Hid, Hinvalid. cbn.
    eexists. split; [by rewrite !emit_emit|]. done.
Qed.

(** C10: a message that carries a reaction only goes to the reaction
    endpoint.  When that call resolves nothing else happens; when it rejects
    the failure handler is called, with what it rejected with or, when that
    is falsy, with a new error.  Either way the generic open group send,
    with its check of the server id, and the success handler are never
    reached. *)
Theorem reaction_skips_generic_send (w : World) (blinded : bool)
    (filesToLink : list Z) (message : OpenGroupVisibleMessage)
    (roomInfos : OpenGroupRequestCommonType) (r : Reaction) :
  reaction message = Some r →
  ∃ evs,
    (sendToOpenGroupV2 W blinded filesToLink message roomInfos w).2 = emit evs w
    ∧ List.filter isTransport evs = [EvSendSogsReaction roomInfos r blinded]
    ∧ existsb isSuccessHandler evs = false
    ∧ match sendSogsReactionOnionV4 W (trace w) (serverUrl roomInfos)
              (roomId roomInfos) r blinded with
      | Ok _ =>
          sendToOpenGroupV2 W blinded filesToLink message roomInfos w
          = (Ok tt, emit [EvSendSogsReaction roomInfos r blinded] w)
      | Throw e =>
          evs = [ EvSendSogsReaction roomInfos r blinded;
                  EvLog LogWarn ("Failed to send message to open group: "
                                 +:+ serverUrl roomInfos +:+ ":"
                                 +:+ roomId roomInfos +:+ ":");
                  EvSentFailure (og_identifier message) (reportedError e) ]
      end.
Proof.
  intros Hreaction. unfold sendToOpenGroupV2. rewrite Hreaction. run.
  destruct (sendSogsReactionOnionV4 W (trace w) (serverUrl roomInfos)
              (roomId roomInfos) r blinded) as [ok|e]; cbn.
  - exists [EvSendSogsReaction roomInfos r blinded]. done.
  - eexists. split; [by rewrite !emit_emit|]. done.
Qed.

End OpenGroups.

Lemma invalid_server_id_is_failure_witness :
  (sendToOpenGroupV2 (exampleSender (Some (-1)) false false false)
     false [] plainPost exampleRoom emptyWorld).2
  = emit [ EvSendToOpenGroupV2 "post-1" exampleRoom false [];
           EvLog LogWarn
             "Failed to send message to open group: https://open.getsession.org:session:";
           EvSentFailure "post-1"
             (mkError "Invalid serverId returned by server: -1") ]
         emptyWorld
  ∧ (sendToOpenGroupV2BlindedRequest (exampleSender (Some (-1)) false false false)
       [x09] plainPost "15recipient" exampleRoom emptyWorld).2
    = emit [ EvSendToOpenGroupV2BlindedRequest exampleRoom "15recipient";
             EvLog LogWarn
               "Failed to send message to open group: https://open.getsession.org:session:";
             EvSentFailure "post-1"
               (mkError "Invalid serverId returned by server: -1") ]
           emptyWorld.
Proof.
  destruct (invalid_server_id_is_failure
              (exampleSender (Some (-1)) false false false)
              emptyWorld plainPost exampleRoom (Some (-1)) eq_refl)
    as [Hplain Hblinded].
  split.
  - destruct (Hplain false [] (mkOpenGroupMessageV2 (Some (-1)) (Some 1000))
                eq_refl eq_refl eq_refl) as (evs & -> & -> & _).
    reflexivity.
  - destruct (Hblinded [x09] "15recipient" (mkBlindedRequestResult (Some (-1)) 1000)
                eq_refl eq_refl eq_refl) as (evs & -> & -> & _).
    reflexivity.
Defined.

(** C2 as stated fails: a non-positive server id other than [0] and [-1]
    passes the check; with [-2] both sends call the success handler with
    that id and never reach the failure handler. *)
Lemma negative_server_id_is_accepted :
  -2 ≤ 0
  ∧ sendToOpenGroupV2 (exampleSender (Some (-2)) false false false)
    false [] plainPost exampleRoom emptyWorld
  = (Ok tt,
     emit [ EvSendToOpenGroupV2 "post-1" exampleRoom false [];
            EvPublicSentSuccess "post-1" (Some (-2)) (Some 1000) ]
          emptyWorld)
  ∧ sendToOpenGroupV2BlindedRequest (exampleSender (Some (-2)) false false false)
      [x09] plainPost "15recipient" exampleRoom emptyWorld
    = (Ok tt,
       emit [ EvSendToOpenGroupV2BlindedRequest exampleRoom "15recipient";
              EvPublicSentSuccess "post-1" (Some (-2)) (Some 1000) ]
            emptyWorld).
Proof. split; [lia|]. split; vm_compute; reflexivity. Qed.

Lemma reaction_skips_generic_send_witness :
  sendToOpenGroupV2 (exampleSender (Some 12) false false false)
    true [] reactionPost exampleRoom emptyWorld
  = (Ok tt, emit [EvSendSogsReaction exampleRoom (mkReaction 41 "+1") true] emptyWorld).
Proof.
  destruct (reaction_skips_generic_send
              (exampleSender (Some 12) false false false)
              emptyWorld true [] reactionPost exampleRoom (mkReaction 41 "+1") eq_refl)
    as (evs & _ & _ & _ & H).
  exact H.
Defined.

Section Sending.
Context (W : Collaborators).

Local Ltac run :=
  cbv beta delta [bind try_catch perform log throw ret void]; cbn zeta.

(** ** sendToPubKeyNonDurably *)

(** C9: when [toRawMessage] throws, [sendToPubKeyNonDurably] returns
    [null] and the failure handler is not called.  The failure handler is
    only ever called after the conversion has produced a raw message and
    something after it has failed: the send was rejected, or the send
    resolved and the success handler was rejected; it is called last, for
    that raw message and with that error.  When the send rejects, the
    failure handler is called for it, and [null] is returned when the
    handler resolves.  When nothing fails, the failure handler is not
    called and the timestamp of the send is returned. *)
Theorem nonDurable_failure_needs_raw_message (w : World) (message : ContentMessage)
    (ns : Z) (pubkey : PubKey) :
  let converted := EvToRawMessage pubkey (msg_identifier message) in
  (∀ e, toRawMessage W (trace w) pubkey message ns = Throw e →
        sendToPubKeyNonDurably W message ns pubkey w = (Ok None, emit [converted] w))
  ∧ (∃ evs,
       (sendToPubKeyNonDurably W message ns pubkey w).2 = emit evs w
       ∧ (existsb isFailureHandler evs = true →
          ∃ rawMessage e,
            toRawMessage W (trace w) pubkey message ns = Ok rawMessage
            ∧ ((send W (trace w ++ [converted]) rawMessage false = Throw e
                ∧ evs = [ converted; EvSend rawMessage false;
                          EvSentFailure (identifier rawMessage) e ])
               ∨ ∃ r,
                   send W (trace w ++ [converted]) rawMessage false = Ok r
                   ∧ handleMessageSentSuccess W
                       (trace w ++ [converted; EvSend rawMessage false])
                       rawMessage (effectiveTimestamp r) (wrappedEnvelope r)
                     = Throw e
                   ∧ evs = [ converted; EvSend rawMessage false;
                             EvSentSuccess rawMessage (effectiveTimestamp r);
                             EvSentFailure (identifier rawMessage) e ])))
  ∧ (∀ rawMessage e,
       toRawMessage W (trace w) pubkey message ns = Ok rawMessage →
       send W (trace w ++ [converted]) rawMessage false = Throw e →
       sendToPubKeyNonDurably W message ns pubkey w
       = (match handleMessageSentFailure W
                  (trace w ++ [converted; EvSend rawMessage false])
                  (identifier rawMessage) e with
          | Ok _ => Ok None
          | Throw e' => Throw e'
          end,
          emit [converted; EvSend rawMessage false;
                EvSentFailure (identifier rawMessage) e] w))
  ∧ (∀ rawMessage r,
       toRawMessage W (trace w) pubkey message ns = Ok rawMessage →
       send W (trace w ++ [converted]) rawMessage false = Ok r →
       handleMessageSentSuccess W (trace w ++ [converted; EvSend rawMessage false])
         rawMessage (effectiveTimestamp r) (wrappedEnvelope r) = Ok tt →
       sendToPubKeyNonDurably W message ns pubkey w
       = (Ok (Some (effectiveTimestamp r)),
          emit [converted; EvSend rawMessage false;
                EvSentSuccess rawMessage (effectiveTimestamp r)] w)).
Proof.
  intros converted. subst converted. unfold sendToPubKeyNonDurably. run.
  destruct (toRawMessage W (trace w) pubkey message ns) as [rawMessage|e0] eqn:Eraw.
  2: { split; [by intros ? [= <-]|]. split; [|split; discriminate].
       eexists [_]. split; [done|]. discriminate. }
  split; [discriminate|]. cbn [trace emit fst snd].
  destruct (send W _ rawMessage false) as [r|e] eqn:Hsend; cbn.
  - rewrite <- !app_assoc. cbn [app].
    destruct (handleMessageSentSuccess W _ rawMessage _ _) as [[]|e] eqn:Hhandled; cbn.
    + split.
      { eexists. split; [by rewrite !emit_emit|]. discriminate. }
      split.
      { intros ?? [= <-] Hrejected. congruence. }
      intros raw' r' [= <-] Hresolved _.
      assert (r' = r) as -> by congruence. by rewrite !emit_emit.
    + split.
      { eexists. split.
        - destruct (handleMessageSentFailure W _ _ e); cbn; by rewrite !emit_emit.
        - intros _. exists rawMessage, e. split; [done|]. right. by exists r. }
      split.
      { intros ?? [= <-] Hrejected. congruence. }
      intros raw' r' [= <-] Hresolved Hok.
      assert (r' = r) as -> by congruence. congruence.
  - split.
    { eexists. split.
      - destruct (handleMessageSentFailure W _ _ e); cbn; by rewrite !emit_emit.
      - intros _. exists rawMessage, e. split; [done|]. by left. }
    split.
    + intros raw' e' [= <-] Hrejected. assert (e' = e) as -> by congruence.
      rewrite <- !app_assoc. cbn [app].
      destruct (handleMessageSentFailure W _ _ e); cbn; by rewrite !emit_emit.
    + intros ?? [= <-] Hresolved. congruence.
Qed.

(** ** process and sendSyncMessage *)

(** C4: a message for our own public key that [MessageSender.isSyncMessage]
    does not recognise is dropped: [process] resolves, and all it leaves
    behind is a warning in the log; the cache, the callbacks and the job
    queues are as before, so nothing is ever sent for it. *)
Theorem self_send_without_sync_is_dropped (w : World) (destinationPk us : PubKey)
    (message : ContentMessage) (ns : Z) (sentCb : option Callback) (isGroup : bool) :
  getOurPubKeyFromCache W = Some us →
  isEqual destinationPk us = true →
  isSyncMessage W message = false →
  process W destinationPk message ns sentCb isGroup w
  = (Ok tt, emit [EvLog LogWarn "Dropping message in process() to be sent to ourself"] w)
  ∧ pendingMessageCache (process W destinationPk message ns sentCb isGroup w).2
    = pendingMessageCache w
  ∧ jobQueues (process W destinationPk message ns sentCb isGroup w).2 = jobQueues w
  ∧ List.filter isTransport (trace (process W destinationPk message ns sentCb isGroup w).2)
    = List.filter isTransport (trace w).
Proof.
  intros Hus Heq Hsync. unfold process. rewrite Hus, Heq, Hsync. run.
  repeat split. cbn. rewrite List.filter_app. cbn. by rewrite app_nil_r.
Qed.

(** [process] towards a destination for which the message is not dropped:
    the message is appended to the cache under that destination and, when
    the cache has been persisted, a job for it is queued there. *)
Lemma process_admits (w : World) (destinationPk : PubKey) (message : ContentMessage)
    (ns : Z) (sentCb : option Callback) (isGroup : bool) :
  (match getOurPubKeyFromCache W with
   | Some us => isEqual destinationPk us
   | None => false
   end = true → isSyncMessage W message = true) →
  pendingMessageCache (process W destinationPk message ns sentCb isGroup w).2
  = pendingMessageCache w ++ [mkRaw (msg_identifier message) (key destinationPk) ns]
  ∧ ((process W destinationPk message ns sentCb isGroup w).1 = Ok tt →
     jobQueue_has (msg_identifier message)
       (default [] (jobQueues (process W destinationPk message ns sentCb isGroup w).2
                    !! key destinationPk))
     = true).
Proof.
  intros Hsync. unfold process.
  assert (Hadd : ∀ flag w1,
    pendingMessageCache w1 = pendingMessageCache w →
    pendingMessageCache
      (bind (cache_add W destinationPk message ns sentCb isGroup)
            (λ _, void (processPending destinationPk flag)) w1).2
    = pendingMessageCache w ++ [mkRaw (msg_identifier message) (key destinationPk) ns]
    ∧ ((bind (cache_add W destinationPk message ns sentCb isGroup)
             (λ _, void (processPending destinationPk flag)) w1).1 = Ok tt →
       jobQueue_has (msg_identifier message)
         (default []
            (jobQueues (bind (cache_add W destinationPk message ns sentCb isGroup)
                             (λ _, void (processPending destinationPk flag)) w1).2
             !! key destinationPk))
       = true)).
  { intros flag w1 Hcache. unfold bind, cache_add, void.
    destruct (saveToDB W (trace w1)) as [[]|e]; cbn [fst snd].
    - rewrite processPending_unfold. cbn [fst snd]. split.
      + cbn. by rewrite Hcache.
      + intros _. unfold set_jobQueues. cbn [jobQueues].
        rewrite lookup_insert_eq. cbn [default from_option]. unfold id.
        rewrite jobQueue_has_fold. unfold getForDevice. cbn.
        rewrite Hcache, List.filter_app, existsb_app. cbn.
        rewrite String.eqb_refl. cbn. by rewrite String.eqb_refl, !orb_true_r.
    - cbn. rewrite Hcache. split; [done|discriminate]. }
  destruct (match getOurPubKeyFromCache W with
            | Some us => isEqual destinationPk us
            | None => false
            end).
  - rewrite (Hsync eq_refl).
    change (bind (log ?l ?t ;; ret ?x) ?k w) with (k x (emit [EvLog l t] w)).
    cbv beta iota. by apply Hadd.
  - change (bind (ret ?x) ?k w) with (k x w).
    cbv beta iota. by apply Hadd.
Qed.

(** C7: without a message [sendSyncMessage] does nothing; a message that
    is neither an [UnsendMessage] nor has a sync target makes it throw,
    leaving everything as it was; any other message goes to [process] with
    our own public key as the destination.  There, a message that
    [MessageSender.isSyncMessage] recognises is not dropped although it is
    for ourselves: it is appended to the cache under our key and, once the
    cache is persisted, queued. *)
Theorem sendSyncMessage_targets_ourselves (w : World) (ns : Z)
    (sentCb : option Callback) :
  sendSyncMessage W ns None sentCb w = (Ok tt, w)
  ∧ (∀ message,
       instanceofUnsendMessage message = false →
       truthy_string (syncTarget message) = false →
       sendSyncMessage W ns (Some message) sentCb w
       = (Throw (mkError "Invalid message given to sendSyncMessage"), w))
  ∧ (∀ message,
       instanceofUnsendMessage message = true
       ∨ truthy_string (syncTarget message) = true →
       let ourPubKey := getOurPubKeyStrFromCache W in
       sendSyncMessage W ns (Some message) sentCb w
       = process W (PubKey_cast ourPubKey) message ns sentCb false w
       ∧ (isSyncMessage W message = true →
          pendingMessageCache (sendSyncMessage W ns (Some message) sentCb w).2
          = pendingMessageCache w ++ [mkRaw (msg_identifier message) ourPubKey ns]
          ∧ ((sendSyncMessage W ns (Some message) sentCb w).1 = Ok tt →
             jobQueue_has (msg_identifier message)
               (default []
                  (jobQueues (sendSyncMessage W ns (Some message) sentCb w).2
                   !! ourPubKey))
             = true))).
Proof.
  split; [done|]. split.
  - intros message Hunsend Htarget. unfold sendSyncMessage.
    by rewrite Hunsend, Htarget.
  - intros message Hrecognised ourPubKey.
    assert (Hgo : sendSyncMessage W ns (Some message) sentCb w
                  = process W (PubKey_cast ourPubKey) message ns sentCb false w).
    { unfold sendSyncMessage.
      destruct Hrecognised as [-> | ->]; [done|]. by rewrite andb_false_r. }
    split; [done|]. intros Hsync. rewrite Hgo.
    apply (process_admits w (PubKey_cast ourPubKey)). by intros _.
Qed.

End Sending.

Lemma nonDurable_failure_needs_raw_message_witness :
  sendToPubKeyNonDurably (exampleSender None true false false)
    plainMessage 0 (mkPubKey "05friend") emptyWorld
  = (Ok None, emit [EvToRawMessage (mkPubKey "05friend") "msg-1"] emptyWorld)
  ∧ (sendToPubKeyNonDurably (exampleSender None false true false)
       plainMessage 0 (mkPubKey "05friend") emptyWorld).2
    = emit [ EvToRawMessage (mkPubKey "05friend") "msg-1";
             EvSend (mkRaw "msg-1" "05friend" 0) false;
             EvSentFailure "msg-1" (mkError "network down") ]
           emptyWorld.
Proof.
  split.
  - apply (nonDurable_failure_needs_raw_message
             (exampleSender None true false false)
             emptyWorld plainMessage 0 (mkPubKey "05friend"))
      with (e := mkError "cannot encode").
    reflexivity.
  - destruct (nonDurable_failure_needs_raw_message
                (exampleSender None false true false)
                emptyWorld plainMessage 0 (mkPubKey "05friend"))
      as (_ & _ & Hrejected & _).
    rewrite (Hrejected (mkRaw "msg-1" "05friend" 0) (mkError "network down")
               eq_refl eq_refl).
    reflexivity.
Defined.

Lemma self_send_without_sync_is_dropped_witness :
  process (exampleSender None false false false)
    (mkPubKey "05us") plainMessage 0 (Some 3%nat) false emptyWorld
  = (Ok tt,
     emit [EvLog LogWarn "Dropping message in process() to be sent to ourself"]
          emptyWorld).
Proof.
  apply (self_send_without_sync_is_dropped
           (exampleSender None false false false)
           emptyWorld (mkPubKey "05us") (mkPubKey "05us") plainMessage 0
           (Some 3%nat) false);
    reflexivity.
Defined.

Lemma sendSyncMessage_targets_ourselves_witness :
  pendingMessageCache
    (sendSyncMessage (exampleSender None false false false)
       0 (Some syncedMessage) None emptyWorld).2
  = [mkRaw "msg-2" "05us" 0]
  ∧ jobQueue_has "msg-2"
      (default []
         (jobQueues (sendSyncMessage (exampleSender None false false false)
                       0 (Some syncedMessage) None emptyWorld).2
          !! "05us"))
    = true.
Proof.
  destruct (sendSyncMessage_targets_ourselves
              (exampleSender None false false false) emptyWorld 0 None)
    as (_ & _ & H).
  destruct (H syncedMessage (or_intror eq_refl)) as [_ Hadmit].
  destruct (Hadmit eq_refl) as [Hcache Hqueue].
  split; [exact Hcache|]. apply Hqueue. reflexivity.
Defined.

(** ** processPending *)

Section Pending.
Context (W : Collaborators).

Local Ltac finish :=
  unfold emit, set_cache, set_callbacks; cbn; rewrite <- ?app_assoc; cbn;
  repeat split; reflexivity.


End Pending.


(** The scenario of an empty queue and one cached message: once the queue
    has drained after [processPending], the message is gone from the cache,
    the success handler has run once with the timestamp of the send, and the
    callback has been called and cleared. *)
Example processPending_then_drain :
  (bind (processPending (mkPubKey "05friend") false)
        (λ _, drain (exampleSender None false false false) (mkPubKey "05friend")))
    worldWithPending
  = (Ok tt,
     mkWorld [] ∅ {[ "05friend" := [] ]}
             [ EvSend pendingRaw false;
               EvSentSuccess pendingRaw 1000;
               EvCallback 7%nat pendingRaw;
               EvCacheRemove "msg-1" ]).
Proof. vm_compute. reflexivity. Qed.


(** ** More on the job queue *)

Lemma fold_enqueue_queued f msgs : ∀ q,
  Forall (λ m, jobQueue_has (identifier m) q = true) msgs →
  fold_left (enqueueMessage f) msgs q = q.
Proof.
  induction msgs as [|m msgs IH]; intros q Hall; [done|].
  inversion Hall as [|?? Hm Hrest]; subst. cbn [fold_left].
  assert (Hq : enqueueMessage f q m = q).
  { unfold enqueueMessage. by rewrite Hm. }
  rewrite Hq. by apply IH.
Qed.

(** What [processPending] adds to a queue: the new jobs follow the old
    ones, they are for cached messages in cache order, each under the
    identifier of its message and with the given flag. *)
Lemma fold_enqueue_appends f msgs : ∀ q,
  ∃ added,
    fold_left (enqueueMessage f) msgs q = q ++ added
    ∧ (job_message ∘ snd <$> added) `sublist_of` msgs
    ∧ Forall (λ j, fst j = identifier (job_message (snd j))
                   ∧ job_isSyncMessage (snd j) = f) added
    ∧ (NoDup (fst <$> q) → NoDup (fst <$> (q ++ added))).
Proof.
  induction msgs as [|m msgs IH]; intros q.
  - exists []. rewrite app_nil_r. repeat split; [constructor|constructor|done].
  - cbn [fold_left]. destruct (IH (enqueueMessage f q m)) as (added & -> & Hsub & Hall & Hdup).
    unfold enqueueMessage, addWithId in *.
    destruct (jobQueue_has (identifier m) q) eqn:Hhas; cbn [negb] in *.
    + exists added. repeat split; try done. by constructor.
    + exists ((identifier m, mkJob m f) :: added). rewrite <- app_assoc in *.
      split; [done|]. split; [by constructor|]. split; [by constructor|].
      intros Hq. apply Hdup. rewrite fmap_app. apply NoDup_app.
      split; [done|]. split; [|apply NoDup_singleton].
      intros id Hin Hid%list_elem_of_singleton. cbn in Hid. subst id.
      apply list_elem_of_fmap in Hin as ([id' job] & Hid & Hin). cbn in Hid.
      assert (jobQueue_has (identifier m) q = true); [|congruence].
      unfold jobQueue_has. apply existsb_exists. exists (id', job).
      split; [by apply list_elem_of_In|]. cbn. by apply String.eqb_eq.
Qed.

Lemma processPending_queueOf dev isSyncMessage w k :
  queueOf k (processPending dev isSyncMessage w).2
  = if decide (key dev = k)
    then fold_left (enqueueMessage isSyncMessage) (getForDevice dev w) (queueOf k w)
    else queueOf k w.
Proof.
  rewrite processPending_unfold. unfold queueOf. cbn.
  case_decide as Hk.
  - subst k. by rewrite lookup_insert_eq.
  - by rewrite lookup_insert_ne.
Qed.

(** X5: [processPending] is safe to repeat: a second call for the same
    destination, with either flag, finds every cached message already
    queued and changes nothing. *)
Theorem processPending_twice_is_once (w : World) (dev : PubKey)
    (isSyncMessage again : bool) :
  processPending dev again (processPending dev isSyncMessage w).2
  = (Ok tt, (processPending dev isSyncMessage w).2).
Proof.
  rewrite (processPending_unfold dev again).
  rewrite (processPending_unfold dev isSyncMessage). cbn [snd].
  f_equal. unfold set_jobQueues, getForDevice. cbn.
  rewrite lookup_insert_eq, insert_insert_eq. cbn.
  rewrite fold_enqueue_queued; [done|].
  apply Forall_forall. intros m Hin.
  rewrite jobQueue_has_fold. apply orb_true_iff. right.
  apply existsb_exists. exists m. split; [by apply list_elem_of_In|].
  apply String.eqb_refl.
Qed.

(** X6: [processPending] keeps the queue in order and free of duplicates:
    the jobs already queued stay in front, the new ones follow in the order
    of the cache, each under the identifier of its own message and with the
    flag of the call, and identifiers that were pairwise distinct stay
    so.  The queues of other destinations are not touched. *)
Theorem processPending_appends_in_cache_order (w : World) (dev : PubKey)
    (isSyncMessage : bool) :
  ∃ added,
    queueOf (key dev) (processPending dev isSyncMessage w).2
    = queueOf (key dev) w ++ added
    ∧ (job_message ∘ snd <$> added) `sublist_of` getForDevice dev w
    ∧ Forall (λ j, fst j = identifier (job_message (snd j))
                   ∧ job_isSyncMessage (snd j) = isSyncMessage) added
    ∧ (NoDup (fst <$> queueOf (key dev) w)
       → NoDup (fst <$> queueOf (key dev) (processPending dev isSyncMessage w).2))
    ∧ (∀ k, k ≠ key dev →
            queueOf k (processPending dev isSyncMessage w).2 = queueOf k w).
Proof.
  destruct (fold_enqueue_appends isSyncMessage (getForDevice dev w)
              (queueOf (key dev) w)) as (added & Hq & Hsub & Hall & Hdup).
  exists added. rewrite !processPending_queueOf.
  rewrite decide_True by done. rewrite Hq.
  repeat split; try done.
  intros k Hk. rewrite processPending_queueOf. by rewrite decide_False.
Qed.

(** [processPending] never takes an identifier out of a queue. *)
Lemma processPending_keeps_queued dev isSyncMessage w k id :
  jobQueue_has id (queueOf k w) = true →
  jobQueue_has id (queueOf k (processPending dev isSyncMessage w).2) = true.
Proof.
  intros Hhas. rewrite processPending_queueOf. case_decide; [|done].
  by rewrite jobQueue_has_fold, Hhas.
Qed.

Lemma processPending_queues_device dev isSyncMessage w m :
  In m (pendingMessageCache w) →
  device m = key dev →
  jobQueue_has (identifier m) (queueOf (key dev) (processPending dev isSyncMessage w).2)
  = true.
Proof.
  intros Hin Hdev. rewrite processPending_queueOf, decide_True by done.
  rewrite jobQueue_has_fold. apply orb_true_iff. right.
  apply existsb_exists. exists m. split; [|apply String.eqb_refl].
  unfold getForDevice. apply filter_In. split; [done|]. by apply String.eqb_eq.
Qed.

Lemma processPendingEach_effect devices : ∀ w,
  ∃ rs,
    (processPendingEach devices w).1 = Ok rs
    ∧ pendingMessageCache (processPendingEach devices w).2 = pendingMessageCache w
    ∧ callbacks (processPendingEach devices w).2 = callbacks w
    ∧ trace (processPendingEach devices w).2 = trace w
    ∧ (∀ k id, jobQueue_has id (queueOf k w) = true →
               jobQueue_has id (queueOf k (processPendingEach devices w).2) = true)
    ∧ (∀ m dev, In m (pendingMessageCache w) → In dev devices → device m = key dev →
                jobQueue_has (identifier m)
                  (queueOf (key dev) (processPendingEach devices w).2) = true).
Proof.
  induction devices as [|dev rest IH]; intros w.
  - exists []. repeat split; try done.
  - cbn [processPendingEach]. cbv beta delta [bind ret].
    rewrite (processPending_unfold dev false w).
    set (w1 := set_jobQueues _ w).
    assert (Hw1 : w1 = (processPending dev false w).2)
      by (by rewrite processPending_unfold).
    destruct (IH w1) as (rs & Hok & Hc & Hb & Ht & Hkeep & Hqueued).
    destruct (processPendingEach rest w1) as [r1 w2].
    cbn [fst snd] in *. subst r1. cbv beta iota. cbn [fst snd].
    exists (tt :: rs). split; [done|]. split; [by rewrite Hc|].
    split; [by rewrite Hb|]. split; [by rewrite Ht|]. split.
    + intros k id Hhas. apply Hkeep. rewrite Hw1.
      by apply processPending_keeps_queued.
    + intros m dev' Hin [<-|Hdev'] Hm.
      * apply Hkeep. rewrite Hw1. by apply processPending_queues_device.
      * by apply Hqueued.
Qed.

(** X7: [processAllPending] sends nothing and leaves the cache as it is,
    and afterwards every cached message is queued under its own destination:
    this is what re-admits the messages of an earlier run. *)
Theorem processAllPending_queues_every_cached_message (w : World) :
  isOk (processAllPending w).1 = true
  ∧ pendingMessageCache (processAllPending w).2 = pendingMessageCache w
  ∧ trace (processAllPending w).2 = trace w
  ∧ ∀ m, In m (pendingMessageCache w) →
         jobQueue_has (identifier m) (queueOf (device m) (processAllPending w).2)
         = true.
Proof.
  unfold processAllPending, bind. cbn.
  destruct (processPendingEach_effect (getDevices w) w)
    as (rs & Hok & Hc & _ & Ht & _ & Hqueued).
  rewrite Hok. repeat split; try done.
  intros m Hin. apply (Hqueued m (PubKey_cast (device m))); [done| |done].
  unfold getDevices. apply list_elem_of_In, list_elem_of_fmap.
  exists (device m). split; [done|].
  apply elem_of_remove_dups, list_elem_of_fmap. exists m.
  split; [done|]. by apply list_elem_of_In.
Qed.

(** ** Admission *)

Section Admission.
Context (W : Collaborators).

(** What [process] does with a message it does not drop: it logs when the
    message is for ourselves, appends the message to the cache and registers
    the callback, and, unless persisting the cache fails, runs
    [processPending] for the destination with the sync flag. *)
Lemma process_admitted (w : World) (destinationPk : PubKey) (message : ContentMessage)
    (ns : Z) (sentCb : option Callback) (isGroup : bool) :
  (addressedToUs W destinationPk = true → isSyncMessage W message = true) →
  let raw := cachedAs destinationPk message ns in
  let logs := if addressedToUs W destinationPk
              then [EvLog LogInfo "OutgoingMessageQueue: Processing sync message"]
              else [] in
  let w1 := mkWorld (pendingMessageCache w ++ [raw])
                    (match sentCb with
                     | Some cb => <[msg_identifier message := cb]> (callbacks w)
                     | None => callbacks w
                     end)
                    (jobQueues w)
                    (trace w ++ logs ++ [EvCacheAdd raw]) in
  process W destinationPk message ns sentCb isGroup w
  = match saveToDB W (trace w ++ logs) with
    | Ok _ => (Ok tt, (processPending destinationPk (addressedToUs W destinationPk) w1).2)
    | Throw e => (Throw e, w1)
    end.
Proof.
  intros Hsync raw logs w1. subst raw logs w1. unfold cachedAs.
  unfold process. fold (addressedToUs W destinationPk).
  destruct (addressedToUs W destinationPk).
  - rewrite (Hsync eq_refl).
    change (bind (log ?l ?t ;; ret ?x) ?k w) with (k x (emit [EvLog l t] w)).
    cbv beta iota. unfold bind, cache_add, void, emit, set_callbacks, set_cache.
    cbn -[processPending].
    rewrite <- !app_assoc. cbn [app].
    destruct (saveToDB W _) as [[]|e]; [|done].
    by rewrite processPending_unfold.
  - change (bind (ret ?x) ?k w) with (k x w).
    cbv beta iota. unfold bind, cache_add, void, emit, set_callbacks, set_cache.
    cbn -[processPending].
    rewrite app_nil_r.
    destruct (saveToDB W _) as [[]|e]; [|done].
    by rewrite processPending_unfold.
Qed.

Lemma sendToPubKey_admits (w : World) (destinationPubKey : PubKey)
    (message : ContentMessage) (ns : Z) (sentCb : option Callback) (isGroup : bool) :
  truthy_string (syncTarget message) = false →
  addressedToUs W destinationPubKey = false →
  let raw := cachedAs destinationPubKey message ns in
  let w1 := mkWorld (pendingMessageCache w ++ [raw])
                    (match sentCb with
                     | Some cb => <[msg_identifier message := cb]> (callbacks w)
                     | None => callbacks w
                     end)
                    (jobQueues w)
                    (trace w ++ [EvCacheAdd raw]) in
  sendToPubKey W destinationPubKey message ns sentCb isGroup w
  = match saveToDB W (trace w) with
    | Ok _ => (Ok tt, (processPending destinationPubKey false w1).2)
    | Throw e => (Throw e, w1)
    end.
Proof.
  intros Hplain Hother raw w1. subst raw w1. unfold sendToPubKey. rewrite Hplain.
  rewrite process_admitted by (by rewrite Hother). rewrite Hother. cbn [app].
  by rewrite app_nil_r.
Qed.

Lemma sendToPubKey_admits_cache (w : World) (destinationPubKey : PubKey)
    (message : ContentMessage) (ns : Z) (sentCb : option Callback) (isGroup : bool) :
  truthy_string (syncTarget message) = false →
  addressedToUs W destinationPubKey = false →
  pendingMessageCache (sendToPubKey W destinationPubKey message ns sentCb isGroup w).2
  = pendingMessageCache w ++ [cachedAs destinationPubKey message ns].
Proof.
  intros Hplain Hother. rewrite sendToPubKey_admits by done.
  destruct (saveToDB W (trace w)) as [[]|e]; [|done].
  by rewrite processPending_unfold.
Qed.

(** X8: [sendToPubKey] refuses a message that has a sync target and leaves
    everything as it was.  Any other message, for a destination that is not
    ourselves, is appended to the cache under that destination with its
    callback registered; the call itself sends nothing, and when the cache
    has been persisted the message is queued for that destination, with a
    job that is not flagged as a sync message if its identifier was free. *)
Theorem sendToPubKey_caches_then_queues (w : World) (destinationPubKey : PubKey)
    (message : ContentMessage) (ns : Z) (sentCb : option Callback) (isGroup : bool) :
  (truthy_string (syncTarget message) = true →
   sendToPubKey W destinationPubKey message ns sentCb isGroup w
   = (Throw (mkError "SyncMessage needs to be sent with sendSyncMessage"), w))
  ∧ (truthy_string (syncTarget message) = false →
     addressedToUs W destinationPubKey = false →
     let after := (sendToPubKey W destinationPubKey message ns sentCb isGroup w).2 in
     pendingMessageCache after
     = pendingMessageCache w ++ [cachedAs destinationPubKey message ns]
     ∧ List.filter isTransport (trace after) = List.filter isTransport (trace w)
     ∧ (∀ cb, sentCb = Some cb → callbacks after !! msg_identifier message = Some cb)
     ∧ ((sendToPubKey W destinationPubKey message ns sentCb isGroup w).1 = Ok tt →
        jobQueue_has (msg_identifier message) (queueOf (key destinationPubKey) after)
        = true
        ∧ (jobQueue_has (msg_identifier message) (queueOf (key destinationPubKey) w)
           = false →
           ∃ job,
             jobsFor (msg_identifier message) (queueOf (key destinationPubKey) after)
             = [(msg_identifier message, job)]
             ∧ job_isSyncMessage job = false))).
Proof.
  split.
  - intros Hsync. unfold sendToPubKey. by rewrite Hsync.
  - intros Hplain Hother after. subst after.
    rewrite sendToPubKey_admits by done.
    destruct (saveToDB W (trace w)) as [[]|e]; cbn [fst snd].
    + split; [by rewrite processPending_unfold|]. split.
      { rewrite processPending_unfold. cbn. rewrite List.filter_app. cbn.
        by rewrite app_nil_r. }
      split.
      { intros cb ->. rewrite processPending_unfold. cbn. apply lookup_insert_eq. }
      intros _. rewrite processPending_queueOf, decide_True by done.
      unfold queueOf. cbn [jobQueues].
      match goal with |- context [fold_left _ ?msgs _] =>
        assert (Hin : In (cachedAs destinationPubKey message ns) msgs)
      end.
      { apply filter_In. split.
        - apply in_or_app. right. by left.
        - apply String.eqb_refl. }
      split.
      * rewrite jobQueue_has_fold. apply orb_true_iff. right.
        apply existsb_exists. eexists. split; [exact Hin|]. apply String.eqb_refl.
      * intros Hfresh.
        destruct (jobsFor_fold_fresh false _ _ _ Hin Hfresh)
          as (job & Hjobs & Hflag & _ & _).
        exists job. by split.
    + cbn. split; [done|]. split.
      { rewrite List.filter_app. cbn. by rewrite app_nil_r. }
      split; [|discriminate].
      intros cb ->. apply lookup_insert_eq.
Qed.

(** X9: a sync message sent with [sendSyncMessage], once the cache is
    persisted, is queued under our own key with a job flagged as a sync
    message, provided our cached public key is the one the string names,
    [MessageSender.isSyncMessage] recognises the message and its identifier
    was free. *)
Theorem sendSyncMessage_job_is_flagged (w : World) (ns : Z)
    (message : ContentMessage) (sentCb : option Callback) :
  getOurPubKeyFromCache W = Some (PubKey_cast (getOurPubKeyStrFromCache W)) →
  instanceofUnsendMessage message = true ∨ truthy_string (syncTarget message) = true →
  isSyncMessage W message = true →
  jobQueue_has (msg_identifier message) (queueOf (getOurPubKeyStrFromCache W) w) = false →
  (sendSyncMessage W ns (Some message) sentCb w).1 = Ok tt →
  ∃ job,
    jobsFor (msg_identifier message)
      (queueOf (getOurPubKeyStrFromCache W)
         (sendSyncMessage W ns (Some message) sentCb w).2)
    = [(msg_identifier message, job)]
    ∧ job_isSyncMessage job = true
    ∧ device (job_message job) = getOurPubKeyStrFromCache W.
Proof.
  intros Hus Hguard Hsync Hfresh.
  assert (Hto : addressedToUs W (PubKey_cast (getOurPubKeyStrFromCache W)) = true).
  { unfold addressedToUs. rewrite Hus. apply String.eqb_refl. }
  assert (Hgo : sendSyncMessage W ns (Some message) sentCb w
                = process W (PubKey_cast (getOurPubKeyStrFromCache W))
                    message ns sentCb false w).
  { unfold sendSyncMessage. destruct Hguard as [-> | ->]; [done|].
    by rewrite andb_false_r. }
  rewrite Hgo, process_admitted by done. rewrite Hto.
  destruct (saveToDB W _) as [[]|e]; [|discriminate]. intros _. cbn [snd].
  rewrite processPending_queueOf, decide_True by done.
  match goal with |- context [fold_left _ (getForDevice ?d ?w1) _] =>
    assert (Hin : In (cachedAs (PubKey_cast (getOurPubKeyStrFromCache W)) message ns)
                     (getForDevice d w1))
  end.
  { unfold getForDevice. cbn. apply filter_In. split.
    - apply in_or_app. right. by left.
    - apply String.eqb_refl. }
  destruct (jobsFor_fold_fresh true _ (queueOf (getOurPubKeyStrFromCache W) w) _ Hin Hfresh)
    as (job & Hjobs & Hflag & Hmsg & _).
  exists job. split; [exact Hjobs|]. split; [done|].
  unfold getForDevice in Hmsg. apply filter_In in Hmsg as [_ Hdev].
  by apply String.eqb_eq in Hdev.
Qed.

(** X10: [sendToGroup] sends to the explicit group key when one is given,
    and otherwise to the group id of the message, which only closed group
    and expiration timer messages have.  Without a destination it throws and
    touches nothing; with one, a message without sync target for a group
    that is not ourselves ends up cached under the key of that group. *)
Theorem sendToGroup_resolves_destination (w : World) (message : ClosedGroupMessageType)
    (ns : Z) (sentCb : option Callback) (groupPubKey : option PubKey) :
  (∀ k, groupPubKey = Some k → groupDestination message groupPubKey = Some k)
  ∧ (groupPubKey = None →
     groupDestination message groupPubKey
     = if instanceofGroupOrTimerUpdate message then groupId message else None)
  ∧ (groupDestination message groupPubKey = None →
     sendToGroup W message ns sentCb groupPubKey w
     = (Throw (mkError "Invalid group message passed in sendToGroup."), w))
  ∧ (∀ d, groupDestination message groupPubKey = Some d →
          truthy_string (syncTarget (group_content message)) = false →
          addressedToUs W d = false →
          pendingMessageCache (sendToGroup W message ns sentCb groupPubKey w).2
          = pendingMessageCache w ++ [cachedAs d (group_content message) ns]).
Proof.
  split; [|split; [|split]].
  - intros k ->. unfold groupDestination. by destruct (instanceofGroupOrTimerUpdate _).
  - intros ->. unfold groupDestination. by destruct (instanceofGroupOrTimerUpdate _).
  - intros Hnone. unfold sendToGroup. by rewrite Hnone.
  - intros d Hd Hplain Hother. unfold sendToGroup. rewrite Hd.
    by apply sendToPubKey_admits_cache.
Qed.

(** X11: [sendToGroupV2] throws and touches nothing when the message has
    no destination; otherwise a message without sync target for a group that
    is not ourselves ends up cached under the destination of the message and
    in the namespace of the message. *)
Theorem sendToGroupV2_uses_message_destination (w : World) (message : GroupV2Message)
    (sentCb : option Callback) :
  (truthy_string (destination message) = false →
   sendToGroupV2 W message sentCb w
   = (Throw (mkError "Invalid group message passed in sendToGroupV2."), w))
  ∧ (∀ d, destination message = Some d →
          d ≠ EmptyString →
          truthy_string (syncTarget (v2_content message)) = false →
          addressedToUs W (PubKey_cast d) = false →
          pendingMessageCache (sendToGroupV2 W message sentCb w).2
          = pendingMessageCache w
            ++ [mkRaw (msg_identifier (v2_content message)) d (v2_namespace message)]).
Proof.
  split.
  - intros Hnone. unfold sendToGroupV2. by rewrite Hnone.
  - intros d Hd Hne Hplain Hother. unfold sendToGroupV2. rewrite Hd. cbn.
    apply String.eqb_neq in Hne. rewrite Hne. cbn.
    by apply sendToPubKey_admits_cache.
Qed.

End Admission.

Lemma processPending_appends_in_cache_order_witness :
  NoDup (fst <$> queueOf "05friend"
                   (processPending (mkPubKey "05friend") false worldWithPending).2).
Proof.
  destruct (processPending_appends_in_cache_order
              worldWithPending (mkPubKey "05friend") false)
    as (added & _ & _ & _ & Hdup & _).
  apply Hdup. vm_compute. constructor.
Defined.

Lemma processAllPending_queues_every_cached_message_witness :
  jobQueue_has "msg-1" (queueOf "05friend" (processAllPending worldWithPending).2) = true.
Proof.
  destruct (processAllPending_queues_every_cached_message worldWithPending)
    as (_ & _ & _ & Hqueued).
  apply (Hqueued pendingRaw). left. reflexivity.
Defined.

Lemma sendToPubKey_caches_then_queues_witness :
  pendingMessageCache
    (sendToPubKey (exampleSender None false false false)
       (mkPubKey "05friend") plainMessage 0 (Some 3%nat) false emptyWorld).2
  = [mkRaw "msg-1" "05friend" 0]
  ∧ jobQueue_has "msg-1"
      (queueOf "05friend"
         (sendToPubKey (exampleSender None false false false)
            (mkPubKey "05friend") plainMessage 0 (Some 3%nat) false emptyWorld).2)
    = true.
Proof.
  destruct (sendToPubKey_caches_then_queues
              (exampleSender None false false false) emptyWorld
              (mkPubKey "05friend") plainMessage 0 (Some 3%nat) false)
    as [_ H].
  destruct (H eq_refl eq_refl) as (Hcache & _ & _ & Hqueue).
  split; [exact Hcache|].
  destruct (Hqueue eq_refl) as [Hhas _]. exact Hhas.
Defined.

Lemma sendSyncMessage_job_is_flagged_witness :
  ∃ job,
    jobsFor "msg-2"
      (queueOf "05us"
         (sendSyncMessage (exampleSender None false false false)
            0 (Some syncedMessage) None emptyWorld).2)
    = [("msg-2", job)]
    ∧ job_isSyncMessage job = true
    ∧ device (job_message job) = "05us".
Proof.
  apply (sendSyncMessage_job_is_flagged
           (exampleSender None false false false) emptyWorld 0 syncedMessage None);
    [reflexivity | right; reflexivity | reflexivity | reflexivity | reflexivity].
Defined.

Lemma sendToGroup_resolves_destination_witness :
  pendingMessageCache
    (sendToGroup (exampleSender None false false false)
       (mkGroupMessage plainMessage true (Some (mkPubKey "05group"))) 0 None None
       emptyWorld).2
  = [mkRaw "msg-1" "05group" 0].
Proof.
  destruct (sendToGroup_resolves_destination
              (exampleSender None false false false) emptyWorld
              (mkGroupMessage plainMessage true (Some (mkPubKey "05group"))) 0 None None)
    as (_ & _ & _ & H).
  apply (H (mkPubKey "05group")); reflexivity.
Defined.

Lemma sendToGroupV2_uses_message_destination_witness :
  pendingMessageCache
    (sendToGroupV2 (exampleSender None false false false)
       (mkGroupV2Message plainMessage (Some "03group") 11) None emptyWorld).2
  = [mkRaw "msg-1" "03group" 11].
Proof.
  destruct (sendToGroupV2_uses_message_destination
              (exampleSender None false false false) emptyWorld
              (mkGroupV2Message plainMessage (Some "03group") 11) None)
    as [_ H].
  apply (H "03group"); [reflexivity | discriminate | reflexivity | reflexivity].
Defined.

(** ** Sends that skip the queue *)

Section Direct.
Context (W : Collaborators).

Local Ltac run :=
  cbv beta delta [bind try_catch perform log throw ret liftR
                  openGroupFailure blindedRequestFailure];
  cbn zeta.

Local Ltac reported :=
  split; [by rewrite ?emit_emit|]; right; eexists _, _;
  split; [done|]; split; [done|]; by rewrite <- ?app_assoc.

Lemma sendToOpenGroupV2_settles (w : World) (blinded : bool) (filesToLink : list Z)
    (message : OpenGroupVisibleMessage) (roomInfos : OpenGroupRequestCommonType) :
  settlesThroughFailureHandler W (og_identifier message)
    (sendToOpenGroupV2 W blinded filesToLink message roomInfos) w.
Proof.
  unfold settlesThroughFailureHandler, sendToOpenGroupV2.
  destruct (reaction message) as [r|]; run.
  - destruct (sendSogsReactionOnionV4 W _ _ _ _ _) as [ok|e]; cbn.
    + exists [EvSendSogsReaction roomInfos r blinded]. split; [done|]. by left.
    + exists ([EvSendSogsReaction roomInfos r blinded; openGroupWarning roomInfos]
              ++ [EvSentFailure (og_identifier message) (reportedError e)]).
      reported.
  - destruct (sendToOpenGroupV2_transport W _ _ _ _ _) as [result|e]; cbn.
    + destruct (invalidServerId (serverId result)); cbn.
      * eexists ([_; openGroupWarning roomInfos] ++ [_]). reported.
      * destruct (handlePublicMessageSentSuccess W _ _ _ _) as [[]|e]; cbn.
        -- eexists [_; _]. split; [by rewrite !emit_emit|]. by left.
        -- eexists ([_; _; openGroupWarning roomInfos] ++ [_]). reported.
    + eexists ([_; openGroupWarning roomInfos] ++ [_]). reported.
Qed.

(** The blinded request settles through the failure handler as well,
    unless what its [try] threw was [undefined] or [null]: then reading the
    message for the warning throws, and that [TypeError] is the outcome. *)
Lemma sendToOpenGroupV2BlindedRequest_settles (w : World) (encryptedContent : bytes)
    (message : OpenGroupVisibleMessage) (recipientBlindedId : string)
    (roomInfos : OpenGroupRequestCommonType) :
  let request := sendToOpenGroupV2BlindedRequest W encryptedContent message
                   recipientBlindedId roomInfos in
  let sent := EvSendToOpenGroupV2BlindedRequest roomInfos recipientBlindedId in
  settlesThroughFailureHandler W (og_identifier message) request w
  ∨ ∃ e typeError,
      messageOf e = Throw typeError
      ∧ ((sendToOpenGroupV2BlindedRequest_transport W (trace w) encryptedContent
            roomInfos recipientBlindedId = Throw e
          ∧ request w = (Throw typeError, emit [sent] w))
         ∨ ∃ result,
             sendToOpenGroupV2BlindedRequest_transport W (trace w) encryptedContent
               roomInfos recipientBlindedId = Ok result
             ∧ handlePublicMessageSentSuccess W (trace w ++ [sent])
                 (og_identifier message) (blinded_serverId result)
                 (Some (serverTimestamp result)) = Throw e
             ∧ request w
               = (Throw typeError,
                  emit [sent;
                        EvPublicSentSuccess (og_identifier message)
                          (blinded_serverId result) (Some (serverTimestamp result))]
                       w)).
Proof.
  intros request sent. subst request sent.
  unfold settlesThroughFailureHandler, sendToOpenGroupV2BlindedRequest.
  destruct (isBlinded W recipientBlindedId); cbn [negb]; run.
  - destruct (sendToOpenGroupV2BlindedRequest_transport W _ _ _ _)
      as [result|e] eqn:Hsend; cbn.
    + destruct (invalidServerId (blinded_serverId result)); cbn.
      * left. eexists ([_; openGroupWarning roomInfos] ++ [_]). reported.
      * destruct (handlePublicMessageSentSuccess W _ _ _ _) as [[]|e] eqn:Hhandled;
          cbn.
        -- left. eexists [_; _]. split; [by rewrite !emit_emit|]. by left.
        -- destruct (messageOf e) as [text|typeError] eqn:Hmessage; cbn.
           ++ left. eexists ([_; _; openGroupWarning roomInfos] ++ [_]). reported.
           ++ right. exists e, typeError. split; [done|]. right. exists result.
              split; [done|]. split; [done|]. by rewrite !emit_emit.
    + destruct (messageOf e) as [text|typeError] eqn:Hmessage; cbn.
      * left. eexists ([_; openGroupWarning roomInfos] ++ [_]). reported.
      * right. exists e, typeError. split; [done|]. by left.
  - cbn. left. eexists ([openGroupWarning roomInfos] ++ [_]). reported.
Qed.

(** X12: the two open group sends skip the cache and the queues.
    [sendToOpenGroupV2] settles through the failure handler: it resolves
    without calling it, or calls it once as the last thing it does, and it
    rejects only when that call rejects, with the error of that call.
    [sendToOpenGroupV2BlindedRequest] does the same unless the transport or
    the success handler rejected with [undefined] or [null]: then it rejects
    with the [TypeError] of reading the message of that value, right after
    the rejected call and without calling the failure handler. *)
Theorem open_group_sends_settle_through_failure_handler (w : World)
    (message : OpenGroupVisibleMessage) (roomInfos : OpenGroupRequestCommonType) :
  (∀ blinded filesToLink,
     let send := sendToOpenGroupV2 W blinded filesToLink message roomInfos in
     settlesThroughFailureHandler W (og_identifier message) send w
     ∧ pendingMessageCache (send w).2 = pendingMessageCache w
     ∧ callbacks (send w).2 = callbacks w
     ∧ jobQueues (send w).2 = jobQueues w)
  ∧ (∀ encryptedContent recipientBlindedId,
       let request := sendToOpenGroupV2BlindedRequest W encryptedContent message
                        recipientBlindedId roomInfos in
       let sent := EvSendToOpenGroupV2BlindedRequest roomInfos recipientBlindedId in
       (settlesThroughFailureHandler W (og_identifier message) request w
        ∨ ∃ e typeError,
            messageOf e = Throw typeError
            ∧ ((sendToOpenGroupV2BlindedRequest_transport W (trace w)
                  encryptedContent roomInfos recipientBlindedId = Throw e
                ∧ request w = (Throw typeError, emit [sent] w))
               ∨ ∃ result,
                   sendToOpenGroupV2BlindedRequest_transport W (trace w)
                     encryptedContent roomInfos recipientBlindedId = Ok result
                   ∧ handlePublicMessageSentSuccess W (trace w ++ [sent])
                       (og_identifier message) (blinded_serverId result)
                       (Some (serverTimestamp result)) = Throw e
                   ∧ request w
                     = (Throw typeError,
                        emit [sent;
                              EvPublicSentSuccess (og_identifier message)
                                (blinded_serverId result)
                                (Some (serverTimestamp result))]
                             w)))
       ∧ pendingMessageCache (request w).2 = pendingMessageCache w
       ∧ callbacks (request w).2 = callbacks w
       ∧ jobQueues (request w).2 = jobQueues w).
Proof.
  split.
  - intros blinded filesToLink send.
    pose proof (sendToOpenGroupV2_settles w blinded filesToLink message roomInfos) as H.
    fold send in H. split; [exact H|].
    destruct H as (evs & -> & _). done.
  - intros encryptedContent recipientBlindedId request sent.
    pose proof (sendToOpenGroupV2BlindedRequest_settles w encryptedContent message
                  recipientBlindedId roomInfos) as H.
    cbv zeta in H. fold request sent in H. split; [exact H|].
    destruct H as [(evs & -> & _)|(e & typeError & _ & [[_ ->]|(result & _ & _ & ->)])];
      done.
Qed.

(** X13: when the open group transport rejects, [sendToOpenGroupV2] logs
    the warning and hands to the failure handler what the transport rejected
    with, or a new error when that value is falsy; the outcome of the send
    is the outcome of that call, and nothing else happens.  The blinded
    request does the same, except when the value is [undefined] or [null]:
    then it rejects with the [TypeError] of reading its message, and neither
    the warning nor the failure handler follows the transport call. *)
Theorem open_group_transport_rejection_is_reported (w : World)
    (message : OpenGroupVisibleMessage) (roomInfos : OpenGroupRequestCommonType)
    (e : Error) :
  (∀ blinded filesToLink,
     reaction message = None →
     sendToOpenGroupV2_transport W (trace w) message roomInfos blinded filesToLink
     = Throw e →
     let sent := EvSendToOpenGroupV2 (og_identifier message) roomInfos blinded
                   filesToLink in
     sendToOpenGroupV2 W blinded filesToLink message roomInfos w
     = (handleMessageSentFailure W (trace w ++ [sent; openGroupWarning roomInfos])
          (og_identifier message) (reportedError e),
        emit [ sent; openGroupWarning roomInfos;
               EvSentFailure (og_identifier message) (reportedError e) ] w))
  ∧ (∀ encryptedContent recipientBlindedId,
       isBlinded W recipientBlindedId = true →
       sendToOpenGroupV2BlindedRequest_transport W (trace w) encryptedContent
         roomInfos recipientBlindedId = Throw e →
       let sent := EvSendToOpenGroupV2BlindedRequest roomInfos recipientBlindedId in
       sendToOpenGroupV2BlindedRequest W encryptedContent message
         recipientBlindedId roomInfos w
       = match messageOf e with
         | Ok _ =>
             (handleMessageSentFailure W
                (trace w ++ [sent; openGroupWarning roomInfos])
                (og_identifier message) (reportedError e),
              emit [ sent; openGroupWarning roomInfos;
                     EvSentFailure (og_identifier message) (reportedError e) ] w)
         | Throw typeError => (Throw typeError, emit [sent] w)
         end).
Proof.
  split.
  - intros blinded filesToLink Hreaction Hsend sent. subst sent.
    unfold sendToOpenGroupV2. rewrite Hreaction. run. rewrite Hsend. cbn.
    by rewrite !emit_emit, <- !app_assoc.
  - intros encryptedContent recipientBlindedId Hblinded Hsend sent. subst sent.
    unfold sendToOpenGroupV2BlindedRequest. rewrite Hblinded. cbn [negb]. run.
    rewrite Hsend. cbn. destruct (messageOf e); cbn; [|done].
    by rewrite !emit_emit, <- !app_assoc.
Qed.

(** X14: when the transport answers with a server id that passes the
    check, the success handler is called with the identifier of the message,
    that server id and the timestamp of the answer.  If the handler resolves,
    the send resolves and nothing else happens.  If the handler rejects,
    [sendToOpenGroupV2] logs the warning and hands what the handler rejected
    with, or a new error when that is falsy, to the failure handler; the
    blinded request does the same, except that for [undefined] or [null] it
    rejects with the [TypeError] of reading its message and nothing follows
    the success handler. *)
Theorem valid_server_id_reaches_success_handler (w : World)
    (message : OpenGroupVisibleMessage) (roomInfos : OpenGroupRequestCommonType) :
  (∀ blinded filesToLink result,
     reaction message = None →
     sendToOpenGroupV2_transport W (trace w) message roomInfos blinded filesToLink
     = Ok result →
     invalidServerId (serverId result) = false →
     let sent := EvSendToOpenGroupV2 (og_identifier message) roomInfos blinded
                   filesToLink in
     let handled := EvPublicSentSuccess (og_identifier message) (serverId result)
                      (sentTimestamp result) in
     match handlePublicMessageSentSuccess W (trace w ++ [sent]) (og_identifier message)
             (serverId result) (sentTimestamp result) with
     | Ok _ =>
         sendToOpenGroupV2 W blinded filesToLink message roomInfos w
         = (Ok tt, emit [sent; handled] w)
     | Throw e =>
         sendToOpenGroupV2 W blinded filesToLink message roomInfos w
         = (handleMessageSentFailure W
              (trace w ++ [sent; handled; openGroupWarning roomInfos])
              (og_identifier message) (reportedError e),
            emit [sent; handled; openGroupWarning roomInfos;
                  EvSentFailure (og_identifier message) (reportedError e)] w)
     end)
  ∧ (∀ encryptedContent recipientBlindedId result,
       isBlinded W recipientBlindedId = true →
       sendToOpenGroupV2BlindedRequest_transport W (trace w) encryptedContent
         roomInfos recipientBlindedId = Ok result →
       invalidServerId (blinded_serverId result) = false →
       let sent := EvSendToOpenGroupV2BlindedRequest roomInfos recipientBlindedId in
       let handled := EvPublicSentSuccess (og_identifier message)
                        (blinded_serverId result) (Some (serverTimestamp result)) in
       match handlePublicMessageSentSuccess W (trace w ++ [sent])
               (og_identifier message) (blinded_serverId result)
               (Some (serverTimestamp result)) with
       | Ok _ =>
           sendToOpenGroupV2BlindedRequest W encryptedContent message
             recipientBlindedId roomInfos w
           = (Ok tt, emit [sent; handled] w)
       | Throw e =>
           sendToOpenGroupV2BlindedRequest W encryptedContent message
             recipientBlindedId roomInfos w
           = match messageOf e with
             | Ok _ =>
                 (handleMessageSentFailure W
                    (trace w ++ [sent; handled; openGroupWarning roomInfos])
                    (og_identifier message) (reportedError e),
                  emit [sent; handled; openGroupWarning roomInfos;
                        EvSentFailure (og_identifier message) (reportedError e)] w)
             | Throw typeError => (Throw typeError, emit [sent; handled] w)
             end
       end).
Proof.
  split.
  - intros blinded filesToLink result Hreaction Hsend Hvalid sent handled.
    subst sent handled.
    unfold sendToOpenGroupV2. rewrite Hreaction. run. rewrite Hsend, Hvalid. cbn.
    destruct (handlePublicMessageSentSuccess W _ _ _ _) as [[]|e]; cbn;
      by rewrite !emit_emit, <- ?app_assoc.
  - intros encryptedContent recipientBlindedId result Hblinded Hsend Hvalid sent handled.
    subst sent handled.
    unfold sendToOpenGroupV2BlindedRequest. rewrite Hblinded. cbn [negb]. run.
    rewrite Hsend, Hvalid. cbn.
    destruct (handlePublicMessageSentSuccess W _ _ _ _) as [[]|e]; cbn;
      [by rewrite !emit_emit|].
    destruct (messageOf e); cbn; by rewrite !emit_emit, <- ?app_assoc.
Qed.

(** X15: a blinded request to a recipient id that is not blinded is never
    sent: the transport is not called, and the failure handler gets the
    error that says a blinded id is needed. *)
Theorem blinded_request_needs_blinded_recipient (w : World) (encryptedContent : bytes)
    (message : OpenGroupVisibleMessage) (recipientBlindedId : string)
    (roomInfos : OpenGroupRequestCommonType) :
  isBlinded W recipientBlindedId = false →
  (sendToOpenGroupV2BlindedRequest W encryptedContent message recipientBlindedId
     roomInfos w).2
  = emit [ openGroupWarning roomInfos;
           EvSentFailure (og_identifier message)
             (mkError "sendToOpenGroupV2BlindedRequest needs a blindedId") ] w
  ∧ List.filter isTransport
      (trace (sendToOpenGroupV2BlindedRequest W encryptedContent message
                recipientBlindedId roomInfos w).2)
    = List.filter isTransport (trace w).
Proof.
  intros Hplain. unfold sendToOpenGroupV2BlindedRequest. rewrite Hplain. cbn [negb].
  run. cbn. rewrite !emit_emit. split; [done|].
  unfold openGroupWarning. cbn. rewrite !List.filter_app. cbn. by rewrite !app_nil_r.
Qed.

(** X16: [sendToPubKeyNonDurably] skips the cache and the queues.  It
    resolves to a timestamp exactly when the conversion, the send and the
    success handler have all resolved; the timestamp is the one of the send,
    and these three calls are all that happened.  It rejects only when the
    failure handler, called last for the raw message, rejects. *)
Theorem nonDurable_timestamp_only_on_success (w : World) (message : ContentMessage)
    (ns : Z) (pubkey : PubKey) :
  let converted := EvToRawMessage pubkey (msg_identifier message) in
  let outcome := sendToPubKeyNonDurably W message ns pubkey w in
  (pendingMessageCache outcome.2 = pendingMessageCache w
   ∧ callbacks outcome.2 = callbacks w
   ∧ jobQueues outcome.2 = jobQueues w)
  ∧ (∀ ts, outcome.1 = Ok (Some ts) →
       ∃ rawMessage r,
         toRawMessage W (trace w) pubkey message ns = Ok rawMessage
         ∧ send W (trace w ++ [converted]) rawMessage false = Ok r
         ∧ handleMessageSentSuccess W (trace w ++ [converted; EvSend rawMessage false])
             rawMessage (effectiveTimestamp r) (wrappedEnvelope r) = Ok tt
         ∧ effectiveTimestamp r = ts
         ∧ outcome.2 = emit [converted; EvSend rawMessage false;
                             EvSentSuccess rawMessage ts] w)
  ∧ (∀ rawMessage r,
       toRawMessage W (trace w) pubkey message ns = Ok rawMessage →
       send W (trace w ++ [converted]) rawMessage false = Ok r →
       handleMessageSentSuccess W (trace w ++ [converted; EvSend rawMessage false])
         rawMessage (effectiveTimestamp r) (wrappedEnvelope r) = Ok tt →
       outcome.1 = Ok (Some (effectiveTimestamp r)))
  ∧ (∀ e, outcome.1 = Throw e →
       ∃ rawMessage evs e0,
         toRawMessage W (trace w) pubkey message ns = Ok rawMessage
         ∧ outcome.2 = emit (evs ++ [EvSentFailure (identifier rawMessage) e0]) w
         ∧ handleMessageSentFailure W (trace w ++ evs) (identifier rawMessage) e0
           = Throw e).
Proof.
  intros converted outcome. subst converted outcome.
  unfold sendToPubKeyNonDurably.
  cbv beta delta [bind try_catch perform log throw ret void]. cbn zeta.
  destruct (toRawMessage W (trace w) pubkey message ns) as [rawMessage|e0].
  2: { repeat split; discriminate. }
  cbn [trace emit].
  destruct (send W _ rawMessage false) as [r|e1] eqn:Hsend; cbn.
  - rewrite <- !app_assoc. cbn [app].
    destruct (handleMessageSentSuccess W _ rawMessage _ _) as [[]|e2] eqn:Hhandled;
      cbn.
    + split; [done|]. split; [|split; [|discriminate]].
      * intros ts [= <-]. exists rawMessage, r. by rewrite !emit_emit.
      * intros raw' r' [= <-] Hresolved _. congruence.
    + destruct (handleMessageSentFailure W _ _ e2) as [[]|e3] eqn:Hfail; cbn.
      * split; [done|]. split; [discriminate|]. split; [|discriminate].
        intros raw' r' [= <-] Hresolved Hok.
        assert (r' = r) as -> by congruence. congruence.
      * split; [done|]. split; [discriminate|]. split.
        { intros raw' r' [= <-] Hresolved Hok.
          assert (r' = r) as -> by congruence. congruence. }
        intros e [= <-].
        exists rawMessage,
          [ EvToRawMessage pubkey (msg_identifier message); EvSend rawMessage false;
            EvSentSuccess rawMessage (effectiveTimestamp r) ], e2.
        split; [done|]. split; [by rewrite !emit_emit|].
        by rewrite <- Hfail, <- ?app_assoc.
  - destruct (handleMessageSentFailure W _ _ e1) as [[]|e3] eqn:Hfail; cbn.
    + split; [done|]. split; [discriminate|]. split; [|discriminate].
      intros raw' r' [= <-] Hresolved. congruence.
    + split; [done|]. split; [discriminate|]. split.
      { intros raw' r' [= <-] Hresolved. congruence. }
      intros e [= <-].
      exists rawMessage,
        [EvToRawMessage pubkey (msg_identifier message); EvSend rawMessage false], e1.
      split; [done|]. split; [by rewrite !emit_emit|].
      by rewrite <- Hfail, <- ?app_assoc.
Qed.

End Direct.

Lemma open_group_transport_rejection_is_reported_witness :
  sendToOpenGroupV2 (senderWithRoomDown thrownUndefined) false [] plainPost exampleRoom
    emptyWorld
  = (Ok tt,
     emit [ EvSendToOpenGroupV2 "post-1" exampleRoom false [];
            openGroupWarning exampleRoom;
            EvSentFailure "post-1" (mkError "Failed to send message to open group.") ]
          emptyWorld)
  ∧ sendToOpenGroupV2BlindedRequest (senderWithRoomDown thrownUndefined)
      [x09] plainPost "15recipient" exampleRoom emptyWorld
    = (Throw (cannotReadMessage "undefined"),
       emit [EvSendToOpenGroupV2BlindedRequest exampleRoom "15recipient"] emptyWorld).
Proof.
  destruct (open_group_transport_rejection_is_reported
              (senderWithRoomDown thrownUndefined) emptyWorld
              plainPost exampleRoom thrownUndefined) as [Hplain Hblinded].
  split.
  - rewrite (Hplain false [] eq_refl eq_refl). reflexivity.
  - rewrite (Hblinded [x09] "15recipient" eq_refl eq_refl). reflexivity.
Defined.

Lemma valid_server_id_reaches_success_handler_witness :
  sendToOpenGroupV2 (exampleSender (Some 12) false false false)
    false [] plainPost exampleRoom emptyWorld
  = (Ok tt,
     emit [ EvSendToOpenGroupV2 "post-1" exampleRoom false [];
            EvPublicSentSuccess "post-1" (Some 12) (Some 1000) ]
          emptyWorld).
Proof.
  destruct (valid_server_id_reaches_success_handler
              (exampleSender (Some 12) false false false) emptyWorld
              plainPost exampleRoom) as [H _].
  apply (H false [] (mkOpenGroupMessageV2 (Some 12) (Some 1000)));
    reflexivity.
Defined.

Lemma blinded_request_needs_blinded_recipient_witness :
  (sendToOpenGroupV2BlindedRequest (exampleSender (Some 12) false false false)
     [x09] plainPost "05recipient" exampleRoom emptyWorld).2
  = emit [ openGroupWarning exampleRoom;
           EvSentFailure "post-1"
             (mkError "sendToOpenGroupV2BlindedRequest needs a blindedId") ]
         emptyWorld.
Proof.
  apply (blinded_request_needs_blinded_recipient
           (exampleSender (Some 12) false false false) emptyWorld
           [x09] plainPost "05recipient" exampleRoom).
  reflexivity.
Defined.

Lemma nonDurable_timestamp_only_on_success_witness :
  ∃ rawMessage r,
    toRawMessage (exampleSender None false false false) []
      (mkPubKey "05friend") plainMessage 0 = Ok rawMessage
    ∧ send (exampleSender None false false false)
        ([] ++ [EvToRawMessage (mkPubKey "05friend") "msg-1"]) rawMessage false = Ok r
    ∧ handleMessageSentSuccess (exampleSender None false false false)
        ([] ++ [EvToRawMessage (mkPubKey "05friend") "msg-1"; EvSend rawMessage false])
        rawMessage (effectiveTimestamp r) (wrappedEnvelope r) = Ok tt
    ∧ effectiveTimestamp r = 1000
    ∧ (sendToPubKeyNonDurably (exampleSender None false false false)
         plainMessage 0 (mkPubKey "05friend") emptyWorld).2
      = emit [ EvToRawMessage (mkPubKey "05friend") "msg-1";
               EvSend rawMessage false; EvSentSuccess rawMessage 1000 ]
             emptyWorld.
Proof.
  destruct (nonDurable_timestamp_only_on_success
              (exampleSender None false false false) emptyWorld
              plainMessage 0 (mkPubKey "05friend")) as (_ & H & _).
  apply (H 1000). reflexivity.
Defined.

(** ** Jobs at work *)

Section Jobs.
Context (W : Collaborators).

Local Ltac finish :=
  unfold emit, set_cache, set_callbacks; cbn; rewrite <- ?app_assoc; cbn;
  repeat split; reflexivity.

(** One job: it resolves, sends once, ends with the removal from the
    cache, and leaves the queues alone; the callback table loses the entry
    of the message exactly when the failure handler was not called. *)
Lemma runJob_effect (job : Job) (w0 : World) :
  let m := job_message job in
  let id := identifier m in
  ∃ rest,
    runJob W job w0
    = (Ok tt,
       mkWorld (List.filter (λ c, negb (String.eqb (identifier c) id))
                            (pendingMessageCache w0))
               (if existsb isFailureHandler rest then callbacks w0
                else delete id (callbacks w0))
               (jobQueues w0)
               (trace w0 ++ EvSend m (job_isSyncMessage job) :: rest
                        ++ [EvCacheRemove id]))
    ∧ List.filter isSend rest = []
    ∧ (length (List.filter isFailureHandler rest) ≤ 1)%nat
    ∧ (existsb isFailureHandler rest = false →
       ∃ r, send W (trace w0) m (job_isSyncMessage job) = Ok r
            ∧ In (EvSentSuccess m (effectiveTimestamp r)) rest).
Proof.
  intros m id. subst m id. unfold runJob.
  cbv beta delta [try_finally try_catch bind perform void ret cache_remove].
  cbn zeta. cbn [trace emit].
  destruct (send W (trace w0) (job_message job) (job_isSyncMessage job)) as [r|e].
  2: { exists [EvSentFailure (identifier (job_message job)) e].
       split; [finish|]. cbn. split; [done|]. split; [lia|discriminate]. }
  destruct (handleMessageSentSuccess W _ (job_message job) _ _) as [[]|e].
  2: { exists [ EvSentSuccess (job_message job) (effectiveTimestamp r);
                EvSentFailure (identifier (job_message job)) e ].
       split; [finish|]. cbn. split; [done|]. split; [lia|discriminate]. }
  cbn. destruct (callbacks w0 !! identifier (job_message job)) as [cb|]; cbn.
  2: { exists [EvSentSuccess (job_message job) (effectiveTimestamp r)].
       split; [finish|]. cbn. split; [done|]. split; [lia|].
       intros _. exists r. split; [done|]. by left. }
  rewrite <- !app_assoc. cbn [app].
  destruct (runCallback W _ cb (job_message job)) as [[]|e]; cbn.
  + exists [ EvSentSuccess (job_message job) (effectiveTimestamp r);
             EvCallback cb (job_message job) ].
    split; [finish|]. cbn. split; [done|]. split; [lia|].
    intros _. exists r. split; [done|]. by left.
  + exists [ EvSentSuccess (job_message job) (effectiveTimestamp r);
             EvCallback cb (job_message job);
             EvSentFailure (identifier (job_message job)) e ].
    split; [finish|]. cbn. split; [done|]. split; [lia|discriminate].
Qed.


Lemma filter_filter_negb {A} (p q : A → bool) (l : list A) :
  List.filter (λ x, negb (q x)) (List.filter (λ x, negb (p x)) l)
  = List.filter (λ x, negb (p x || q x)) l.
Proof.
  induction l as [|x l IH]; [done|]. cbn.
  destruct (p x); cbn; [done|]. destruct (q x); cbn; by rewrite IH.
Qed.

Lemma filter_all {A} (p : A → bool) (l : list A) :
  (∀ x, In x l → p x = true) → List.filter p l = l.
Proof.
  induction l as [|x l IH]; intros Hall; [done|]. cbn.
  rewrite (Hall x) by (by left). f_equal. apply IH. intros y Hy. apply Hall. by right.
Qed.

Lemma filter_none {A} (p : A → bool) (l : list A) :
  (∀ x, In x l → p x = false) → List.filter p l = [].
Proof.
  induction l as [|x l IH]; intros Hall; [done|]. cbn.
  rewrite (Hall x) by (by left). apply IH. intros y Hy. apply Hall. by right.
Qed.

Lemma settle_queueOf devKey id w k :
  queueOf k (settle devKey id w).2
  = if decide (k = devKey)
    then List.filter (λ j, negb (String.eqb (fst j) id)) (queueOf k w)
    else queueOf k w.
Proof.
  unfold settle, queueOf. cbn. case_decide as Hk.
  - subst k. rewrite lookup_alter_eq. by destruct (jobQueues w !! devKey).
  - by rewrite lookup_alter_ne.
Qed.

(** The jobs of a queue, run one after the other: every job sends once,
    in order; together they remove their messages from the cache and their
    identifiers from the queue. *)
Lemma runJobs_effect devKey jobs : ∀ w,
  ∃ evs,
    (runJobs W devKey jobs w).1 = Ok tt
    ∧ trace (runJobs W devKey jobs w).2 = trace w ++ evs
    ∧ List.filter isSend evs = sendsOf jobs
    ∧ pendingMessageCache (runJobs W devKey jobs w).2
      = List.filter (λ c, negb (removedBy jobs c)) (pendingMessageCache w)
    ∧ queueOf devKey (runJobs W devKey jobs w).2
      = List.filter (λ j, negb (settledBy jobs j)) (queueOf devKey w)
    ∧ (∀ k, k ≠ devKey → queueOf k (runJobs W devKey jobs w).2 = queueOf k w).
Proof.
  induction jobs as [|[id job] rest IH]; intros w.
  - exists []. cbn. rewrite app_nil_r.
    rewrite !filter_all by done. done.
  - assert (Hstep : runJobs W devKey ((id, job) :: rest) w
                    = runJobs W devKey rest (settle devKey id (runJob W job w).2).2).
    { cbn [runJobs]. unfold bind, void.
      by destruct (runJob_effect job w) as (evs1 & -> & _). }
    rewrite Hstep. clear Hstep.
    destruct (runJob_effect job w) as (evs1 & -> & Hsend1 & _). cbn [snd].
    set (w1 := mkWorld _ _ _ _).
    pose proof (settle_queueOf devKey id w1) as Hsettle.
    assert (Hcache : pendingMessageCache (settle devKey id w1).2
                     = pendingMessageCache w1) by done.
    assert (Htrace : trace (settle devKey id w1).2 = trace w1) by done.
    assert (Hres : (settle devKey id w1).1 = Ok tt) by done.
    destruct (settle devKey id w1) as [r2 w2]. cbn [fst snd] in *. subst r2.
    destruct (IH w2) as (evs & Hok & Htr & Hsends & Hc & Hq & Hother).
    exists ((EvSend (job_message job) (job_isSyncMessage job) :: evs1
             ++ [EvCacheRemove (identifier (job_message job))]) ++ evs).
    split; [done|]. split.
    { rewrite Htr, Htrace. subst w1. cbn [trace]. by rewrite <- !app_assoc. }
    split.
    { rewrite List.filter_app, Hsends. cbn [List.filter isSend].
      rewrite List.filter_app, Hsend1. done. }
    split.
    { rewrite Hc, Hcache. subst w1. cbn [pendingMessageCache].
      by rewrite filter_filter_negb. }
    split.
    { rewrite Hq, Hsettle, decide_True by done. subst w1.
      unfold queueOf at 1. cbn [jobQueues]. fold (queueOf devKey w).
      by rewrite filter_filter_negb. }
    intros k Hk. rewrite (Hother k Hk), Hsettle, decide_False by done.
    by subst w1.
Qed.


(** X19: the durable path ends with an empty cache for the destination:
    after [processPending] and the draining of the queue, no message for
    that destination is left in the cache and its queue is empty, provided
    the jobs that were already queued sit under the identifier of their own
    message. *)
Theorem pending_then_drain_empties_destination (w : World) (dev : PubKey)
    (isSyncMessage : bool) :
  wellKeyed (queueOf (key dev) w) →
  let queued := (processPending dev isSyncMessage w).2 in
  getForDevice dev (drain W dev queued).2 = []
  ∧ queueOf (key dev) (drain W dev queued).2 = []
  ∧ List.filter isSend (trace (drain W dev queued).2)
    = List.filter isSend (trace w) ++ sendsOf (queueOf (key dev) queued).
Proof.
  intros Hkeyed queued.
  destruct (fold_enqueue_appends isSyncMessage (getForDevice dev w)
              (queueOf (key dev) w)) as (added & Hadded & _ & Hall & _).
  assert (Hqueue : queueOf (key dev) queued = queueOf (key dev) w ++ added).
  { subst queued. by rewrite processPending_queueOf, decide_True. }
  assert (Hcache : pendingMessageCache queued = pendingMessageCache w).
  { subst queued. by rewrite processPending_unfold. }
  assert (Htrace : trace queued = trace w).
  { subst queued. by rewrite processPending_unfold. }
  unfold drain. fold (queueOf (key dev) queued).
  destruct (runJobs_effect (key dev) (queueOf (key dev) queued) queued)
    as (evs & _ & Htr & Hsends & Hc & Hq & _).
  split; [|split].
  - unfold getForDevice. rewrite Hc, Hcache. apply filter_none.
    intros c [Hin Hremains]%filter_In.
    destruct (String.eqb_spec (device c) (key dev)) as [Hdev|]; [|done].
    exfalso. apply negb_true_iff in Hremains.
    assert (Hhas : jobQueue_has (identifier c) (queueOf (key dev) queued) = true).
    { subst queued. by apply processPending_queues_device. }
    unfold jobQueue_has in Hhas. apply existsb_exists in Hhas as (j & Hj & Hid).
    apply String.eqb_eq in Hid.
    assert (Hkey : fst j = identifier (job_message (snd j))).
    { rewrite Hqueue in Hj. apply in_app_or in Hj as [Hj|Hj].
      - unfold wellKeyed in Hkeyed. rewrite Forall_forall in Hkeyed.
        by apply Hkeyed, list_elem_of_In.
      - rewrite Forall_forall in Hall. by apply Hall, list_elem_of_In. }
    assert (removedBy (queueOf (key dev) queued) c = true); [|congruence].
    unfold removedBy. apply existsb_exists. exists j. split; [done|].
    apply String.eqb_eq. congruence.
  - rewrite Hq. apply filter_none. intros j Hj.
    apply negb_false_iff. unfold settledBy. apply existsb_exists.
    exists j. split; [done|]. apply String.eqb_refl.
  - by rewrite Htr, Htrace, List.filter_app, Hsends.
Qed.

(** X20: [getJobQueue] gives the queue of the destination and makes sure
    it exists: afterwards the map has an entry for the key, a second call
    gives the same queue and changes nothing, and no other entry, nor the
    cache or the trace, is touched. *)
Theorem getJobQueue_creates_once (w : World) (dev : PubKey) :
  let after := (getJobQueue dev w).2 in
  (getJobQueue dev w).1 = Ok (queueOf (key dev) w)
  ∧ jobQueues after !! key dev = Some (queueOf (key dev) w)
  ∧ getJobQueue dev after = (Ok (queueOf (key dev) w), after)
  ∧ (∀ k, k ≠ key dev → jobQueues after !! k = jobQueues w !! k)
  ∧ pendingMessageCache after = pendingMessageCache w
  ∧ callbacks after = callbacks w
  ∧ trace after = trace w.
Proof.
  intros after. subst after. unfold getJobQueue, queueOf.
  destruct (jobQueues w !! key dev) as [queue|] eqn:Hq; cbn.
  - rewrite Hq. repeat split; done.
  - rewrite lookup_insert_eq. repeat split; try done.
    intros k Hk. by rewrite lookup_insert_ne.
Qed.

End Jobs.

Lemma pending_then_drain_empties_destination_witness :
  getForDevice (mkPubKey "05friend")
    (drain (exampleSender None false false false) (mkPubKey "05friend")
       (processPending (mkPubKey "05friend") false worldWithPending).2).2
  = [].
Proof.
  destruct (pending_then_drain_empties_destination
              (exampleSender None false false false)
              worldWithPending (mkPubKey "05friend") false) as [H _].
  - vm_compute. constructor.
  - exact H.
Defined.



Lemma getJobQueue_creates_once_witness :
  jobQueues (getJobQueue (mkPubKey "05friend") emptyWorld).2 !! "05new"
  = jobQueues emptyWorld !! "05new".
Proof.
  destruct (getJobQueue_creates_once emptyWorld (mkPubKey "05friend"))
    as (_ & _ & _ & Hother & _).
  apply Hother. discriminate.
Defined.

End MessageQueueFacts.
